(** * jirafs: the dynamic namespace over a remote issue tracker

    A shallow embedding of [jira.go]: the view hierarchy ([Walk], [List],
    [Remove]), the commit-on-close callbacks, and the pieces of the Go
    standard library they rely on.  Remote tracker operations are an
    interface ([Tracker]); every call is recorded in a trace so that
    statements of the form "no remote operation is invoked" can be made. *)

From Stdlib Require Import NArith Ascii String.
From stdpp Require Import base option list strings gmap fin_maps.

Local Open Scope string_scope.
Local Open Scope list_scope.

(** ** Go standard library: [strings] and [strconv] on byte strings *)

Module GoStrings.

(** The newline byte ['\n']. *)
Definition nl : ascii := Ascii.ascii_of_nat 10.
Definition NL : string := String nl "".

(** [strings.Replace(s, "\n", "", -1)]: every occurrence of the one-byte
    pattern is removed. *)
Fixpoint removeAll (old : ascii) (s : string) : string :=
  match s with
  | "" => ""
  | String c s' =>
      if Ascii.eqb c old then removeAll old s' else String c (removeAll old s')
  end.

(** [strings.Split(s, sep)] for a one-byte separator: the result always has
    one more element than there are separators in [s]. *)
Fixpoint Split (s : string) (sep : ascii) : list string :=
  match s with
  | "" => [""]
  | String c s' =>
      if Ascii.eqb c sep then "" :: Split s' sep
      else match Split s' sep with
           | h :: t => String c h :: t
           | [] => [String c ""]
           end
  end.

(** [strings.Join(a, sep)]. *)
Fixpoint Join (a : list string) (sep : string) : string :=
  match a with
  | [] => ""
  | [x] => x
  | x :: rest => x +:+ sep +:+ Join rest sep
  end.

(** [unicode.ToUpper] on a byte at or below [unicode.MaxASCII]. *)
Definition upper (c : ascii) : ascii :=
  let n := N_of_ascii c in
  if ((97 <=? n) && (n <=? 122))%N then ascii_of_N (n - 32) else c.

(** The case table of package unicode is not part of this repository:
    [To_UpperCase r] stands for [unicode.To(unicode.UpperCase, r)] on the
    runes above MaxASCII.  Of the table only this much is used: such a rune
    stays above MaxASCII or becomes an ASCII capital (U+017F becomes S,
    U+0131 becomes I). *)
Class Unicode := {
  To_UpperCase : N -> N;
  To_UpperCase_above :
    forall r, (128 <= r)%N ->
      (128 <= To_UpperCase r)%N \/ (65 <= To_UpperCase r <= 90)%N }.

(** Package utf8: [RuneError] is U+FFFD, [MaxRune] is U+10FFFF. *)
Definition RuneError : N := 65533.
Definition MaxRune : N := 1114111.

Definition inRange (lo hi b : N) : bool := ((lo <=? b) && (b <=? hi))%N.

(** utf8's tables [first] and [acceptRanges]: for a first byte that starts
    an encoding of several bytes, the length of the encoding and the bounds
    of its second byte; [None] for the bytes that start none (0x80..0xC1,
    0xF5..0xFF). *)
Definition first (s0 : N) : option (N * N * N) :=
  if inRange 194 223 s0 then Some (2, 128, 191)%N
  else if (s0 =? 224)%N then Some (3, 160, 191)%N
  else if inRange 225 236 s0 then Some (3, 128, 191)%N
  else if (s0 =? 237)%N then Some (3, 128, 159)%N
  else if inRange 238 239 s0 then Some (3, 128, 191)%N
  else if (s0 =? 240)%N then Some (4, 144, 191)%N
  else if inRange 241 243 s0 then Some (4, 128, 191)%N
  else if (s0 =? 244)%N then Some (4, 128, 143)%N
  else None.

(** [b & maskx], the six payload bits of a continuation byte. *)
Definition maskx (b : N) : N := N.land b 63.

(** The runes of [for _, c := range s]: [utf8.DecodeRuneInString] at every
    position, where a byte that starts no valid encoding is [RuneError] and
    takes one byte. *)
Fixpoint runes (s : string) : list N :=
  match s with
  | "" => []
  | String c0 t1 =>
      let s0 := N_of_ascii c0 in
      if (s0 <? 128)%N then s0 :: runes t1
      else
        match first s0, t1 with
        | Some (sz, lo, hi), String c1 t2 =>
            let s1 := N_of_ascii c1 in
            if negb (inRange lo hi s1) then RuneError :: runes t1
            else if (sz <=? 2)%N
            then N.lor (N.shiftl (N.land s0 31) 6) (maskx s1) :: runes t2
            else
              match t2 with
              | String c2 t3 =>
                  let s2 := N_of_ascii c2 in
                  if negb (inRange 128 191 s2) then RuneError :: runes t1
                  else if (sz <=? 3)%N
                  then N.lor (N.lor (N.shiftl (N.land s0 15) 12)
                                    (N.shiftl (maskx s1) 6))
                             (maskx s2) :: runes t3
                  else
                    match t3 with
                    | String c3 t4 =>
                        let s3 := N_of_ascii c3 in
                        if negb (inRange 128 191 s3) then RuneError :: runes t1
                        else N.lor (N.lor (N.lor (N.shiftl (N.land s0 7) 18)
                                                 (N.shiftl (maskx s1) 12))
                                          (N.shiftl (maskx s2) 6))
                                   (maskx s3) :: runes t4
                    | "" => RuneError :: runes t1
                    end
              | "" => RuneError :: runes t1
              end
        | _, _ => RuneError :: runes t1
        end
  end.

(** [byte(n)], the low eight bits. *)
Definition byte (n : N) : ascii := ascii_of_N n.

(** [utf8.AppendRune]: the UTF-8 encoding of a rune; a surrogate or a value
    above [MaxRune] is written as [RuneError]. *)
Definition AppendRune (r : N) : string :=
  if (r <=? 127)%N then String (byte r) ""
  else if (r <=? 2047)%N
  then String (byte (N.lor 192 (N.shiftr r 6)))
         (String (byte (N.lor 128 (maskx r))) "")
  else
    let r3 := if (MaxRune <? r)%N || inRange 55296 57343 r then Some RuneError
              else if (r <=? 65535)%N then Some r else None in
    match r3 with
    | Some r =>
        String (byte (N.lor 224 (N.shiftr r 12)))
          (String (byte (N.lor 128 (maskx (N.shiftr r 6))))
             (String (byte (N.lor 128 (maskx r))) ""))
    | None =>
        String (byte (N.lor 240 (N.shiftr r 18)))
          (String (byte (N.lor 128 (maskx (N.shiftr r 12))))
             (String (byte (N.lor 128 (maskx (N.shiftr r 6))))
                (String (byte (N.lor 128 (maskx r))) "")))
    end.

(** [unicode.ToUpper]. *)
Definition unicode_ToUpper `{Unicode} (r : N) : N :=
  if (r <=? 127)%N
  then (if ((97 <=? r) && (r <=? 122))%N then r - 32 else r)%N
  else To_UpperCase r.

(** [strings.Map(mapping, s)] for a mapping without negative results: every
    rune of [s] is mapped and written back as UTF-8, so a byte that starts
    no valid encoding comes out as the three bytes of U+FFFD. *)
Definition Map (mapping : N -> N) (s : string) : string :=
  fold_right (fun r out => AppendRune (mapping r) +:+ out) "" (runes s).

(** [strings.ToUpper]; on a string of ASCII bytes it is [upper] on every
    byte, which is Go's fast path. *)
Definition ToUpper `{Unicode} (s : string) : string := Map unicode_ToUpper s.

(** A string that is empty or starts with an ASCII byte: where a rune of
    the text before it must end. *)
Definition boundary (t : string) : Prop :=
  match t with
  | "" => True
  | String a _ => (N_of_ascii a < 128)%N
  end.

(** A byte above MaxASCII, or an ASCII capital. *)
Definition highOrCapital (y : ascii) : Prop :=
  (128 <= N_of_ascii y)%N \/ (65 <= N_of_ascii y <= 90)%N.

(** [strconv.ParseUint(s, 10, 64)]; [None] stands for a non-nil error
    (syntax or range, which the callers do not tell apart). *)
Definition maxUint64 : N := 18446744073709551615.
Definition cutoff10 : N := maxUint64 / 10 + 1.

Definition digitOf (c : ascii) : option N :=
  let n := N_of_ascii c in
  if ((48 <=? n) && (n <=? 57))%N then Some (n - 48)%N else None.

Fixpoint parseLoop (s : string) (n : N) : option N :=
  match s with
  | "" => Some n
  | String c s' =>
      match digitOf c with
      | None => None
      | Some d =>
          if (cutoff10 <=? n)%N then None
          else let n1 := (n * 10 + d)%N in
               if (maxUint64 <? n1)%N then None else parseLoop s' n1
      end
  end.

Definition ParseUint (s : string) : option N :=
  match s with
  | "" => None
  | _ => parseLoop s 0
  end.

(** Whitespace-separated tokens (what [strings.Fields] returns for a
    string of ASCII bytes); used only to state what "whitespace-separated"
    means, the code itself calls [Split]. *)
Definition isSpace (c : ascii) : bool :=
  let n := N_of_ascii c in
  ((n =? 32) || ((9 <=? n) && (n <=? 13)))%N.

Fixpoint fieldsAux (s : string) (cur : string) : list string :=
  match s with
  | "" => if decide (cur = "") then [] else [cur]
  | String c s' =>
      if isSpace c
      then (if decide (cur = "") then fieldsAux s' "" else cur :: fieldsAux s' "")
      else fieldsAux s' (cur +:+ String c "")
  end.

Definition whitespaceFields (s : string) : list string := fieldsAux s "".

(** Trailing newlines only, the reading "strip trailing newline(s)". *)
Fixpoint trimRightNL (s : string) : string :=
  match s with
  | "" => ""
  | String c s' =>
      match trimRightNL s' with
      | "" => if Ascii.eqb c nl then "" else String c ""
      | r => String c r
      end
  end.

Definition hasByte (c : ascii) (s : string) : Prop := c ∈ list_ascii_of_string s.

End GoStrings.

Import GoStrings.

(** ** Errors, results and the state-and-error monad *)

(** Go [error] values that the views produce or pass on. *)
Inductive error :=
| ErrNoSuchFile                      (* trees.ErrNoSuchFile *)
| ErrPermissionDenied                (* trees.ErrPermissionDenied *)
| ErrorString (msg : string)         (* errors.New(msg) *)
| ErrRemote (msg : string)           (* whatever the tracker client returned *)
| ErrNoPathFound (depth : nat)       (* workflow resolver *)
| ErrPanic (msg : string).           (* a run-time panic, not a returned error *)

Inductive Result (A : Type) :=
| Ok (a : A)
| Err (e : error).
Arguments Ok {A} a.
Arguments Err {A} e.

(** A computation over a state [S] that returns a value or a Go error. *)
Definition ST (S A : Type) : Type := S -> Result A * S.

Definition ret {S A} (a : A) : ST S A := fun s => (Ok a, s).
Definition throw {S A} (e : error) : ST S A := fun s => (Err e, s).
Definition bind {S A B} (m : ST S A) (k : A -> ST S B) : ST S B :=
  fun s => match m s with
           | (Ok a, s') => k a s'
           | (Err e, s') => (Err e, s')
           end.
(** [err := f(); if err != nil { log }]: the error is dropped. *)
Definition ignoreErr {S A} (m : ST S A) : ST S unit :=
  fun s => (Ok tt, snd (m s)).
Definition get {S} : ST S S := fun s => (Ok s, s).

Notation "'let*' x ':=' m 'in' k" := (bind m (fun x => k))
  (at level 10, x pattern, m at level 100, k at level 200).
Notation "m ';;' k" := (bind m (fun _ => k))
  (at level 100, k at level 200, right associativity).

(** ** The tracker's data as the views read it *)

Record IssueLink := {
  link_ID : string;
  OutwardIssue : option string;     (* key of *OutwardIssue, nil when absent *)
  InwardIssue : option string;
  link_TypeName : string }.

Record IssueFields := {
  Assignee : option string;
  Reporter : option string;
  Creator : option string;
  Summary : string;
  Description : string;
  Type_ID : string;
  Type_Name : string;
  Status : option string;
  Priority : option string;
  Resolution : option string;
  Progress : option (Z * Z);
  Project_Key : string;
  Components : list string;
  Labels : list string;
  IssueLinks : list IssueLink }.

Record Issue := { Key : string; Fields : option IssueFields }.

Record Comment := {
  cmt_Author : string; cmt_Body : string; cmt_Updated : string; cmt_Created : string }.

(** ** Workflow graph *)

Record Edge := { transitionName : string; targetStatus : string }.

(** status name -> outgoing transitions, in the order the tracker gave them *)
Abbreviation WorkflowGraph := (gmap string (list Edge)).

Definition edgesOf (wg : WorkflowGraph) (s : string) : list Edge :=
  default [] (wg !! s).

(** All one-edge extensions of the paths in the frontier, frontier order
    first, edge order second. *)
Definition candidates (wg : WorkflowGraph) (frontier : list (string * list string))
  : list (string * list string) :=
  flat_map (fun '(s, p) =>
              map (fun e => (targetStatus e, p ++ [transitionName e])) (edgesOf wg s))
           frontier.

(** Keep the first candidate for every status not seen before. *)
Fixpoint discover (visited : gset string) (cands : list (string * list string))
  : list (string * list string) * gset string :=
  match cands with
  | [] => ([], visited)
  | (t, p) :: rest =>
      if decide (t ∈ visited) then discover visited rest
      else let '(next, vis) := discover ({[t]} ∪ visited) rest in
           ((t, p) :: next, vis)
  end.

Fixpoint search (wg : WorkflowGraph) (to : string) (fuel : nat)
    (frontier : list (string * list string)) (visited : gset string)
  : option (list string) :=
  match List.find (fun '(s, _) => bool_decide (s = to)) frontier with
  | Some (_, p) => Some p
  | None =>
      match fuel with
      | O => None
      | S fuel' =>
          let '(next, vis) := discover visited (candidates wg frontier) in
          search wg to fuel' next vis
      end
  end.

(** Modelled from the spec: the workflow resolver's [Path] is not part of
    jira.go.  Breadth-first search from [from], level by level, edges in the
    tracker's order; the first path reaching [to] within [maxSteps] levels is
    returned, a same-status request resolves to the empty path, and
    exhaustion fails with [ErrNoPathFound] carrying the depth tried. *)
Definition Path (wg : WorkflowGraph) (from to : string) (maxSteps : nat)
  : Result (list string) :=
  match search wg to maxSteps [(from, [])] {[from]} with
  | Some p => Ok p
  | None => Err (ErrNoPathFound maxSteps)
  end.

(** A walk in the graph: the transition names along a chain of edges. *)
Inductive walk (wg : WorkflowGraph) (a : string) : list string -> string -> Prop :=
| walk_nil : walk wg a [] a
| walk_snoc p b e :
    walk wg a p b -> e ∈ edgesOf wg b ->
    walk wg a (p ++ [transitionName e]) (targetStatus e).

(** What holds of the frontier and the visited set after [k] levels of the
    search from [from]. *)
Record level (wg : WorkflowGraph) (from : string) (k : nat)
    (frontier : list (string * list string)) (visited : gset string) : Prop := {
  level_paths : forall s p, (s, p) ∈ frontier -> walk wg from p s /\ length p = k;
  level_visited : forall s, s ∈ visited <-> exists p, walk wg from p s /\ length p <= k;
  level_frontier : forall s,
      s ∈ frontier.*1 <-> s ∈ visited /\ forall p, walk wg from p s -> k <= length p }.

(** ** The 9P side: modes, directory entries, files *)

Definition FileMode := N.
Definition octal (a b c : N) : FileMode := (a * 64 + b * 8 + c)%N.
Definition DMDIR : FileMode := 2147483648%N.       (* qp.DMDIR = 0x80000000 *)
Definition mode_or (a b : FileMode) : FileMode := N.lor a b.

(** [qp.Stat], the fields the views fill in. *)
Record Stat := { st_Name : string; st_Mode : FileMode; st_UID : string; st_GID : string }.

(** Modelled from the spec: [StringsToStats] is declared outside jira.go; it
    turns a set of names into directory entries with uniform permission and
    ownership metadata. *)
Definition StringsToStats (names : list string) (perm : FileMode) (user group : string)
  : list Stat :=
  map (fun n => {| st_Name := n; st_Mode := perm; st_UID := user; st_GID := group |}) names.

(** Modelled from the spec: [StringExistsInSets] is declared outside jira.go;
    it tells whether the name occurs in one of the given name sets. *)
Definition StringExistsInSets (file : string) (sets : list (list string)) : bool :=
  existsb (fun set => bool_decide (file ∈ set)) sets.

(** *** View state *)

Record IssueView := {
  iw_project : string;
  iw_issueNo : string;
  iw_newIssue : bool;
  iw_values : option (gmap string string) }.     (* None is the nil map *)

Record SearchView := { sw_query : string; sw_results : list string }.

Record JiraView := { jw_searches : option (gmap string SearchView) }.

(** The view a directory node was built around ([NewJiraDir]'s last argument). *)
Inductive View :=
| VWorklog (issueNo worklog : string)
| VIssueWorklog (issueNo : string)
| VComment (issueNo comment : string)
| VIssueComment (issueNo : string)
| VIssue (iw : IssueView)
| VSearch (sw : SearchView)
| VProjectIssues (project : string)
| VProject (project : string)
| VAllProjects
| VAllIssues
| VJira (jw : JiraView).

(** The commit callbacks, one constructor per closure in the source with
    the variables it captures. *)
Inductive OnClose :=
| CommentOnClose (issueNo comment file : string)
| NewOnClose (file : string)
| NormalOnClose (issueNo project : string) (issue : Issue) (file : string).

Record SyntheticFile := {
  sf_name : string; sf_perm : FileMode; sf_user : string; sf_group : string;
  sf_Content : string }.

Definition NewSyntheticFile (name : string) (perm : FileMode) (user group : string)
  : SyntheticFile :=
  {| sf_name := name; sf_perm := perm; sf_user := user; sf_group := group;
     sf_Content := "" |}.
Definition SetContent (sf : SyntheticFile) (cnt : string) : SyntheticFile :=
  {| sf_name := sf_name sf; sf_perm := sf_perm sf; sf_user := sf_user sf;
     sf_group := sf_group sf; sf_Content := cnt |}.

(** [trees.File] as the views build it. *)
Inductive File :=
| FSynthetic (sf : SyntheticFile)
| FCloseSaver (sf : SyntheticFile) (forceTrunc : bool) (onClose : OnClose)
| FCommandFile (name : string) (perm : FileMode) (user group : string) (cmds : list string)
| FJiraDir (name : string) (perm : FileMode) (user group : string) (view : View).

Definition file_perm (f : File) : FileMode :=
  match f with
  | FSynthetic sf | FCloseSaver sf _ _ => sf_perm sf
  | FCommandFile _ p _ _ _ | FJiraDir _ p _ _ _ => p
  end.

Definition file_owner (f : File) : string * string :=
  match f with
  | FSynthetic sf | FCloseSaver sf _ _ => (sf_user sf, sf_group sf)
  | FCommandFile _ _ u g _ | FJiraDir _ _ u g _ => (u, g)
  end.

(** ** The remote tracker *)

(** A remote operation with its arguments, as recorded in the trace. *)
Inductive Call :=
| CGetIssue (key : string)
| CCreateIssue (issuetype project summary description : string)
| CDeleteIssue (key : string)
| CSetFieldInIssue (key field value : string)
| CSetIssueRaw (key raw : string)
| CGetTransitionsForIssue (key : string)
| CTransitionIssue (key transition : string)
| CLinkIssues (inward outward relation : string)
| CDeleteIssueLink (id : string)
| CGetComment (issueNo comment : string)
| CSetComment (issueNo comment body : string)
| CGetKeysForSearch (query : string) (limit : Z)
| CBuildWorkflow2 (project issueTypeID : string).

(** The client operations jira.go calls.  [R] is the tracker's state; every
    operation may change it and may fail. *)
Class Tracker (R : Type) := {
  GetIssue : string -> R -> Result Issue * R;
  CreateIssue : string -> string -> string -> string -> R -> Result string * R;
  DeleteIssue : string -> R -> Result unit * R;
  SetFieldInIssue : string -> string -> string -> R -> Result unit * R;
  SetIssueRaw : string -> string -> R -> Result unit * R;
  GetTransitionsForIssue : string -> R -> Result (list string) * R;
  TransitionIssue : string -> string -> R -> Result unit * R;
  LinkIssues : string -> string -> string -> R -> Result unit * R;
  DeleteIssueLink : string -> R -> Result unit * R;
  GetComment : string -> string -> R -> Result Comment * R;
  SetComment : string -> string -> string -> R -> Result unit * R;
  GetKeysForSearch : string -> Z -> R -> Result (list string) * R;
  BuildWorkflow2 : string -> string -> R -> Result WorkflowGraph * R }.

(** What jira.go takes from the Go runtime and from the rest of the
    repository without fixing it itself. *)
Class Externals := {
  (** [fmt.Sprintf("Progress: %v, Remaining: %v, Total: %v\n", p, r, t)] on
      durations of the given numbers of seconds *)
  fmtProgress : Z -> Z -> Z -> string;
  (** [json.MarshalIndent] of the issue, tab-indented *)
  MarshalIndent : Issue -> Result string;
  (** the [forceTrunc] a [NewCloseSaver] starts with *)
  NewCloseSaver_forceTrunc : bool;
  (** the order in which [for k, v := range m] visits a map: unspecified,
      but every entry exactly once *)
  rangeOrder : gmap string string -> list (string * string);
  rangeOrder_perm : forall m, rangeOrder m ≡ₚ map_to_list m;
  (** the static help and structure texts *)
  issues_help : string;
  issues_structure : string;
  root_help : string;
  root_structure : string }.

(** The [*Client]: its own fields, the tracker behind it and the trace. *)
Record World (R : Type) := {
  remote : R;
  calls : list Call;
  jc_user : string;
  jc_pass : string;
  jc_maxlisting : Z }.
Arguments remote {R} w.
Arguments calls {R} w.
Arguments jc_user {R} w.
Arguments jc_pass {R} w.
Arguments jc_maxlisting {R} w.

(** The world once the calls [cs] have been made and left the tracker in [r]. *)
Definition after {R} (w : World R) (r : R) (cs : list Call) : World R :=
  {| remote := r; calls := calls w ++ cs; jc_user := jc_user w;
     jc_pass := jc_pass w; jc_maxlisting := jc_maxlisting w |}.

(** One remote call: run the operation on the tracker and record it. *)
Definition call {R A} (c : Call) (op : R -> Result A * R) : ST (World R) A :=
  fun w => let '(x, r) := op (remote w) in (x, after w r [c]).

(** Run client code inside a view that has state of its own. *)
Definition liftW {V W A} (m : ST W A) : ST (V * W) A :=
  fun '(v, w) => let '(x, w') := m w in (x, (v, w')).
Definition getV {V W} : ST (V * W) V := fun s => (Ok (fst s), s).
Definition getW {V W} : ST (V * W) W := fun s => (Ok (snd s), s).
Definition putV {V W} (v : V) : ST (V * W) unit := fun s => (Ok tt, (v, snd s)).

(** [for _, x := range l { if err := body(x); err != nil { return err } }] *)
Fixpoint forEach {S A} (l : list A) (body : A -> ST S unit) : ST S unit :=
  match l with
  | [] => ret tt
  | x :: rest => body x ;; forEach rest body
  end.

(** ** The views *)

Section Views.
Context {R : Type} `{!Tracker R} `{!Externals} `{!Unicode}.

Definition perm_ro : FileMode := octal 5 5 5.     (* 0555 *)
Definition perm_rw : FileMode := octal 7 7 7.     (* 0777 *)

(** Modelled from the spec: [NewJiraDir] is declared outside jira.go; it
    wraps a view in a directory node for the protocol layer. *)
Definition NewJiraDir {S} (name : string) (perm : FileMode) (user group : string)
    (view : View) : ST S (option File) :=
  ret (Some (FJiraDir name perm user group view)).

(** Modelled from the spec: [NewCommandFile] is declared outside jira.go; a
    synthetic file whose written command line selects one of the named
    handlers. *)
Definition NewCommandFile (name : string) (perm : FileMode) (user group : string)
    (cmds : list string) : File :=
  FCommandFile name perm user group cmds.

Definition NewCloseSaver (sf : SyntheticFile) (onClose : OnClose) : File :=
  FCloseSaver sf NewCloseSaver_forceTrunc onClose.

(** [s += x + "\n"] over a slice *)
Definition lines (l : list string) : string :=
  fold_left (fun s x => s +:+ x +:+ NL) l "".

(** *** CommentView *)

Definition CommentView_Walk (issueNo comment file : string)
  : ST (World R) (option File) :=
  if negb (StringExistsInSets file [["author"; "comment"; "updated"; "created"]])
  then ret None
  else
    let* cmt := call (CGetComment issueNo comment) (GetComment issueNo comment) in
    let '(cnt, writable, forceTrunc) :=
      if String.eqb file "author" then (cmt_Author cmt +:+ NL, false, true)
      else if String.eqb file "comment" then (cmt_Body cmt, true, false)
      else if String.eqb file "updated" then (cmt_Updated cmt +:+ NL, false, true)
      else if String.eqb file "created" then (cmt_Created cmt +:+ NL, false, true)
      else ("", false, true) in
    let perm := if writable then perm_rw else perm_ro in
    let sf := SetContent (NewSyntheticFile file perm "jira" "jira") cnt in
    if writable
    then ret (Some (FCloseSaver sf forceTrunc (CommentOnClose issueNo comment file)))
    else ret (Some (FSynthetic sf)).

Definition CommentView_onClose (issueNo comment file : string) (content : string)
  : ST (World R) unit :=
  if String.eqb file "comment"
  then call (CSetComment issueNo comment content) (SetComment issueNo comment content)
  else ret tt.

Definition CommentView_List : list Stat :=
  StringsToStats ["comment"] perm_rw "jira" "jira"
  ++ StringsToStats ["author"; "updated"; "created"] perm_ro "jira" "jira".

(** *** IssueView *)

Definition normalFiles : list string * list string :=
  (["assignee"; "creator"; "ctl"; "description"; "type"; "key"; "reporter"; "status";
    "summary"; "labels"; "transition"; "priority"; "resolution"; "raw"; "progress";
    "links"; "components"; "project"],
   ["comments"; "worklog"]).

Definition newFiles : list string * list string :=
  (["ctl"; "description"; "type"; "summary"; "project"], []).

Definition set_values (iw : IssueView) (v : option (gmap string string)) : IssueView :=
  {| iw_project := iw_project iw; iw_issueNo := iw_issueNo iw;
     iw_newIssue := iw_newIssue iw; iw_values := v |}.

(** The ["commit"] handler of a new issue's [ctl]: first what it reads
    from the draft (with the fall-back to the containing view's project),
    then the handler. *)
Definition commit_request (iw : IssueView) : string * string * string * string :=
  let '(issuetype, summary, description, project) :=
    match iw_values iw with
    | Some values =>
        (removeAll nl (values !!! "type"), removeAll nl (values !!! "summary"),
         values !!! "description", removeAll nl (values !!! "project"))
    | None => ("", "", "", "")
    end in
  let project :=
    if String.eqb project "" && negb (String.eqb (iw_project iw) "")
    then iw_project iw else project in
  (issuetype, summary, description, project).

Definition newWalk_commit (args : list string) : ST (IssueView * World R) unit :=
  let* iw := getV in
  let isNew := iw_newIssue iw in
  let '(issuetype, summary, description, project) := commit_request iw in
  if negb isNew then throw (ErrorString "issue already committed")
  else
    let* key := liftW (call (CCreateIssue issuetype project summary description)
                            (CreateIssue issuetype project summary description)) in
    let* iw := getV in
    putV {| iw_project := project; iw_issueNo := key; iw_newIssue := false;
            iw_values := iw_values iw |}.

(** The commit callback of a new issue's draft file: [iw.values[file] = content]. *)
Definition newWalk_onClose (file content : string) : ST (IssueView * World R) unit :=
  let* iw := getV in
  match iw_values iw with
  | Some values => putV (set_values iw (Some (<[file := content]> values)))
  | None => throw (ErrPanic "assignment to entry in nil map")
  end.

Definition newWalk (file : string) : ST (IssueView * World R) (option File) :=
  let '(files, dirs) := newFiles in
  if negb (StringExistsInSets file [files; dirs]) then ret None
  else if String.eqb file "ctl"
  then ret (Some (NewCommandFile "ctl" perm_rw "jira" "jira" ["commit"]))
  else
    let sf := NewSyntheticFile file perm_rw "jira" "jira" in
    let* iw := getV in
    let values := match iw_values iw with Some m => m | None => ∅ end in
    putV (set_values iw (Some values)) ;;
    let value : string := values !!! file in
    ret (Some (NewCloseSaver (SetContent sf value) (NewOnClose file))).

Definition renderIssueLink (l : IssueLink) (key : string) : string :=
  match OutwardIssue l, InwardIssue l with
  | Some o, _ => key +:+ " " +:+ o +:+ " " +:+ link_TypeName l
  | None, Some i => i +:+ " " +:+ key +:+ " " +:+ link_TypeName l
  | None, None => ""
  end.

(** What the big [switch file] of [normalWalk] leaves behind: an early
    [return], or the content and the two flags. *)
Inductive Prepared :=
| Return (f : option File)
| Content (cnt : string) (forceTrunc writable : bool).

Definition nameLine (who : option string) : string :=
  match who with Some n => n +:+ NL | None => "" end.

Definition normalWalk_switch (iw : IssueView) (issue : Issue) (file : string)
  : ST (World R) Prepared :=
  let fields := Fields issue in
  if String.eqb file "assignee" then ret (Content (nameLine (fields ≫= Assignee)) true true)
  else if String.eqb file "reporter" then ret (Content (nameLine (fields ≫= Reporter)) true true)
  else if String.eqb file "creator" then ret (Content (nameLine (fields ≫= Creator)) true true)
  else if String.eqb file "summary" then ret (Content (nameLine (Summary <$> fields)) false true)
  else if String.eqb file "description"
  then ret (Content (nameLine (Description <$> fields)) false true)
  else if String.eqb file "type" then ret (Content (nameLine (Type_Name <$> fields)) true true)
  else if String.eqb file "status" then ret (Content (nameLine (fields ≫= Status)) true true)
  else if String.eqb file "priority" then ret (Content (nameLine (fields ≫= Priority)) true true)
  else if String.eqb file "resolution"
  then ret (Content (nameLine (fields ≫= Resolution)) true true)
  else if String.eqb file "progress"
  then ret (Content (match fields ≫= Progress with
                     | Some (p, t) => fmtProgress p (t - p) t
                     | None => ""
                     end) true false)
  else if String.eqb file "project"
  then ret (Content (nameLine (Project_Key <$> fields)) true false)
  else if String.eqb file "key" then ret (Content (Key issue +:+ NL) true false)
  else if String.eqb file "components"
  then ret (Content (match fields with Some f => lines (Components f) | None => "" end)
                    false true)
  else if String.eqb file "labels"
  then ret (Content (match fields with Some f => lines (Labels f) | None => "" end)
                    false true)
  else if String.eqb file "transition"
  then let* trs := call (CGetTransitionsForIssue (Key issue))
                        (GetTransitionsForIssue (Key issue)) in
       ret (Content (lines trs) true true)
  else if String.eqb file "links"
  then ret (Content (match fields with
                     | Some f => lines (map (fun l => renderIssueLink l (Key issue))
                                            (IssueLinks f))
                     | None => ""
                     end) false true)
  else if String.eqb file "comments"
  then let* d := NewJiraDir file (mode_or perm_ro DMDIR) "jira" "jira"
                            (VIssueComment (iw_issueNo iw)) in
       ret (Return d)
  else if String.eqb file "worklog"
  then let* d := NewJiraDir file (mode_or perm_ro DMDIR) "jira" "jira"
                            (VIssueWorklog (iw_issueNo iw)) in
       ret (Return d)
  else if String.eqb file "raw"
  then match MarshalIndent issue with
       | Ok b => ret (Content b true true)
       | Err e => throw e
       end
  else if String.eqb file "ctl"
  then ret (Return (Some (NewCommandFile "ctl" perm_rw "jira" "jira" ["delete"])))
  else ret (Content "" true true).

(** The ["delete"] handler of an issue's [ctl]. *)
Definition normalWalk_delete (issue : Issue) (args : list string) : ST (World R) unit :=
  call (CDeleteIssue (Key issue)) (DeleteIssue (Key issue)).

Definition normalWalk (iw : IssueView) (file : string) : ST (World R) (option File) :=
  let '(files, dirs) := normalFiles in
  if negb (StringExistsInSets file [files; dirs]) then ret None
  else
    let* issue := call (CGetIssue (iw_issueNo iw)) (GetIssue (iw_issueNo iw)) in
    let* prep := normalWalk_switch iw issue file in
    match prep with
    | Return f => ret f
    | Content cnt forceTrunc writable =>
        let perm := if writable then perm_rw else perm_ro in
        let sf := SetContent (NewSyntheticFile file perm "jira" "jira") cnt in
        if writable
        then ret (Some (FCloseSaver sf forceTrunc
                          (NormalOnClose (iw_issueNo iw) (iw_project iw) issue file)))
        else ret (Some (FSynthetic sf))
    end.

(** The link bookkeeping of the ["links"] commit: [cur] maps each rendered
    link to its id; a submitted line that is in [cur] is taken out of it,
    any other non-empty line is new. *)
Definition links_cur (issue : Issue) (links : list IssueLink) : gmap string string :=
  fold_left (fun cur l => <[renderIssueLink l (Key issue) := link_ID l]> cur) links ∅.

Definition scan_step (acc : gmap string string * list string) (s : string)
  : gmap string string * list string :=
  let '(cur, new) := acc in
  if String.eqb s "" then (cur, new)
  else match cur !! s with
       | None => (cur, new ++ [s])
       | Some _ => (delete s cur, new)
       end.

Definition links_scan (cur : gmap string string) (input : list string)
  : gmap string string * list string :=
  fold_left scan_step input (cur, []).

(** One pass of the loop over the new lines: the two [continue]s, then
    the call, whose error is only logged. *)
Definition links_parse (issue : Issue) (k : string) : option (string * string * string) :=
  match Split k " "%char with
  | [a0; a1; a2] =>
      if negb (String.eqb a0 (Key issue)) && negb (String.eqb a1 (Key issue))
      then None
      else Some (a0, a1, a2)
  | _ => None
  end.

Definition links_create (issue : Issue) (k : string) : ST (World R) unit :=
  match links_parse issue k with
  | Some (a0, a1, a2) => ignoreErr (call (CLinkIssues a0 a1 a2) (LinkIssues a0 a1 a2))
  | None => ret tt
  end.

(** One pass of the loop over what is left in [cur]; the error is only
    logged. *)
Definition links_delete (kv : string * string) : ST (World R) unit :=
  let '(k, v) := kv in
  ignoreErr (call (CDeleteIssueLink v) (DeleteIssueLink v)).

Definition links_onClose (issue : Issue) (content : string) : ST (World R) unit :=
  match Fields issue with
  | None => throw (ErrPanic "nil pointer dereference")
  | Some fields =>
      let cur := links_cur issue (IssueLinks fields) in
      let '(cur, new) := links_scan cur (Split content nl) in
      forEach (rangeOrder cur) links_delete ;;
      forEach new (links_create issue) ;;
      ret tt
  end.

Definition transition (key : string) (s : string) : ST (World R) unit :=
  call (CTransitionIssue key s) (TransitionIssue key s).

(** The ["status"] commit once the buffer has become the target [str]. *)
Definition status_resolve (issueNo project : string) (str : string)
  : ST (World R) unit :=
  let* issue := call (CGetIssue issueNo) (GetIssue issueNo) in
  match Fields issue with
  | None => throw (ErrorString "oops")
  | Some fields =>
      match Status fields with
      | None => throw (ErrorString "oops2")
      | Some status =>
          let* wg := call (CBuildWorkflow2 project (Type_ID fields))
                          (BuildWorkflow2 project (Type_ID fields)) in
          match Path wg status str 500 with
          | Err e => throw e
          | Ok p =>
              forEach p (transition (Key issue))
          end
      end
  end.

Definition status_onClose (issueNo project : string) (content : string)
  : ST (World R) unit :=
  let str := removeAll nl content in
  status_resolve issueNo project str.

(** The commit callback built by [normalWalk], run on the buffer the file
    holds when it is closed.  [issueNo] and [project] are the view's, which
    do not change once the view is out of new mode; [issue] is the issue
    fetched by the [Walk] that made the file. *)
Definition normalWalk_onClose (issueNo project : string) (issue : Issue)
    (file : string) (content : string) : ST (World R) unit :=
  if String.eqb file "raw"
  then call (CSetIssueRaw (Key issue) content) (SetIssueRaw (Key issue) content)
  else if String.eqb file "links" then links_onClose issue content
  else if String.eqb file "transition"
  then let str := removeAll nl content in
       transition (Key issue) str
  else if String.eqb file "status" then status_onClose issueNo project content
  else
    let str :=
      if String.eqb file "description" || String.eqb file "labels"
         || String.eqb file "components"
      then content else removeAll nl content in
    call (CSetFieldInIssue (Key issue) file str) (SetFieldInIssue (Key issue) file str).

Definition IssueView_Walk (file : string) : ST (IssueView * World R) (option File) :=
  let* iw := getV in
  if iw_newIssue iw then newWalk file else liftW (normalWalk iw file).

Definition IssueView_List (iw : IssueView) : list Stat :=
  let '(files, dirs) := if iw_newIssue iw then newFiles else normalFiles in
  StringsToStats files perm_rw "jira" "jira"
  ++ StringsToStats dirs (mode_or perm_rw DMDIR) "jira" "jira".

(** *** SearchView *)

Definition SearchView_search : ST (SearchView * World R) unit :=
  let* sw := getV in
  let* w := getW in
  let* keys := liftW (call (CGetKeysForSearch (sw_query sw) (jc_maxlisting w))
                           (GetKeysForSearch (sw_query sw) (jc_maxlisting w))) in
  putV {| sw_query := sw_query sw; sw_results := keys |}.

Definition SearchView_Walk (file : string) : ST (SearchView * World R) (option File) :=
  let* sw := getV in
  let keys := sw_results sw in
  if negb (StringExistsInSets file [keys]) then throw ErrNoSuchFile
  else
    let* issue := liftW (call (CGetIssue file) (GetIssue file)) in
    match Fields issue with
    | None => throw (ErrorString "nil fields in issue")
    | Some fields =>
        NewJiraDir file (mode_or perm_ro DMDIR) "jira" "jira"
          (VIssue {| iw_project := Project_Key fields; iw_issueNo := Key issue;
                     iw_newIssue := false; iw_values := None |})
    end.

Definition SearchView_List : ST (SearchView * World R) (list Stat) :=
  SearchView_search ;;
  let* sw := getV in
  ret (StringsToStats (sw_results sw) (mode_or perm_ro DMDIR) "jira" "jira").

(** *** ProjectIssuesView and AllIssuesView *)

Definition ProjectIssuesView_Walk (project issueNo : string)
  : ST (World R) (option File) :=
  if String.eqb issueNo "new"
  then NewJiraDir issueNo (mode_or perm_ro DMDIR) "jira" "jira"
         (VIssue {| iw_project := project; iw_issueNo := ""; iw_newIssue := true;
                    iw_values := None |})
  else
    match ParseUint issueNo with
    | None => ret None
    | Some _ =>
        let issueKey := project +:+ "-" +:+ issueNo in
        call (CGetIssue issueKey) (GetIssue issueKey) ;;
        NewJiraDir issueNo (mode_or perm_ro DMDIR) "jira" "jira"
          (VIssue {| iw_project := project; iw_issueNo := issueKey;
                     iw_newIssue := false; iw_values := None |})
    end.

Definition AllIssuesView_Walk (issueKey : string) : ST (World R) (option File) :=
  if String.eqb issueKey "new"
  then NewJiraDir issueKey (mode_or perm_ro DMDIR) "jira" "jira"
         (VIssue {| iw_project := ""; iw_issueNo := ""; iw_newIssue := true;
                    iw_values := None |})
  else if String.eqb issueKey "help"
  then ret (Some (FSynthetic
                    (SetContent (NewSyntheticFile issueKey perm_ro "jira" "jira")
                                issues_help)))
  else if String.eqb issueKey "structure"
  then ret (Some (FSynthetic
                    (SetContent (NewSyntheticFile issueKey perm_ro "jira" "jira")
                                issues_structure)))
  else
    match Split (ToUpper issueKey) "-"%char with
    | [_; number] =>
        match ParseUint number with
        | None => ret None
        | Some _ =>
            let* issue := call (CGetIssue issueKey) (GetIssue issueKey) in
            match Fields issue with
            | None => throw (ErrorString "no fields")
            | Some fields =>
                NewJiraDir issueKey (mode_or perm_ro DMDIR) "jira" "jira"
                  (VIssue {| iw_project := Project_Key fields; iw_issueNo := issueKey;
                             iw_newIssue := false; iw_values := None |})
            end
        end
    | _ => ret None
    end.

Definition AllIssuesView_List : ST (World R) (list Stat) :=
  let* w := get in
  let* keys := call (CGetKeysForSearch "" (jc_maxlisting w))
                    (GetKeysForSearch "" (jc_maxlisting w)) in
  let keys := keys ++ ["new"] in
  let issues := StringsToStats keys (mode_or perm_ro DMDIR) "jira" "jira" in
  let help := StringsToStats ["help"; "structure"] (octal 0 5 5) "jira" "jira" in
  ret (issues ++ help).

(** *** JiraView, the root *)

Definition searches_of (jw : JiraView) : gmap string SearchView :=
  match jw_searches jw with Some m => m | None => ∅ end.

(** The ["search"] handler of the root [ctl]. *)
Definition JiraView_search (args : list string) : ST (JiraView * World R) unit :=
  match args with
  | name :: ((_ :: _) as query) =>
      fun '(jw, w) =>
        match SearchView_search ({| sw_query := Join query " "; sw_results := [] |}, w) with
        | (Ok _, (sw, w')) =>
            (Ok tt, ({| jw_searches := Some (<[name := sw]> (searches_of jw)) |}, w'))
        | (Err e, (_, w')) => (Err e, (jw, w'))
        end
  | _ => throw (ErrorString "query missing")
  end.

Definition JiraView_Walk (file : string) : ST (JiraView * World R) (option File) :=
  let* jw := getV in
  putV {| jw_searches := Some (searches_of jw) |} ;;
  if String.eqb file "ctl"
  then ret (Some (NewCommandFile "ctl" perm_rw "jira" "jira"
                    ["search"; "pass-login"; "set"]))
  else if String.eqb file "projects"
  then NewJiraDir file (mode_or perm_ro DMDIR) "jira" "jira" VAllProjects
  else if String.eqb file "issues"
  then NewJiraDir file (mode_or perm_ro DMDIR) "jira" "jira" VAllIssues
  else if String.eqb file "structure"
  then ret (Some (FSynthetic
                    (SetContent (NewSyntheticFile file perm_ro "jira" "jira")
                                root_structure)))
  else if String.eqb file "help"
  then ret (Some (FSynthetic
                    (SetContent (NewSyntheticFile file perm_ro "jira" "jira") root_help)))
  else
    match searches_of jw !! file with
    | None => ret None
    | Some search => NewJiraDir file (mode_or perm_ro DMDIR) "jira" "jira" (VSearch search)
    end.

Definition JiraView_Remove (file : string) : ST (JiraView * World R) unit :=
  if String.eqb file "ctl" || String.eqb file "projects" || String.eqb file "issues"
     || String.eqb file "structure" || String.eqb file "help"
  then throw ErrPermissionDenied
  else
    let* jw := getV in
    putV {| jw_searches := Some (searches_of jw) |} ;;
    match searches_of jw !! file with
    | Some _ => putV {| jw_searches := Some (delete file (searches_of jw)) |}
    | None => throw ErrNoSuchFile
    end.

End Views.

(** ** Vocabulary of the statements *)

Section Vocabulary.
Context {R : Type} `{!Tracker R} `{!Externals}.

(** [PREFIX-NUMBER]: one hyphen, and a second component that parses. *)
Definition isIssueKeyForm (name : string) : Prop :=
  exists prefix number,
    name = prefix +:+ "-" +:+ number
    /\ ~ hasByte "-"%char prefix /\ ~ hasByte "-"%char number
    /\ is_Some (ParseUint number).

(** The remote state reached by applying transitions one after the other,
    each of them accepted by the tracker. *)
Inductive transitions_applied (key : string) : R -> list string -> R -> Prop :=
| ta_nil r : transitions_applied key r [] r
| ta_cons r s r' p r'' :
    TransitionIssue key s r = (Ok tt, r') ->
    transitions_applied key r' p r'' ->
    transitions_applied key r (s :: p) r''.

(** A field committed as one line: its buffer goes to [SetFieldInIssue]
    with every line break removed. *)
Definition singleLineField (file : string) : Prop :=
  forall issueNo project issue content (w : World R),
    normalWalk_onClose issueNo project issue file content w
    = call (CSetFieldInIssue (Key issue) file (removeAll nl content))
           (SetFieldInIssue (Key issue) file (removeAll nl content)) w.

(** The call that creates the link (inward, outward, relation). *)
Definition link_call (t : string * string * string) : Call :=
  let '(a, b, c) := t in CLinkIssues a b c.

(** The lines of a submitted text that count as new, in the order of the
    text: a line is new when it is not empty and either is no link's
    rendering or has stood in the text before. *)
Fixpoint unmatched_from (renders seen input : list string) : list string :=
  match input with
  | [] => []
  | s :: rest =>
      (if decide (s <> "" /\ (s ∉ renders \/ s ∈ seen)) then [s] else [])
      ++ unmatched_from renders (s :: seen) rest
  end.

Definition unmatched (renders input : list string) : list string :=
  unmatched_from renders [] input.

(** The files of [normalWalk] whose close-saver keeps earlier content. *)
Definition incrementalFields : list string :=
  ["summary"; "description"; "components"; "labels"; "links"].

(** The operations of the protocol layer on one issue view. *)
Inductive IssueOp :=
| OpWalk (file : string)
| OpCommit (args : list string)
| OpCloseDraft (file content : string).

Definition issue_step (op : IssueOp) (s : IssueView * World R) : IssueView * World R :=
  match op with
  | OpWalk file => snd (IssueView_Walk file s)
  | OpCommit args => snd (newWalk_commit args s)
  | OpCloseDraft file content => snd (newWalk_onClose file content s)
  end.

(** The operations of the protocol layer on the root view that do not
    create searches. *)
Inductive RootOp :=
| RootWalk (file : string)
| RootRemove (file : string).

Definition root_step (op : RootOp) (s : JiraView * World R) : JiraView * World R :=
  match op with
  | RootWalk file => snd (JiraView_Walk file s)
  | RootRemove file => snd (JiraView_Remove file s)
  end.

Definition reservedNames : list string :=
  ["ctl"; "projects"; "issues"; "help"; "structure"].
End Vocabulary.

(** ** A small in-memory tracker to run the views on *)

Module Toy.

Record State := {
  issues : gmap string Issue;
  rejected : list string }.       (* transitions the tracker refuses *)

(** Open --Start--> InProgress --Resolve--> Closed *)
Definition chain : WorkflowGraph :=
  <["Open" := [ {| transitionName := "Start"; targetStatus := "InProgress" |} ] ]>
  (<["InProgress" := [ {| transitionName := "Resolve"; targetStatus := "Closed" |} ] ]> ∅).

(** Two routes of equal length from A to D. *)
Definition diamond : WorkflowGraph :=
  <["A" := [ {| transitionName := "x"; targetStatus := "B" |};
             {| transitionName := "y"; targetStatus := "C" |} ] ]>
  (<["B" := [ {| transitionName := "z"; targetStatus := "D" |} ] ]>
  (<["C" := [ {| transitionName := "w"; targetStatus := "D" |} ] ]> ∅)).

Definition fields0 : IssueFields :=
  {| Assignee := Some "alice"; Reporter := None; Creator := None;
     Summary := "Crash on start"; Description := "It crashes.";
     Type_ID := "10"; Type_Name := "Bug"; Status := Some "Open";
     Priority := None; Resolution := None; Progress := None;
     Project_Key := "ABC"; Components := []; Labels := ["ui"];
     IssueLinks := [ {| link_ID := "7"; OutwardIssue := Some "ABC-2";
                        InwardIssue := None; link_TypeName := "Blocks" |} ] |}.

Definition with_status (f : IssueFields) (st : string) : IssueFields :=
  {| Assignee := Assignee f; Reporter := Reporter f; Creator := Creator f;
     Summary := Summary f; Description := Description f;
     Type_ID := Type_ID f; Type_Name := Type_Name f; Status := Some st;
     Priority := Priority f; Resolution := Resolution f; Progress := Progress f;
     Project_Key := Project_Key f; Components := Components f; Labels := Labels f;
     IssueLinks := IssueLinks f |}.

Definition issue1 : Issue := {| Key := "ABC-1"; Fields := Some fields0 |}.

Definition getIssue (key : string) (r : State) : Result Issue * State :=
  match issues r !! key with
  | Some i => (Ok i, r)
  | None => (Err (ErrRemote "issue does not exist"), r)
  end.

Definition createIssue (ty project summary description : string) (r : State)
  : Result string * State :=
  if String.eqb project "" || String.eqb ty ""
  then (Err (ErrRemote "project and issue type are required"), r)
  else
    let key := project +:+ "-9" in
    let f := {| Assignee := None; Reporter := None; Creator := None;
                Summary := summary; Description := description;
                Type_ID := "10"; Type_Name := ty; Status := Some "Open";
                Priority := None; Resolution := None; Progress := None;
                Project_Key := project; Components := []; Labels := [];
                IssueLinks := [] |} in
    (Ok key, {| issues := <[key := {| Key := key; Fields := Some f |}]> (issues r);
                rejected := rejected r |}).

Definition transitionIssue (key t : string) (r : State) : Result unit * State :=
  match issues r !! key with
  | Some {| Key := k; Fields := Some f |} =>
      match Status f with
      | Some st =>
          match List.find (fun e => String.eqb (transitionName e) t) (edgesOf chain st) with
          | Some e =>
              if bool_decide (t ∈ rejected r)
              then (Err (ErrRemote "transition refused"), r)
              else (Ok tt,
                    {| issues := <[key := {| Key := k;
                                             Fields := Some (with_status f (targetStatus e)) |}]>
                                   (issues r);
                       rejected := rejected r |})
          | None => (Err (ErrRemote "transition not available"), r)
          end
      | None => (Err (ErrRemote "no status"), r)
      end
  | _ => (Err (ErrRemote "issue does not exist"), r)
  end.

Definition ok {A} (a : A) (r : State) : Result A * State := (Ok a, r).

#[local] Instance tracker : Tracker State := {|
  GetIssue := getIssue;
  CreateIssue := createIssue;
  DeleteIssue := fun _ => ok tt;
  SetFieldInIssue := fun _ _ _ => ok tt;
  SetIssueRaw := fun _ _ => ok tt;
  GetTransitionsForIssue := fun _ => ok ["Start"];
  TransitionIssue := transitionIssue;
  LinkIssues := fun _ _ _ => ok tt;
  DeleteIssueLink := fun _ => ok tt;
  GetComment := fun _ _ =>
    ok {| cmt_Author := "bob"; cmt_Body := "Seen it too."; cmt_Updated := "";
          cmt_Created := "" |};
  SetComment := fun _ _ _ => ok tt;
  GetKeysForSearch := fun _ _ r => (Ok (map fst (map_to_list (issues r))), r);
  BuildWorkflow2 := fun _ _ => ok chain |}.

#[local] Instance externals : Externals := {|
  fmtProgress := fun _ _ _ => "";
  MarshalIndent := fun i => Ok (Key i);
  NewCloseSaver_forceTrunc := false;
  rangeOrder := map_to_list;
  rangeOrder_perm := fun m => reflexivity (map_to_list m);
  issues_help := ""; issues_structure := ""; root_help := ""; root_structure := "" |}.

Definition state0 : State := {| issues := {[ "ABC-1" := issue1 ]}; rejected := [] |}.
(** A few rows of the case table: the Latin-1 small letters, the long s
    and the dotless i; every other rune is its own upper case. *)
Definition upperCase (r : N) : N :=
  if (r =? 383)%N then 83%N
  else if (r =? 305)%N then 73%N
  else if inRange 224 254 r && negb (r =? 247)%N then (r - 32)%N
  else r.

#[local] Instance unicode : Unicode := {|
  To_UpperCase := upperCase;
  To_UpperCase_above := ltac:(
    intros r Hr; unfold upperCase, inRange;
    repeat match goal with
           | |- context [(?a =? ?b)%N] => destruct (N.eqb_spec a b)
           | |- context [(?a <=? ?b)%N] => destruct (N.leb_spec a b)
           end; cbn; lia) |}.

Definition state_refusing : State :=
  {| issues := {[ "ABC-1" := issue1 ]}; rejected := ["Resolve"] |}.

Definition world (r : State) : World State :=
  {| remote := r; calls := []; jc_user := ""; jc_pass := ""; jc_maxlisting := 50 |}.

Definition view1 : IssueView :=
  {| iw_project := "ABC"; iw_issueNo := "ABC-1"; iw_newIssue := false;
     iw_values := None |}.

Definition draft : IssueView :=
  {| iw_project := "ABC"; iw_issueNo := ""; iw_newIssue := true;
     iw_values := Some (<["type" := "Bug" +:+ NL]> (<["summary" := "Title" +:+ NL]> ∅)) |}.

End Toy.

(** ** The rest of the view hierarchy *)

Module GoStrconv.

(** [strconv.ParseInt(s, 10, 64)]: an optional sign, then [ParseUint]; the
    magnitude may reach 2^63 only behind a minus sign.  [None] stands for a
    non-nil error. *)
Definition cutoffInt64 : N := 9223372036854775808.

Definition ParseInt (s : string) : option Z :=
  match s with
  | "" => None
  | String c rest =>
      let neg := Ascii.eqb c "-"%char in
      let digits := if Ascii.eqb c "+"%char || neg then rest else s in
      match ParseUint digits with
      | None => None
      | Some un =>
          if negb neg && (cutoffInt64 <=? un)%N then None
          else if neg && (cutoffInt64 <? un)%N then None
          else Some (if neg then (- Z.of_N un)%Z else Z.of_N un)
      end
  end.

End GoStrconv.

Import GoStrconv.

Record Worklog := {
  wl_ID : string;
  wl_Comment : string;
  wl_Author : option string;          (* Author.Name; None when Author is nil *)
  wl_TimeSpentSeconds : Z;
  wl_Started : option Z }.            (* *Started, nil when absent *)

Record Project := {
  prj_Key : string;
  prj_Components : list string;       (* the components' names *)
  prj_IssueTypes : list string }.     (* the issue types' names *)

(** The remote operations of the views below, as recorded in the trace. *)
Inductive MoreCall :=
| MGetSpecificWorklogForIssue (issueNo worklog : string)
| MGetWorklogForIssue (issueNo : string)
| MAddComment (issueNo body : string)
| MRemoveComment (issueNo comment : string)
| MGetCommentsForIssue (issueNo : string)
| MGetProject (key : string)
| MGetProjects
| MGetKeysForNIssuesInProject (project : string) (limit : Z).

Class TrackerMore (R : Type) := {
  GetSpecificWorklogForIssue : string -> string -> R -> Result Worklog * R;
  GetWorklogForIssue : string -> R -> Result (list Worklog) * R;
  AddComment : string -> string -> R -> Result unit * R;
  RemoveComment : string -> string -> R -> Result unit * R;
  GetCommentsForIssue : string -> R -> Result (list string) * R;
  GetProject : string -> R -> Result Project * R;
  GetProjects : R -> Result (list Project) * R;
  GetKeysForNIssuesInProject : string -> Z -> R -> Result (list string) * R }.

(** What these views take from the Go runtime. *)
Class Runtime := {
  (** [time.Duration.String] of a number of seconds *)
  durationString : Z -> string;
  (** [time.Time.String] *)
  timeString : Z -> string;
  (** [json.MarshalIndent] of a project, tab-indented *)
  MarshalProject : Project -> Result string;
  (** the order in which [for k := range jw.searches] visits the names *)
  rangeSearches : gmap string SearchView -> list string;
  rangeSearches_perm : forall m, rangeSearches m ≡ₚ (map_to_list m).*1 }.

(** The client together with the trace of the operations above. *)
Record Session (R : Type) := {
  world : World R;
  more : list MoreCall }.
Arguments world {R} s.
Arguments more {R} s.

Definition with_remote {R} (w : World R) (r : R) : World R :=
  {| remote := r; calls := calls w; jc_user := jc_user w; jc_pass := jc_pass w;
     jc_maxlisting := jc_maxlisting w |}.

Definition callMore {R A} (c : MoreCall) (op : R -> Result A * R) : ST (Session R) A :=
  fun s => let '(x, r) := op (remote (world s)) in
           (x, {| world := with_remote (world s) r; more := more s ++ [c] |}).

(** Client code of the first part, run in a session. *)
Definition inWorld {R A} (m : ST (World R) A) : ST (Session R) A :=
  fun s => let '(x, w) := m (world s) in (x, {| world := w; more := more s |}).

(** A file of these views: one of the files above, or the close-saver whose
    commit adds a comment. *)
Inductive MoreFile :=
| Plain (f : File)
| FAddComment (sf : SyntheticFile) (forceTrunc : bool) (issueNo : string).

Definition more_perm (f : MoreFile) : FileMode :=
  match f with
  | Plain f => file_perm f
  | FAddComment sf _ _ => sf_perm sf
  end.

Section MoreViews.
Context {R : Type} `{!Tracker R} `{!Externals} `{!Unicode} `{!TrackerMore R} `{!Runtime}.

(** *** WorklogView *)

Definition WorklogView_Walk (issueNo worklog file : string)
  : ST (Session R) (option File) :=
  let* w := callMore (MGetSpecificWorklogForIssue issueNo worklog)
                     (GetSpecificWorklogForIssue issueNo worklog) in
  let sf := NewSyntheticFile file perm_ro "jira" "jira" in
  if String.eqb file "comment"
  then ret (Some (FSynthetic (SetContent sf (wl_Comment w +:+ NL))))
  else if String.eqb file "author"
  then match wl_Author w with
       | Some name => ret (Some (FSynthetic (SetContent sf (name +:+ NL))))
       | None => throw (ErrPanic "nil pointer dereference")
       end
  else if String.eqb file "time"
  then ret (Some (FSynthetic
                    (SetContent sf (durationString (wl_TimeSpentSeconds w) +:+ NL))))
  else if String.eqb file "started"
  then match wl_Started w with
       | Some t => ret (Some (FSynthetic (SetContent sf (timeString t +:+ NL))))
       | None => throw (ErrPanic "nil pointer dereference")
       end
  else ret None.

Definition WorklogView_List : list Stat :=
  StringsToStats ["comment"; "author"; "time"; "started"] perm_ro "jira" "jira".

(** *** IssueWorklogView *)

Definition IssueWorklogView_Walk (issueNo file : string)
  : ST (Session R) (option File) :=
  let* w := callMore (MGetWorklogForIssue issueNo) (GetWorklogForIssue issueNo) in
  if existsb (fun wr => String.eqb (wl_ID wr) file) w
  then NewJiraDir file (mode_or perm_ro DMDIR) "jira" "jira" (VWorklog issueNo file)
  else ret None.

Definition IssueWorklogView_List (issueNo : string) : ST (Session R) (list Stat) :=
  let* w := callMore (MGetWorklogForIssue issueNo) (GetWorklogForIssue issueNo) in
  ret (StringsToStats (map wl_ID w) (mode_or perm_ro DMDIR) "jira" "jira").

(** *** IssueCommentView *)

Definition IssueCommentView_Walk (issueNo file : string)
  : ST (Session R) (option MoreFile) :=
  if String.eqb file "comment"
  then ret (Some (FAddComment (NewSyntheticFile file perm_rw "jira" "jira")
                              NewCloseSaver_forceTrunc issueNo))
  else
    inWorld (call (CGetComment issueNo file) (GetComment issueNo file)) ;;
    ret (Some (Plain (FJiraDir file (mode_or perm_rw DMDIR) "jira" "jira"
                               (VComment issueNo file)))).

(** The commit callback of the list's [comment] file. *)
Definition IssueCommentView_onClose (issueNo : string) (content : string)
  : ST (Session R) unit :=
  callMore (MAddComment issueNo content) (AddComment issueNo content).

Definition IssueCommentView_List (issueNo : string) : ST (Session R) (list Stat) :=
  let* strs := callMore (MGetCommentsForIssue issueNo) (GetCommentsForIssue issueNo) in
  let a := StringsToStats strs (mode_or perm_rw DMDIR) "jira" "jira" in
  let b := StringsToStats ["comment"] perm_rw "jira" "jira" in
  ret (a ++ b).

Definition IssueCommentView_Remove (issueNo name : string) : ST (Session R) unit :=
  if String.eqb name "comment" then throw ErrPermissionDenied
  else callMore (MRemoveComment issueNo name) (RemoveComment issueNo name).

(** *** ProjectIssuesView, ProjectView, AllProjectsView *)

Definition ProjectIssuesView_List (project : string) : ST (Session R) (list Stat) :=
  let* s := get in
  let limit := jc_maxlisting (world s) in
  let* keys := callMore (MGetKeysForNIssuesInProject project limit)
                        (GetKeysForNIssuesInProject project limit) in
  let keys := keys ++ ["new"] in
  ret (StringsToStats keys (mode_or perm_ro DMDIR) "jira" "jira").

Definition ProjectView_Walk (project file : string) : ST (Session R) (option File) :=
  if String.eqb file "issues"
  then NewJiraDir file (mode_or perm_ro DMDIR) "jira" "jira" (VProjectIssues project)
  else if String.eqb file "components"
  then let* p := callMore (MGetProject project) (GetProject project) in
       ret (Some (FSynthetic (SetContent (NewSyntheticFile file perm_ro "jira" "jira")
                                         (lines (prj_Components p)))))
  else if String.eqb file "issuetypes"
  then let* p := callMore (MGetProject project) (GetProject project) in
       ret (Some (FSynthetic (SetContent (NewSyntheticFile file perm_ro "jira" "jira")
                                         (lines (prj_IssueTypes p)))))
  else if String.eqb file "raw"
  then let* p := callMore (MGetProject project) (GetProject project) in
       match MarshalProject p with
       | Ok b => ret (Some (FSynthetic
                              (SetContent (NewSyntheticFile file perm_ro "jira" "jira") b)))
       | Err e => throw e
       end
  else ret None.

Definition ProjectView_List : list Stat :=
  StringsToStats ["issues"; "issuetypes"; "components"; "raw"]
                 (mode_or perm_ro DMDIR) "jira" "jira".

Definition AllProjectsView_Walk (projectName : string) : ST (Session R) (option File) :=
  let projectName := ToUpper projectName in
  let* projects := callMore MGetProjects GetProjects in
  if existsb (fun p => String.eqb (prj_Key p) projectName) projects
  then NewJiraDir projectName (mode_or perm_ro DMDIR) "jira" "jira"
                  (VProject projectName)
  else ret None.

Definition AllProjectsView_List : ST (Session R) (list Stat) :=
  let* projects := callMore MGetProjects GetProjects in
  ret (StringsToStats (map prj_Key projects) (mode_or perm_ro DMDIR) "jira" "jira").

(** *** The root: its listing and the other two handlers of [ctl] *)

Definition JiraView_List : ST (JiraView * World R) (list Stat) :=
  let* jw := getV in
  putV {| jw_searches := Some (searches_of jw) |} ;;
  let strs := rangeSearches (searches_of jw) in
  let a := StringsToStats ["projects"; "issues"] (mode_or perm_ro DMDIR) "jira" "jira" in
  let b := StringsToStats ["ctl"] perm_rw "jira" "jira" in
  let c := StringsToStats ["help"; "structure"] perm_ro "jira" "jira" in
  let d := StringsToStats strs (mode_or perm_rw DMDIR) "jira" "jira" in
  ret (((a ++ b) ++ c) ++ d).

Definition set_login (w : World R) (user pass : string) : World R :=
  {| remote := remote w; calls := calls w; jc_user := user; jc_pass := pass;
     jc_maxlisting := jc_maxlisting w |}.

Definition set_maxlisting (w : World R) (n : Z) : World R :=
  {| remote := remote w; calls := calls w; jc_user := jc_user w; jc_pass := jc_pass w;
     jc_maxlisting := n |}.

(** The ["pass-login"] handler. *)
Definition JiraView_passLogin (args : list string) : ST (World R) unit :=
  match args with
  | [user; pass] => fun w => (Ok tt, set_login w user pass)
  | _ => ret tt
  end.

(** The ["set"] handler; [int(mi)] keeps the value, [int] being 64 bits wide. *)
Definition JiraView_set (args : list string) : ST (World R) unit :=
  match args with
  | [name; val] =>
      if String.eqb name "max-listing"
      then match ParseInt val with
           | None => throw (ErrorString "strconv.ParseInt")
           | Some mi => fun w => (Ok tt, set_maxlisting w mi)
           end
      else throw (ErrorString "unknown variable")
  | _ => throw (ErrorString "invalid arguments")
  end.

End MoreViews.

(** The operations of the first part on a small in-memory tracker, extended. *)
Module ToyMore.

Definition worklogs : list Worklog :=
  [ {| wl_ID := "100"; wl_Comment := "triage"; wl_Author := Some "alice";
       wl_TimeSpentSeconds := 5400; wl_Started := Some 0%Z |};
    {| wl_ID := "101"; wl_Comment := "fix"; wl_Author := Some "bob";
       wl_TimeSpentSeconds := 60; wl_Started := None |} ].

Definition projects : list Project :=
  [ {| prj_Key := "ABC"; prj_Components := ["core"; "ui"]; prj_IssueTypes := ["Bug"] |};
    {| prj_Key := "DEF"; prj_Components := []; prj_IssueTypes := ["Task"] |};
    {| prj_Key := "S"; prj_Components := []; prj_IssueTypes := ["Task"] |} ].

#[local] Instance tracker : TrackerMore Toy.State := {|
  GetSpecificWorklogForIssue := fun _ id r =>
    match List.find (fun w => String.eqb (wl_ID w) id) worklogs with
    | Some w => (Ok w, r)
    | None => (Err (ErrRemote "no such worklog"), r)
    end;
  GetWorklogForIssue := fun _ => Toy.ok worklogs;
  AddComment := fun _ _ => Toy.ok tt;
  RemoveComment := fun _ id r =>
    if String.eqb id "1" then (Ok tt, r) else (Err (ErrRemote "no such comment"), r);
  GetCommentsForIssue := fun _ => Toy.ok ["1"; "2"];
  GetProject := fun key r =>
    match List.find (fun p => String.eqb (prj_Key p) key) projects with
    | Some p => (Ok p, r)
    | None => (Err (ErrRemote "no such project"), r)
    end;
  GetProjects := Toy.ok projects;
  GetKeysForNIssuesInProject := fun project _ r =>
    (Ok (map fst (map_to_list (Toy.issues r))), r) |}.

#[local] Instance runtime : Runtime := {|
  durationString := fun _ => "1h30m0s";
  timeString := fun _ => "1970-01-01 00:00:00 +0000 UTC";
  MarshalProject := fun p => Ok (prj_Key p);
  rangeSearches := fun m => (map_to_list m).*1;
  rangeSearches_perm := fun m => reflexivity _ |}.

Definition session (r : Toy.State) : Session Toy.State :=
  {| world := Toy.world r; more := [] |}.

End ToyMore.

(** ** Vocabulary of the further statements *)

(** The tracker's value behind a single-line file of an issue. *)
Definition scalar_of (f : IssueFields) (file : string) : option string :=
  if String.eqb file "assignee" then Assignee f
  else if String.eqb file "reporter" then Reporter f
  else if String.eqb file "creator" then Creator f
  else if String.eqb file "summary" then Some (Summary f)
  else if String.eqb file "type" then Some (Type_Name f)
  else if String.eqb file "priority" then Priority f
  else if String.eqb file "resolution" then Resolution f
  else None.

(** The view after the four draft files have been closed with the given
    contents. *)
Definition drafted {R} `{!Tracker R} (s : IssueView * World R)
    (ty su de pr : string) : IssueView * World R :=
  snd (newWalk_onClose "project" pr
         (snd (newWalk_onClose "description" de
                 (snd (newWalk_onClose "summary" su
                         (snd (newWalk_onClose "type" ty s))))))).

Definition is_search_dir (f : File) : Prop :=
  match f with
  | FJiraDir _ _ _ _ (VSearch _) => True
  | _ => False
  end.

(** A directory entry owned by jira. *)
Definition entry (name : string) (mode : FileMode) : Stat :=
  {| st_Name := name; st_Mode := mode; st_UID := "jira"; st_GID := "jira" |}.

(** ** Facts about the string functions *)

Example Split_single_spaces :
  Split "a b  c" " "%char = ["a"; "b"; ""; "c"] /\ Split "" " "%char = [""].
Proof. split; reflexivity. Qed.

Example whitespaceFields_runs : whitespaceFields "a b  c" = ["a"; "b"; "c"].
Proof. reflexivity. Qed.

Example ParseUint_range :
  ParseUint "0123" = Some 123%N /\ ParseUint "" = None /\ ParseUint "+1" = None
  /\ ParseUint "18446744073709551615" = Some maxUint64
  /\ ParseUint "18446744073709551616" = None.
Proof. vm_compute. repeat split. Qed.

Example ToUpper_runs :
  @ToUpper Toy.unicode "abc-12x" = "ABC-12X"
  /\ @ToUpper Toy.unicode (String "197" (String "191" "")) = "S"
  /\ @ToUpper Toy.unicode (String "255" "-1")
     = String "239" (String "191" (String "189" "-1")).
Proof. vm_compute. repeat split. Qed.

Example modes_in_octal :
  perm_ro = 365%N /\ perm_rw = 511%N /\ octal 0 5 5 = 45%N.
Proof. repeat split. Qed.

Lemma upper_hyphen c : Ascii.eqb (upper c) "-"%char = Ascii.eqb c "-"%char.
Proof. destruct c as [[] [] [] [] [] [] [] []]; reflexivity. Qed.

Lemma digitOf_upper c : digitOf (upper c) = digitOf c.
Proof. destruct c as [[] [] [] [] [] [] [] []]; reflexivity. Qed.

Lemma Split_nonempty s sep : Split s sep <> [].
Proof.
  destruct s as [|c s]; simpl; [discriminate|].
  destruct (Ascii.eqb c sep); [discriminate|].
  destruct (Split s sep); discriminate.
Qed.

Lemma Join_Split s sep : Join (Split s sep) (String sep "") = s.
Proof.
  induction s as [|c s IH]; simpl; [reflexivity|].
  destruct (Ascii.eqb_spec c sep) as [->|Hne].
  - pose proof (Split_nonempty s sep) as Hn.
    destruct (Split s sep) as [|h t]; [congruence|].
    simpl in *. now rewrite IH.
  - pose proof (Split_nonempty s sep) as Hn.
    destruct (Split s sep) as [|h t]; [congruence|].
    destruct t; simpl in *; now rewrite <- IH.
Qed.

Lemma Split_free s sep : Forall (fun x => ~ hasByte sep x) (Split s sep).
Proof.
  unfold hasByte. induction s as [|c s IH]; simpl.
  - constructor; [|constructor]. simpl. intros H. inversion H.
  - destruct (Ascii.eqb_spec c sep) as [->|Hne].
    + constructor; [|exact IH]. simpl. intros H. inversion H.
    + destruct (Split s sep) as [|h t]; simpl.
      * constructor; [|constructor]. simpl. intros H.
        apply elem_of_cons in H as [H|H]; [congruence|inversion H].
      * inversion IH; subst. constructor; [|assumption].
        simpl. intros H. apply elem_of_cons in H as [H|H]; [congruence|tauto].
Qed.

Lemma parseLoop_digits s n c :
  hasByte c s -> digitOf c = None -> parseLoop s n = None.
Proof.
  unfold hasByte. revert n. induction s as [|d s IH]; intros n Hin Hd; simpl in *.
  - inversion Hin.
  - apply elem_of_cons in Hin as [<-|Hin].
    + now rewrite Hd.
    + destruct (digitOf d); [|reflexivity].
      destruct (cutoff10 <=? n)%N; [reflexivity|].
      destruct (maxUint64 <? n * 10 + n0)%N; [reflexivity|]. now apply IH.
Qed.

Lemma ParseUint_not_number s :
  s = "" \/ (exists c, hasByte c s /\ digitOf c = None) -> ParseUint s = None.
Proof.
  intros [->|(c & Hin & Hd)]; [reflexivity|].
  destruct s as [|d s]; [reflexivity|].
  change (parseLoop (String d s) 0 = None). eapply parseLoop_digits; eauto.
Qed.

Lemma append_cons c (a b : string) : String c a +:+ b = String c (a +:+ b).
Proof. reflexivity. Qed.

Lemma append_nil_l (b : string) : "" +:+ b = b.
Proof. reflexivity. Qed.

Lemma Split_app_sep x sep rest :
  ~ hasByte sep x -> Split (x +:+ String sep rest) sep = x :: Split rest sep.
Proof.
  unfold hasByte. induction x as [|c x IH];
    rewrite ?append_cons, ?append_nil_l; simpl; intros Hx.
  - now rewrite Ascii.eqb_refl.
  - destruct (Ascii.eqb_spec c sep) as [->|Hne].
    + exfalso. apply Hx. apply elem_of_cons. now left.
    + rewrite IH; [reflexivity|]. intros Hin. apply Hx. apply elem_of_cons. now right.
Qed.

Lemma Split_plain x sep : ~ hasByte sep x -> Split x sep = [x].
Proof.
  unfold hasByte. induction x as [|c x IH]; simpl; intros Hx; [reflexivity|].
  destruct (Ascii.eqb_spec c sep) as [->|Hne].
  - exfalso. apply Hx. apply elem_of_cons. now left.
  - rewrite IH; [reflexivity|]. intros Hin. apply Hx. apply elem_of_cons. now right.
Qed.

Lemma append_assoc (a b c : string) : (a +:+ b) +:+ c = a +:+ (b +:+ c).
Proof.
  induction a as [|x a IH]; [reflexivity|]. rewrite !append_cons. f_equal. exact IH.
Qed.

Lemma append_nil_r (a : string) : a +:+ "" = a.
Proof.
  induction a as [|x a IH]; [reflexivity|]. rewrite append_cons. f_equal. exact IH.
Qed.

(** *** Upper case

    [ToUpper] goes through the runes of its argument.  What the views need
    of it is that hyphens and decimal digits are neither made nor lost:
    [Split_ToUpper] and [ParseUint_ToUpper]. *)

Lemma append_length (a b : string) :
  String.length (a +:+ b) = String.length a + String.length b.
Proof. induction a as [|x a IH]; [reflexivity|]. rewrite append_cons. simpl. now rewrite IH. Qed.

Lemma first_bounds s0 sz lo hi :
  first s0 = Some (sz, lo, hi) ->
  (128 <= lo)%N /\ (hi <= 191)%N /\ (194 <= s0 <= 244)%N
  /\ (sz = 2 /\ 194 <= s0 <= 223
      \/ sz = 3 /\ 224 <= s0 <= 239 /\ (s0 = 224 -> 160 <= lo)
      \/ sz = 4 /\ 240 <= s0 <= 244 /\ (s0 = 240 -> 144 <= lo))%N.
Proof.
  unfold first, inRange.
  repeat match goal with
         | |- context [(?a =? ?b)%N] => destruct (N.eqb_spec a b)
         | |- context [(?a <=? ?b)%N] => destruct (N.leb_spec a b)
         end; cbn; intros [= <- <- <-] || discriminate; lia.
Qed.

Lemma lor_ge_l a b n : (2 ^ n <= a)%N -> (2 ^ n <= N.lor a b)%N.
Proof.
  intros H.
  assert (0 < a)%N by (pose proof (N.pow_nonzero 2%N n); lia).
  apply N.log2_le_pow2 in H; [|assumption].
  apply N.log2_le_pow2.
  - destruct (N.eq_dec (N.lor a b) 0%N) as [E|E]; [|lia].
    apply N.lor_eq_0_l in E. lia.
  - rewrite N.log2_lor. lia.
Qed.

Lemma lor_ge_r a b n : (2 ^ n <= b)%N -> (2 ^ n <= N.lor a b)%N.
Proof. rewrite N.lor_comm. apply lor_ge_l. Qed.

Lemma lor_lt a b n : (a < 2 ^ n)%N -> (b < 2 ^ n)%N -> (N.lor a b < 2 ^ n)%N.
Proof.
  intros Ha Hb.
  destruct (N.eq_dec (N.lor a b) 0%N) as [E|E].
  { rewrite E. pose proof (N.pow_nonzero 2%N n). lia. }
  apply N.log2_lt_pow2; [lia|]. rewrite N.log2_lor.
  destruct (N.eq_dec a 0%N) as [->|Ha0]; destruct (N.eq_dec b 0%N) as [->|Hb0].
  - now rewrite N.lor_0_l in E.
  - rewrite N.log2_nonpos by lia. rewrite N.max_r by lia. apply N.log2_lt_pow2; lia.
  - rewrite (N.log2_nonpos 0%N) by lia. rewrite N.max_l by lia. apply N.log2_lt_pow2; lia.
  - apply N.max_lub_lt; apply N.log2_lt_pow2; lia.
Qed.

Lemma maskx_lt b : (maskx b < 64)%N.
Proof.
  unfold maskx. change 63%N with (N.ones 6). rewrite N.land_ones.
  apply N.mod_lt. discriminate.
Qed.

Lemma runes_unfold c0 t1 :
  runes (String c0 t1)
  = let s0 := N_of_ascii c0 in
    if (s0 <? 128)%N then s0 :: runes t1
    else
      match first s0, t1 with
      | Some (sz, lo, hi), String c1 t2 =>
          let s1 := N_of_ascii c1 in
          if negb (inRange lo hi s1) then RuneError :: runes t1
          else if (sz <=? 2)%N
          then N.lor (N.shiftl (N.land s0 31) 6) (maskx s1) :: runes t2
          else
            match t2 with
            | String c2 t3 =>
                let s2 := N_of_ascii c2 in
                if negb (inRange 128 191 s2) then RuneError :: runes t1
                else if (sz <=? 3)%N
                then N.lor (N.lor (N.shiftl (N.land s0 15) 12)
                                  (N.shiftl (maskx s1) 6))
                           (maskx s2) :: runes t3
                else
                  match t3 with
                  | String c3 t4 =>
                      let s3 := N_of_ascii c3 in
                      if negb (inRange 128 191 s3) then RuneError :: runes t1
                      else N.lor (N.lor (N.lor (N.shiftl (N.land s0 7) 18)
                                               (N.shiftl (maskx s1) 12))
                                        (N.shiftl (maskx s2) 6))
                                 (maskx s3) :: runes t4
                  | "" => RuneError :: runes t1
                  end
            | "" => RuneError :: runes t1
            end
      | _, _ => RuneError :: runes t1
      end.
Proof. reflexivity. Qed.

Lemma runes_ascii c s :
  (N_of_ascii c < 128)%N -> runes (String c s) = N_of_ascii c :: runes s.
Proof.
  intros H. rewrite runes_unfold. cbv zeta.
  now rewrite (proj2 (N.ltb_lt _ _) H).
Qed.

Lemma inRange_boundary lo hi a :
  (128 <= lo)%N -> (N_of_ascii a < 128)%N -> inRange lo hi (N_of_ascii a) = false.
Proof.
  intros Hlo Ha. unfold inRange. rewrite (proj2 (N.leb_gt _ _)) by lia. reflexivity.
Qed.

Lemma inRange_spec lo hi b : inRange lo hi b = true <-> (lo <= b <= hi)%N.
Proof. unfold inRange. rewrite andb_true_iff, !N.leb_le. tauto. Qed.

Lemma mod_in q k a : (q * k <= a < q * k + k)%N -> (a mod k = a - q * k)%N.
Proof. intros H. symmetry. apply (N.mod_unique a k q); lia. Qed.

Lemma rune2_high s0 s1 :
  (194 <= s0 <= 223)%N -> (128 <= N.lor (N.shiftl (N.land s0 31) 6) (maskx s1))%N.
Proof.
  intros H. apply (lor_ge_l _ _ 7). rewrite N.shiftl_mul_pow2.
  change 31%N with (N.ones 5). rewrite N.land_ones.
  change (2 ^ 5)%N with 32%N. change (2 ^ 6)%N with 64%N. change (2 ^ 7)%N with 128%N.
  rewrite (mod_in 6) by lia. lia.
Qed.

Lemma rune3_high s0 s1 s2 lo :
  (224 <= s0 <= 239)%N -> (s0 = 224 -> 160 <= lo)%N -> (lo <= s1 <= 191)%N ->
  (128 <= N.lor (N.lor (N.shiftl (N.land s0 15) 12) (N.shiftl (maskx s1) 6))
                (maskx s2))%N.
Proof.
  intros H Hlo Hs1. apply (lor_ge_l _ _ 7).
  destruct (N.eq_dec s0 224%N) as [->|Hne].
  - apply lor_ge_r. unfold maskx. rewrite N.shiftl_mul_pow2.
    change 63%N with (N.ones 6). rewrite N.land_ones.
    change (2 ^ 6)%N with 64%N. change (2 ^ 7)%N with 128%N.
    specialize (Hlo eq_refl). rewrite (mod_in 2) by lia. lia.
  - apply lor_ge_l. rewrite N.shiftl_mul_pow2.
    change 15%N with (N.ones 4). rewrite N.land_ones.
    change (2 ^ 4)%N with 16%N. change (2 ^ 12)%N with 4096%N. change (2 ^ 7)%N with 128%N.
    rewrite (mod_in 14) by lia. lia.
Qed.

Lemma rune4_high s0 s1 s2 s3 lo :
  (240 <= s0 <= 244)%N -> (s0 = 240 -> 144 <= lo)%N -> (lo <= s1 <= 191)%N ->
  (128 <= N.lor (N.lor (N.lor (N.shiftl (N.land s0 7) 18) (N.shiftl (maskx s1) 12))
                       (N.shiftl (maskx s2) 6))
                (maskx s3))%N.
Proof.
  intros H Hlo Hs1. do 2 apply (lor_ge_l _ _ 7).
  destruct (N.eq_dec s0 240%N) as [->|Hne].
  - apply lor_ge_r. unfold maskx. rewrite N.shiftl_mul_pow2.
    change 63%N with (N.ones 6). rewrite N.land_ones.
    change (2 ^ 6)%N with 64%N. change (2 ^ 12)%N with 4096%N. change (2 ^ 7)%N with 128%N.
    specialize (Hlo eq_refl). rewrite (mod_in 2) by lia. lia.
  - apply lor_ge_l. rewrite N.shiftl_mul_pow2. change (2 ^ 7)%N with 128%N.
    change 7%N with (N.ones 3). rewrite N.land_ones.
    change (2 ^ 3)%N with 8%N. change (2 ^ 18)%N with 262144%N.
    rewrite (mod_in 30) by lia. lia.
Qed.

(** One step of the decoder at a byte that is not ASCII: a rune above
    MaxASCII, and a rest that does not depend on what follows a boundary. *)
Lemma runes_high c s :
  (128 <= N_of_ascii c)%N ->
  exists r pre rest,
    s = pre +:+ rest /\ (128 <= r)%N
    /\ forall t, boundary t -> runes (String c (s +:+ t)) = r :: runes (rest +:+ t).
Proof.
  intros Hc.
  assert (Hlt : (N_of_ascii c <? 128)%N = false) by (apply N.ltb_ge; lia).
  assert (Hfail : forall s', s' = s ->
            (forall t, boundary t ->
                       runes (String c (s' +:+ t)) = RuneError :: runes (s' +:+ t)) ->
            exists r pre rest,
              s = pre +:+ rest /\ (128 <= r)%N
              /\ forall t, boundary t ->
                           runes (String c (s +:+ t)) = r :: runes (rest +:+ t)).
  { intros s' -> H. exists RuneError, "", s.
    split; [reflexivity|]. split; [unfold RuneError; lia|exact H]. }
  destruct (first (N_of_ascii c)) as [[[sz lo] hi]|] eqn:Hfirst.
  2:{ apply (Hfail s eq_refl). intros t _. rewrite runes_unfold. cbv zeta.
      rewrite Hlt, Hfirst. reflexivity. }
  destruct (first_bounds _ _ _ _ Hfirst) as (Hlo & Hhi & Hs0 & Hsz).
  destruct s as [|c1 s1].
  { apply (Hfail "" eq_refl). intros t Ht. rewrite append_nil_l.
    rewrite runes_unfold. cbv zeta. rewrite Hlt, Hfirst.
    destruct t as [|a t']; [reflexivity|]. simpl in Ht.
    now rewrite (inRange_boundary lo hi a Hlo Ht). }
  destruct (inRange lo hi (N_of_ascii c1)) eqn:Hr1.
  2:{ apply (Hfail _ eq_refl). intros t _. rewrite append_cons.
      rewrite runes_unfold at 1. cbv zeta. rewrite Hlt, Hfirst, Hr1. reflexivity. }
  apply inRange_spec in Hr1 as Hb1.
  destruct (sz <=? 2)%N eqn:Hsz2.
  { exists (N.lor (N.shiftl (N.land (N_of_ascii c) 31) 6) (maskx (N_of_ascii c1))),
      (String c1 ""), s1.
    split; [reflexivity|]. split.
    - apply rune2_high. apply N.leb_le in Hsz2. lia.
    - intros t _. rewrite append_cons. rewrite runes_unfold at 1. cbv zeta.
      rewrite Hlt, Hfirst, Hr1, Hsz2. reflexivity. }
  apply N.leb_gt in Hsz2 as Hsz2'.
  destruct s1 as [|c2 s2].
  { apply (Hfail _ eq_refl). intros t Ht. rewrite append_cons, append_nil_l.
    rewrite runes_unfold at 1. cbv zeta. rewrite Hlt, Hfirst, Hr1, Hsz2.
    destruct t as [|a t']; [reflexivity|]. simpl in Ht.
    now rewrite (inRange_boundary 128 191 a) by (lia || exact Ht). }
  destruct (inRange 128 191 (N_of_ascii c2)) eqn:Hr2.
  2:{ apply (Hfail _ eq_refl). intros t _. rewrite !append_cons.
      rewrite runes_unfold at 1. cbv zeta. rewrite Hlt, Hfirst, Hr1, Hsz2, Hr2.
      reflexivity. }
  destruct (sz <=? 3)%N eqn:Hsz3.
  { exists (N.lor (N.lor (N.shiftl (N.land (N_of_ascii c) 15) 12)
                          (N.shiftl (maskx (N_of_ascii c1)) 6))
                   (maskx (N_of_ascii c2))),
      (String c1 (String c2 "")), s2.
    split; [reflexivity|]. split.
    - apply (rune3_high _ _ _ lo); [|intros E; lia|lia].
      apply N.leb_le in Hsz3. lia.
    - intros t _. rewrite !append_cons. rewrite runes_unfold at 1. cbv zeta.
      rewrite Hlt, Hfirst, Hr1, Hsz2, Hr2, Hsz3. reflexivity. }
  apply N.leb_gt in Hsz3 as Hsz3'.
  destruct s2 as [|c3 s3].
  { apply (Hfail _ eq_refl). intros t Ht. rewrite !append_cons, append_nil_l.
    rewrite runes_unfold at 1. cbv zeta. rewrite Hlt, Hfirst, Hr1, Hsz2, Hr2, Hsz3.
    destruct t as [|a t']; [reflexivity|]. simpl in Ht.
    now rewrite (inRange_boundary 128 191 a) by (lia || exact Ht). }
  destruct (inRange 128 191 (N_of_ascii c3)) eqn:Hr3.
  2:{ apply (Hfail _ eq_refl). intros t _. rewrite !append_cons.
      rewrite runes_unfold at 1. cbv zeta. rewrite Hlt, Hfirst, Hr1, Hsz2, Hr2, Hsz3, Hr3.
      reflexivity. }
  exists (N.lor (N.lor (N.lor (N.shiftl (N.land (N_of_ascii c) 7) 18)
                              (N.shiftl (maskx (N_of_ascii c1)) 12))
                       (N.shiftl (maskx (N_of_ascii c2)) 6))
                (maskx (N_of_ascii c3))),
    (String c1 (String c2 (String c3 ""))), s3.
  split; [reflexivity|]. split.
  - apply (rune4_high _ _ _ _ lo); [lia|intros E; lia|lia].
  - intros t _. rewrite !append_cons. rewrite runes_unfold at 1. cbv zeta.
    rewrite Hlt, Hfirst, Hr1, Hsz2, Hr2, Hsz3, Hr3. reflexivity.
Qed.

Lemma byte_high t x :
  (128 <= t < 256)%N -> (x < 256)%N -> (128 <= N_of_ascii (byte (N.lor t x)))%N.
Proof.
  intros Ht Hx. unfold byte. rewrite N_ascii_embedding.
  - apply (lor_ge_l _ _ 7). change (2 ^ 7)%N with 128%N. lia.
  - apply (lor_lt _ _ 8); change (2 ^ 8)%N with 256%N; lia.
Qed.

Lemma shiftr_lt r k b : (r < b * 2 ^ k)%N -> (N.shiftr r k < b)%N.
Proof.
  intros H. rewrite N.shiftr_div_pow2.
  apply N.Div0.div_lt_upper_bound. lia.
Qed.

Lemma maskx_byte b : (maskx b < 256)%N.
Proof. pose proof (maskx_lt b). lia. Qed.

Lemma AppendRune_high r :
  (128 <= r)%N ->
  exists y rest,
    AppendRune r = String y rest
    /\ Forall (fun y => (128 <= N_of_ascii y)%N) (y :: list_ascii_of_string rest).
Proof.
  intros Hr. unfold AppendRune.
  rewrite (proj2 (N.leb_gt _ _)) by lia.
  destruct (N.leb_spec r 2047) as [H2|H2].
  { do 2 eexists. split; [reflexivity|]. simpl.
    repeat first [apply Forall_nil_2 | apply Forall_cons_2];
      apply byte_high; try lia; try apply maskx_byte.
    apply shiftr_lt. change (2 ^ 6)%N with 64%N. lia. }
  destruct ((MaxRune <? r)%N || inRange 55296 57343 r) eqn:Hbad.
  { do 2 eexists. split; [reflexivity|].
    repeat first [apply Forall_nil_2 | apply Forall_cons_2]; vm_compute; discriminate. }
  apply orb_false_iff in Hbad as [Hmax _]. apply N.ltb_ge in Hmax. unfold MaxRune in Hmax.
  destruct (N.leb_spec r 65535) as [H3|H3].
  { do 2 eexists. split; [reflexivity|]. simpl.
    repeat first [apply Forall_nil_2 | apply Forall_cons_2];
      apply byte_high; try lia; try apply maskx_byte.
    apply shiftr_lt. change (2 ^ 12)%N with 4096%N. lia. }
  do 2 eexists. split; [reflexivity|]. simpl.
  repeat first [apply Forall_nil_2 | apply Forall_cons_2];
      apply byte_high; try lia; try apply maskx_byte.
  apply shiftr_lt. change (2 ^ 18)%N with 262144%N. lia.
Qed.

Section Upper.
Context {unicode : Unicode}.

Lemma ToUpper_cons_rune r rs :
  fold_right (fun r out => AppendRune (unicode_ToUpper r) +:+ out) "" (r :: rs)
  = AppendRune (unicode_ToUpper r)
    +:+ fold_right (fun r out => AppendRune (unicode_ToUpper r) +:+ out) "" rs.
Proof. reflexivity. Qed.

Lemma ToUpper_ascii c s :
  (N_of_ascii c < 128)%N -> ToUpper (String c s) = String (upper c) (ToUpper s).
Proof.
  intros Hc. unfold ToUpper, Map. rewrite runes_ascii by exact Hc.
  rewrite ToUpper_cons_rune.
  replace (AppendRune (unicode_ToUpper (N_of_ascii c))) with (String (upper c) "");
    [reflexivity|].
  unfold unicode_ToUpper, upper, AppendRune, byte. cbv zeta.
  rewrite (proj2 (N.leb_le (N_of_ascii c) 127)) by lia.
  destruct ((97 <=? N_of_ascii c)%N && (N_of_ascii c <=? 122)%N) eqn:Hlow.
  - rewrite (proj2 (N.leb_le (N_of_ascii c - 32) 127)) by lia. reflexivity.
  - rewrite (proj2 (N.leb_le (N_of_ascii c) 127)) by lia.
    now rewrite ascii_N_embedding.
Qed.

Lemma ToUpper_high c s :
  (128 <= N_of_ascii c)%N ->
  exists y o pre rest,
    highOrCapital y /\ Forall highOrCapital (list_ascii_of_string o)
    /\ s = pre +:+ rest
    /\ forall t, boundary t ->
                 ToUpper (String c (s +:+ t)) = String y o +:+ ToUpper (rest +:+ t).
Proof.
  intros Hc. destruct (runes_high c s Hc) as (r & pre & rest & Hs & Hr & Hrun).
  assert (Hout : exists y o, AppendRune (unicode_ToUpper r) = String y o
                             /\ Forall highOrCapital (y :: list_ascii_of_string o)).
  { unfold unicode_ToUpper. rewrite (proj2 (N.leb_gt _ _)) by lia.
    destruct (To_UpperCase_above r Hr) as [Hh|Hcap].
    - destruct (AppendRune_high _ Hh) as (y & o & Ho & Hall). exists y, o.
      split; [exact Ho|]. eapply Forall_impl; [exact Hall|]. intros x Hx. now left.
    - exists (byte (To_UpperCase r)), "". unfold AppendRune.
      rewrite (proj2 (N.leb_le _ _)) by lia. split; [reflexivity|].
      constructor; [|constructor]. right. unfold byte.
      rewrite N_ascii_embedding by lia. exact Hcap. }
  destruct Hout as (y & o & Ho & Hall). apply Forall_cons in Hall as [Hy Hall].
  exists y, o, pre, rest. split; [exact Hy|]. split; [exact Hall|]. split; [exact Hs|].
  intros t Ht. unfold ToUpper, Map. rewrite (Hrun t Ht), ToUpper_cons_rune, Ho.
  reflexivity.
Qed.

Lemma ToUpper_app s : forall t,
  boundary t -> ToUpper (s +:+ t) = ToUpper s +:+ ToUpper t.
Proof.
  remember (String.length s) as n eqn:Hn. revert s Hn.
  induction n as [n IH] using lt_wf_ind. intros s Hn t Ht.
  destruct s as [|c s]; [reflexivity|]. rewrite append_cons.
  destruct (N.lt_ge_cases (N_of_ascii c) 128) as [Hc|Hc].
  - rewrite !ToUpper_ascii by exact Hc. rewrite append_cons. f_equal.
    apply (IH (String.length s)); [simpl in Hn; lia|reflexivity|exact Ht].
  - destruct (ToUpper_high c s Hc) as (y & o & pre & rest & _ & _ & Hs & Hrun).
    rewrite (Hrun t Ht).
    pose proof (Hrun "" I) as H0. rewrite !append_nil_r in H0. rewrite H0.
    rewrite append_assoc. f_equal.
    apply (IH (String.length rest)); [|reflexivity|exact Ht].
    rewrite Hs in Hn. simpl in Hn. rewrite append_length in Hn. lia.
Qed.

Lemma bytes_app (a b : string) :
  list_ascii_of_string (a +:+ b) = list_ascii_of_string a ++ list_ascii_of_string b.
Proof. induction a as [|x a IH]; [reflexivity|]. rewrite append_cons. simpl. now rewrite IH. Qed.

Lemma upper_low c :
  (N_of_ascii c < 128)%N -> highOrCapital (upper c) \/ upper c = c.
Proof.
  intros Hc. unfold upper. cbv zeta.
  destruct ((97 <=? N_of_ascii c)%N && (N_of_ascii c <=? 122)%N) eqn:Hlow; [|now right].
  apply andb_true_iff in Hlow as [H1 H2]. apply N.leb_le in H1, H2.
  left. right. rewrite N_ascii_embedding by lia. lia.
Qed.

(** Every byte of the result is above MaxASCII, an ASCII capital, or a byte
    of the argument. *)
Lemma ToUpper_bytes s : forall y,
  hasByte y (ToUpper s) -> highOrCapital y \/ hasByte y s.
Proof.
  unfold hasByte.
  remember (String.length s) as n eqn:Hn. revert s Hn.
  induction n as [n IH] using lt_wf_ind. intros s Hn y Hy.
  destruct s as [|c s]; [inversion Hy|].
  destruct (N.lt_ge_cases (N_of_ascii c) 128) as [Hc|Hc].
  - rewrite ToUpper_ascii in Hy by exact Hc. simpl in Hy.
    apply elem_of_cons in Hy as [->|Hy].
    + destruct (upper_low c Hc) as [H|H]; [now left|].
      right. rewrite H. simpl. apply elem_of_cons. now left.
    + apply (IH (String.length s)) in Hy as [H|H]; [now left| |simpl in Hn; lia|reflexivity].
      right. simpl. apply elem_of_cons. now right.
  - destruct (ToUpper_high c s Hc) as (y0 & o & pre & rest & Hy0 & Ho & Hs & Hrun).
    pose proof (Hrun "" I) as H0. rewrite !append_nil_r in H0. rewrite H0 in Hy.
    rewrite append_cons in Hy. simpl in Hy. apply elem_of_cons in Hy as [->|Hy]; [now left|].
    rewrite bytes_app in Hy. apply elem_of_app in Hy as [Hy|Hy].
    + left. rewrite Forall_forall in Ho. now apply Ho.
    + apply (IH (String.length rest)) in Hy as [H|H]; [now left| | |reflexivity].
      * right. simpl. apply elem_of_cons. right. rewrite Hs, bytes_app.
        apply elem_of_app. now right.
      * rewrite Hs in Hn. simpl in Hn. rewrite append_length in Hn. lia.
Qed.

(** A result without bytes above MaxASCII and without capitals is the
    argument itself. *)
Lemma ToUpper_fixed s :
  Forall (fun y => ~ highOrCapital y) (list_ascii_of_string (ToUpper s)) ->
  ToUpper s = s.
Proof.
  induction s as [|c s IH]; intros H; [reflexivity|].
  destruct (N.lt_ge_cases (N_of_ascii c) 128) as [Hc|Hc].
  - rewrite ToUpper_ascii in * by exact Hc. simpl in H.
    apply Forall_cons in H as [Hh Ht].
    destruct (upper_low c Hc) as [Hu|Hu]; [contradiction|].
    rewrite Hu. f_equal. now apply IH.
  - destruct (ToUpper_high c s Hc) as (y0 & o & pre & rest & Hy0 & _ & _ & Hrun).
    pose proof (Hrun "" I) as H0. rewrite !append_nil_r in H0. rewrite H0 in H.
    rewrite append_cons in H. simpl in H. apply Forall_cons in H as [Hh _]. contradiction.
Qed.

Lemma digit_plain c : digitOf c <> None -> ~ highOrCapital c.
Proof.
  unfold digitOf, highOrCapital. cbv zeta.
  destruct ((48 <=? N_of_ascii c)%N && (N_of_ascii c <=? 57)%N) eqn:Hd; [|congruence].
  apply andb_true_iff in Hd as [H1 H2]. apply N.leb_le in H1, H2. lia.
Qed.

Lemma digit_upper c : digitOf c <> None -> (N_of_ascii c < 128)%N /\ upper c = c.
Proof.
  unfold digitOf, upper. cbv zeta.
  destruct ((48 <=? N_of_ascii c)%N && (N_of_ascii c <=? 57)%N) eqn:Hd; [|congruence].
  apply andb_true_iff in Hd as [H1 H2]. apply N.leb_le in H1, H2. intros _.
  split; [lia|].
  now rewrite (proj2 (andb_false_iff _ _)) by (left; apply N.leb_gt; lia).
Qed.

Lemma ToUpper_digits s :
  Forall (fun c => digitOf c <> None) (list_ascii_of_string s) -> ToUpper s = s.
Proof.
  induction s as [|c s IH]; intros H; [reflexivity|]. simpl in H.
  apply Forall_cons in H as [Hc Hs]. destruct (digit_upper c Hc) as [Hlow Hup].
  rewrite ToUpper_ascii by exact Hlow. rewrite Hup. f_equal. now apply IH.
Qed.

Lemma ParseUint_digits s :
  ~ Forall (fun c => digitOf c <> None) (list_ascii_of_string s) -> ParseUint s = None.
Proof.
  intros H. apply ParseUint_not_number. right.
  apply not_Forall_Exists in H; [|intros c; apply _].
  apply Exists_exists in H as (c & Hin & Hd). exists c. split; [exact Hin|].
  simpl in Hd. destruct (digitOf c); [exfalso; apply Hd; discriminate|reflexivity].
Qed.

Lemma ParseUint_ToUpper s : ParseUint (ToUpper s) = ParseUint s.
Proof.
  destruct (decide (Forall (fun c => digitOf c <> None)
                      (list_ascii_of_string (ToUpper s)))) as [Hall|Hnot].
  - rewrite ToUpper_fixed; [reflexivity|].
    eapply Forall_impl; [exact Hall|]. intros c. apply digit_plain.
  - rewrite (ParseUint_digits _ Hnot). symmetry. apply ParseUint_digits.
    intros Hs. apply Hnot. now rewrite ToUpper_digits.
Qed.

Lemma ToUpper_free s : ~ hasByte "-"%char s -> ~ hasByte "-"%char (ToUpper s).
Proof.
  intros Hs Hy. apply ToUpper_bytes in Hy as [[H|H]|H]; [| |contradiction];
    vm_compute in H; [now apply H|]. destruct H as [H _]. now apply H.
Qed.

Lemma ToUpper_hyphen p rest :
  ToUpper (p +:+ String "-"%char rest) = ToUpper p +:+ String "-"%char (ToUpper rest).
Proof.
  rewrite ToUpper_app by (vm_compute; reflexivity).
  now rewrite ToUpper_ascii by (vm_compute; reflexivity).
Qed.

Lemma Split_ToUpper_pieces l :
  l <> [] -> Forall (fun x => ~ hasByte "-"%char x) l ->
  Split (ToUpper (Join l "-")) "-"%char = map ToUpper l.
Proof.
  induction l as [|p l IH]; intros Hne Hfree; [congruence|].
  apply Forall_cons in Hfree as [Hp Hl].
  destruct l as [|q l].
  - simpl. apply Split_plain. now apply ToUpper_free.
  - change (Join (p :: q :: l) "-") with (p +:+ "-" +:+ Join (q :: l) "-").
    change ("-" +:+ Join (q :: l) "-") with (String "-"%char (Join (q :: l) "-")).
    rewrite ToUpper_hyphen, Split_app_sep by now apply ToUpper_free.
    rewrite IH by (congruence || assumption). reflexivity.
Qed.

Lemma Split_ToUpper s :
  Split (ToUpper s) "-"%char = map ToUpper (Split s "-"%char).
Proof.
  rewrite <- (Join_Split s "-"%char) at 1.
  apply Split_ToUpper_pieces; [apply Split_nonempty|apply Split_free].
Qed.

End Upper.

Lemma removeAll_of_trim s :
  trimRightNL s = "" -> removeAll nl s = "".
Proof.
  induction s as [|c s IH]; simpl; [reflexivity|].
  destruct (trimRightNL s) eqn:E.
  - destruct (Ascii.eqb c nl); [intros _; now apply IH|discriminate].
  - discriminate.
Qed.

Lemma removeAll_trim s :
  ~ hasByte nl (trimRightNL s) -> removeAll nl s = trimRightNL s.
Proof.
  unfold hasByte. induction s as [|c s IH]; simpl; [reflexivity|].
  destruct (trimRightNL s) as [|d r] eqn:E.
  - rewrite (removeAll_of_trim s E).
    destruct (Ascii.eqb c nl); [reflexivity|reflexivity].
  - simpl. intros H.
    destruct (Ascii.eqb_spec c nl) as [->|Hne].
    + exfalso. apply H. apply elem_of_cons. now left.
    + f_equal. apply IH. intros Hin. apply H. apply elem_of_cons. now right.
Qed.

(** ** The workflow resolver *)

Section Resolver.
Variable wg : WorkflowGraph.
Variable from : string.

Lemma walk_nil_inv p s : walk wg from p s -> length p = 0 -> s = from.
Proof.
  destruct 1 as [|p b e _ _]; [reflexivity|].
  rewrite length_app. simpl. lia.
Qed.

Lemma walk_last_inv q t k :
  walk wg from q t -> length q = S k ->
  exists p s e, walk wg from p s /\ length p = k /\ e ∈ edgesOf wg s
                /\ t = targetStatus e /\ q = p ++ [transitionName e].
Proof.
  destruct 1 as [|p b e Hw He]; [discriminate|].
  rewrite length_app. simpl. intros Hl.
  exists p, b, e. repeat split; try assumption. lia.
Qed.

Lemma level_start : level wg from 0 [(from, [])] {[from]}.
Proof.
  split.
  - intros s p Hin. apply list_elem_of_singleton in Hin. injection Hin as -> ->.
    split; [constructor|reflexivity].
  - intros s. rewrite elem_of_singleton. split.
    + intros ->. exists []. split; [constructor|reflexivity].
    + intros (p & Hw & Hl). apply (walk_nil_inv p); [exact Hw|lia].
  - intros s. simpl. rewrite list_elem_of_singleton, elem_of_singleton.
    split; [intros ->; split; [reflexivity|intros; lia]|tauto].
Qed.

Lemma elem_of_candidates frontier t q :
  (t, q) ∈ candidates wg frontier
  <-> exists s p e, (s, p) ∈ frontier /\ e ∈ edgesOf wg s
                    /\ t = targetStatus e /\ q = p ++ [transitionName e].
Proof.
  unfold candidates. rewrite list_elem_of_In, in_flat_map. split.
  - intros ([s p] & Hin & Hx). apply in_map_iff in Hx as (e & [= <- <-] & He).
    exists s, p, e. rewrite !list_elem_of_In. auto.
  - intros (s & p & e & Hin & He & -> & ->). exists (s, p).
    rewrite <- list_elem_of_In. split; [exact Hin|].
    apply in_map_iff. exists e. rewrite <- list_elem_of_In. auto.
Qed.

Lemma discover_spec cands : forall visited next vis,
  discover visited cands = (next, vis) ->
  (forall x, x ∈ next -> x ∈ cands /\ x.1 ∉ visited)
  /\ (forall s, s ∈ vis <-> s ∈ visited \/ s ∈ cands.*1)
  /\ (forall s, s ∈ next.*1 <-> s ∈ cands.*1 /\ s ∉ visited).
Proof.
  induction cands as [|[t p] cands IH]; intros visited next vis H; simpl in H.
  - injection H as <- <-. split; [|split].
    + intros x Hx. inversion Hx.
    + intros s. simpl. rewrite elem_of_nil. tauto.
    + intros s. simpl. rewrite elem_of_nil. tauto.
  - destruct (decide (t ∈ visited)) as [Hin|Hout].
    + destruct (IH _ _ _ H) as (H1 & H2 & H3). split; [|split].
      * intros x Hx. apply H1 in Hx as [Hx Hv]. rewrite elem_of_cons. auto.
      * intros s. rewrite H2. simpl. rewrite elem_of_cons.
        split; [tauto|]. intros [?|[->|?]]; auto.
      * intros s. rewrite H3. simpl. rewrite elem_of_cons.
        split; [tauto|]. intros [[->|?] ?]; [contradiction|auto].
    + destruct (discover ({[t]} ∪ visited) cands) as [next' vis'] eqn:Hd.
      injection H as <- <-. destruct (IH _ _ _ Hd) as (H1 & H2 & H3).
      split; [|split].
      * intros x Hx. apply elem_of_cons in Hx as [->|Hx].
        -- split; [apply elem_of_cons; now left|exact Hout].
        -- apply H1 in Hx as [Hx Hv]. split; [apply elem_of_cons; now right|].
           intros Hin. apply Hv. apply elem_of_union. now right.
      * intros s. rewrite H2. simpl.
        rewrite elem_of_cons, elem_of_union, elem_of_singleton. tauto.
      * intros s. simpl. rewrite !elem_of_cons, H3.
        destruct (decide (s = t)) as [->|Hne]; [tauto|].
        rewrite not_elem_of_union, not_elem_of_singleton. tauto.
Qed.

Lemma level_next k frontier visited next vis :
  level wg from k frontier visited ->
  discover visited (candidates wg frontier) = (next, vis) ->
  level wg from (S k) next vis.
Proof.
  intros [L1 L2 L3] Hd. destruct (discover_spec _ _ _ _ Hd) as (D1 & D2 & D3).
  assert (Hc : forall t, t ∈ (candidates wg frontier).*1 <->
                         exists s p e, (s, p) ∈ frontier /\ e ∈ edgesOf wg s
                                       /\ t = targetStatus e).
  { intros t. rewrite list_elem_of_fmap. split.
    - intros ([t' q] & -> & Hin). apply elem_of_candidates in Hin
        as (s & p & e & ? & ? & ? & ?). exists s, p, e. auto.
    - intros (s & p & e & Hin & He & ->).
      exists (targetStatus e, p ++ [transitionName e]). split; [reflexivity|].
      apply elem_of_candidates. exists s, p, e. auto. }
  assert (L2' : forall s, s ∈ vis <-> exists p, walk wg from p s /\ length p <= S k).
  { intros t. rewrite D2, L2, Hc. split.
    - intros [(p & Hw & Hl)|(s & p & e & Hin & He & ->)].
      + exists p. split; [exact Hw|lia].
      + destruct (L1 _ _ Hin) as [Hw Hl]. exists (p ++ [transitionName e]).
        split; [now apply walk_snoc with (b := s)|].
        rewrite length_app. simpl. lia.
    - intros (q & Hw & Hl).
      destruct (decide (length q <= k)) as [Hle|Hgt]; [left; eauto|].
      destruct (walk_last_inv q t k Hw) as (p & s & e & Hwp & Hlp & He & -> & ->);
        [lia|].
      destruct (decide (targetStatus e ∈ visited)) as [Hyes|Hno];
        [left; now apply L2|right].
      assert (Hs : s ∈ frontier.*1).
      { apply L3. split; [apply L2; exists p; split; [exact Hwp|lia]|].
        intros p' Hw'. destruct (decide (k <= length p')) as [?|Hlt]; [assumption|].
        exfalso. apply Hno. apply L2. exists (p' ++ [transitionName e]).
        split; [now apply walk_snoc with (b := s)|].
        rewrite length_app. simpl. lia. }
      apply list_elem_of_fmap in Hs as ([s' p'] & -> & Hin).
      exists s', p', e. auto. }
  split.
  - intros t q Hin. apply D1 in Hin as [Hin _].
    apply elem_of_candidates in Hin as (s & p & e & Hin & He & -> & ->).
    destruct (L1 _ _ Hin) as [Hw Hl]. split; [now apply walk_snoc with (b := s)|].
    rewrite length_app. simpl. lia.
  - exact L2'.
  - intros t. rewrite D3. split.
    + intros [Hin Hout]. split; [apply D2; now right|].
      intros p Hw. destruct (decide (S k <= length p)) as [?|Hlt]; [assumption|].
      exfalso. apply Hout. apply L2. exists p. split; [exact Hw|lia].
    + intros [Hin Hmin]. assert (Hout : t ∉ visited).
      { intros Hv. apply L2 in Hv as (p & Hw & Hl). apply Hmin in Hw. lia. }
      split; [|exact Hout]. apply D2 in Hin as [?|?]; [contradiction|assumption].
Qed.

Variable to : string.

Lemma find_target_some (frontier : list (string * list string)) s p :
  List.find (fun '(s, _) => bool_decide (s = to)) frontier = Some (s, p) ->
  s = to /\ (to, p) ∈ frontier.
Proof.
  intros H. apply find_some in H as [Hin Hb]. apply bool_decide_eq_true in Hb.
  subst s. split; [reflexivity|now apply list_elem_of_In].
Qed.

Lemma find_target_none (frontier : list (string * list string)) :
  List.find (fun '(s, _) => bool_decide (s = to)) frontier = None ->
  to ∉ frontier.*1.
Proof.
  intros H Hin. apply list_elem_of_fmap in Hin as ([s p] & Hs & Hin).
  simpl in Hs. subst s. apply list_elem_of_In in Hin.
  pose proof (find_none _ _ H _ Hin) as Hb. simpl in Hb.
  now apply bool_decide_eq_false in Hb.
Qed.

Lemma search_spec fuel : forall k frontier visited,
  level wg from k frontier visited ->
  (forall q, walk wg from q to -> k <= length q) ->
  match search wg to fuel frontier visited with
  | Some p => walk wg from p to /\ length p <= k + fuel
              /\ forall q, walk wg from q to -> length p <= length q
  | None => forall q, walk wg from q to -> k + fuel < length q
  end.
Proof.
  induction fuel as [|fuel IH]; intros k frontier visited L Hmin; simpl.
  - destruct (List.find _ frontier) as [[s p]|] eqn:Hf.
    + apply find_target_some in Hf as [-> Hin].
      destruct (level_paths _ _ _ _ _ L _ _ Hin) as [Hw Hl].
      split; [exact Hw|]. split; [lia|]. intros q Hq. apply Hmin in Hq. lia.
    + apply find_target_none in Hf. intros q Hq.
      destruct (decide (k < length q)) as [?|Hge]; [lia|]. exfalso. apply Hf.
      apply (level_frontier _ _ _ _ _ L). split; [|exact Hmin].
      apply (level_visited _ _ _ _ _ L). exists q. split; [exact Hq|lia].
  - destruct (List.find _ frontier) as [[s p]|] eqn:Hf.
    + apply find_target_some in Hf as [-> Hin].
      destruct (level_paths _ _ _ _ _ L _ _ Hin) as [Hw Hl].
      split; [exact Hw|]. split; [lia|]. intros q Hq. apply Hmin in Hq. lia.
    + apply find_target_none in Hf.
      assert (Hmin' : forall q, walk wg from q to -> S k <= length q).
      { intros q Hq. destruct (decide (S k <= length q)) as [?|Hlt]; [assumption|].
        exfalso. apply Hf. apply (level_frontier _ _ _ _ _ L). split; [|exact Hmin].
        apply (level_visited _ _ _ _ _ L). exists q. split; [exact Hq|lia]. }
      destruct (discover visited (candidates wg frontier)) as [next vis] eqn:Hd.
      pose proof (level_next _ _ _ _ _ L Hd) as L'.
      specialize (IH (S k) next vis L' Hmin').
      destruct (search wg to fuel next vis) as [p|].
      * destruct IH as (Hw & Hl & Hs). split; [exact Hw|]. split; [lia|exact Hs].
      * intros q Hq. apply IH in Hq. lia.
Qed.

Lemma search_found fuel (frontier : list (string * list string)) visited s p :
  List.find (fun '(s, _) => bool_decide (s = to)) frontier = Some (s, p) ->
  search wg to fuel frontier visited = Some p.
Proof. intros H. destruct fuel; simpl; now rewrite H. Qed.

Lemma search_deeper fuel (frontier : list (string * list string)) visited :
  List.find (fun '(s, _) => bool_decide (s = to)) frontier = None ->
  search wg to (S fuel) frontier visited
  = search wg to fuel (discover visited (candidates wg frontier)).1
           (discover visited (candidates wg frontier)).2.
Proof.
  intros H. simpl. rewrite H.
  now destruct (discover visited (candidates wg frontier)).
Qed.

Lemma find_discover (cands : list (string * list string)) : forall visited,
  to ∉ visited ->
  List.find (fun '(s, _) => bool_decide (s = to)) (discover visited cands).1
  = List.find (fun '(s, _) => bool_decide (s = to)) cands.
Proof.
  induction cands as [|[t p] cands IH]; intros visited Hto; simpl; [reflexivity|].
  destruct (decide (t ∈ visited)) as [Hin|Hout].
  - rewrite IH by exact Hto. rewrite bool_decide_eq_false_2; [reflexivity|].
    intros ->. contradiction.
  - destruct (discover ({[t]} ∪ visited) cands) as [next vis] eqn:Hd. simpl.
    destruct (bool_decide (t = to)) eqn:Ht; [reflexivity|].
    apply bool_decide_eq_false in Ht.
    replace next with (discover ({[t]} ∪ visited) cands).1 by now rewrite Hd.
    apply IH. rewrite not_elem_of_union, not_elem_of_singleton. auto.
Qed.
End Resolver.

(** C1. [Path] is the breadth-first search of the resolver.  For every
    graph: a returned sequence is the transition names of a walk from the
    source to the target, it has at most [maxSteps] steps and no walk to the
    target is shorter; a path is returned whenever some walk of at most
    [maxSteps] steps exists, and otherwise the call fails with NoPathFound
    carrying [maxSteps]; a request with equal source and target returns the
    empty sequence; among the direct transitions to the target the first in
    the tracker's order is taken; with a bound of zero and different
    statuses the call fails.  On Open --Start--> InProgress --Resolve-->
    Closed the path from Open to Closed with bound 500 is Start, Resolve. *)
Theorem Path_breadth_first :
  (forall wg from to maxSteps,
      (forall p, Path wg from to maxSteps = Ok p ->
                 walk wg from p to /\ length p <= maxSteps
                 /\ forall q, walk wg from q to -> length p <= length q)
      /\ ((exists q, walk wg from q to /\ length q <= maxSteps) ->
          exists p, Path wg from to maxSteps = Ok p)
      /\ ((forall q, walk wg from q to -> maxSteps < length q) ->
          Path wg from to maxSteps = Err (ErrNoPathFound maxSteps))
      /\ Path wg from from maxSteps = Ok []
      /\ (from <> to -> Path wg from to 0 = Err (ErrNoPathFound 0))
      /\ (forall e, from <> to ->
            List.find (fun e => bool_decide (targetStatus e = to)) (edgesOf wg from)
            = Some e ->
            Path wg from to (S maxSteps) = Ok [transitionName e]))
  /\ Path Toy.chain "Open" "Closed" 500 = Ok ["Start"; "Resolve"]
  /\ Path Toy.chain "Open" "Closed" 0 = Err (ErrNoPathFound 0)
  /\ Path Toy.diamond "A" "D" 500 = Ok ["x"; "z"].
Proof.
  split; [|repeat split; vm_compute; reflexivity].
  intros wg from to maxSteps.
  pose proof (search_spec wg from to maxSteps 0 _ _ (level_start wg from)
                (fun q _ => Nat.le_0_l (length q))) as Hs.
  unfold Path. split; [|split; [|split; [|split; [|split]]]].
  - intros p Hp. destruct (search wg to maxSteps _ _) as [p'|]; [|discriminate].
    injection Hp as ->. exact Hs.
  - intros (q & Hq & Hl). destruct (search wg to maxSteps _ _) as [p'|]; [eauto|].
    apply Hs in Hq. simpl in Hq. lia.
  - intros Hno. destruct (search wg to maxSteps _ _) as [p'|]; [|reflexivity].
    destruct Hs as (Hw & Hl & _). apply Hno in Hw. simpl in Hl. lia.
  - destruct maxSteps; simpl; rewrite bool_decide_eq_true_2 by reflexivity;
      reflexivity.
  - intros Hne. simpl. rewrite bool_decide_eq_false_2 by exact Hne. reflexivity.
  - intros e Hne He. rewrite search_deeper
      by (simpl; now rewrite bool_decide_eq_false_2 by exact Hne).
    rewrite (search_found wg to maxSteps _ _ (targetStatus e) [transitionName e]);
      [reflexivity|].
    rewrite find_discover by (rewrite not_elem_of_singleton; congruence).
    unfold candidates. simpl. rewrite app_nil_r.
    revert He. generalize (edgesOf wg from). clear.
    induction l as [|e0 l IH]; simpl; [discriminate|].
    destruct (bool_decide (targetStatus e0 = to)); [now intros [= ->]|exact IH].
Qed.

(** ** Reasoning about the monad *)

Ltac st_unfold :=
  unfold bind, ret, throw, get, getV, getW, putV, liftW, ignoreErr, call,
    NewJiraDir in *.

(** Membership in a list that is written out. *)
Ltac list_in :=
  solve [repeat first [apply list_elem_of_here | apply list_elem_of_further]].
Ltac list_notin :=
  let Hin := fresh "Hin" in
  intros Hin;
  repeat (apply elem_of_cons in Hin as [Hin|Hin]; [congruence|]);
  inversion Hin.

Lemma eqb_false_of_ne (a b : string) : a <> b -> String.eqb a b = false.
Proof. intros H. now apply String.eqb_neq. Qed.

Lemma after_after {R} (w : World R) r cs r' cs' :
  after (after w r cs) r' cs' = after w r' (cs ++ cs').
Proof. unfold after; simpl. now rewrite <- app_assoc. Qed.

Lemma after_nil {R} (w : World R) : after w (remote w) [] = w.
Proof. destruct w; unfold after; simpl. now rewrite app_nil_r. Qed.

Section Claims.
Context {R : Type} {tracker : Tracker R} {externals : Externals} {unicode : Unicode}.

(** *** Validation of issue names *)

Lemma form_of_split issueKey prefix number :
  Split (ToUpper issueKey) "-"%char = [prefix; number] ->
  is_Some (ParseUint number) -> isIssueKeyForm issueKey.
Proof.
  intros Hs Hp. rewrite Split_ToUpper in Hs.
  pose proof (Join_Split issueKey "-"%char) as Hj.
  pose proof (Split_free issueKey "-"%char) as Hf.
  destruct (Split issueKey "-"%char) as [|p [|n [|]]]; try discriminate.
  simpl in Hs. injection Hs as <- <-.
  rewrite ParseUint_ToUpper in Hp.
  apply Forall_cons in Hf as [Hfp Hf']. apply Forall_cons in Hf' as [Hfn _].
  exists p, n. simpl in Hj. repeat split; try assumption. now rewrite <- Hj at 1.
Qed.

(** C10. Issue names are validated before the tracker is contacted.  In a
    project's issue list, a name other than "new" that [ParseUint] rejects
    (in particular the empty name and any name with a byte that is not a
    decimal digit) resolves to not-found, (nil, nil), and leaves the client
    untouched: no call is recorded and the tracker state is the same.  In
    the list of all issues the same holds for every name other than "new",
    "help" and "structure" that is not PREFIX-NUMBER with a second
    component that parses. *)
Theorem issue_names_checked_locally :
  (forall project issueNo (w : World R),
      issueNo <> "new" -> ParseUint issueNo = None ->
      ProjectIssuesView_Walk project issueNo w = (Ok None, w))
  /\ (forall s, s = "" \/ (exists c, hasByte c s /\ digitOf c = None) ->
                ParseUint s = None)
  /\ (forall issueKey (w : World R),
         issueKey ∉ ["new"; "help"; "structure"] -> ~ isIssueKeyForm issueKey ->
         AllIssuesView_Walk issueKey w = (Ok None, w)).
Proof.
  split; [|split].
  - intros project issueNo w Hne Hp. unfold ProjectIssuesView_Walk.
    rewrite (eqb_false_of_ne _ _ Hne), Hp. reflexivity.
  - exact ParseUint_not_number.
  - intros issueKey w Hne Hform. unfold AllIssuesView_Walk.
    rewrite !eqb_false_of_ne by (intros ->; apply Hne; list_in).
    destruct (Split (ToUpper issueKey) "-"%char) as [|p [|n [|]]] eqn:Hs;
      try reflexivity.
    destruct (ParseUint n) eqn:Hp; [|reflexivity].
    exfalso. apply Hform. eapply form_of_split; eauto.
Qed.

(** *** Line breaks in committed buffers *)

(** C8 (as amended). On commit of a transition file, a status file or a
    scalar field other than description, labels and components, every
    line-break byte of the buffer is removed, wherever it stands, and the
    result is what is interpreted as transition name, target status or
    field value; description, labels and components go to the tracker
    unchanged.  For a buffer whose line breaks are all trailing this is the
    buffer without its trailing line breaks. *)
Theorem commit_removes_line_breaks :
  forall issueNo project issue content (w : World R),
    normalWalk_onClose issueNo project issue "transition" content w
    = call (CTransitionIssue (Key issue) (removeAll nl content))
           (TransitionIssue (Key issue) (removeAll nl content)) w
    /\ normalWalk_onClose issueNo project issue "status" content w
       = status_resolve issueNo project (removeAll nl content) w
    /\ (forall file,
           file ∉ ["raw"; "links"; "transition"; "status"] ->
           file ∉ ["description"; "labels"; "components"] ->
           normalWalk_onClose issueNo project issue file content w
           = call (CSetFieldInIssue (Key issue) file (removeAll nl content))
                  (SetFieldInIssue (Key issue) file (removeAll nl content)) w)
    /\ (forall file,
           file ∈ ["description"; "labels"; "components"] ->
           normalWalk_onClose issueNo project issue file content w
           = call (CSetFieldInIssue (Key issue) file content)
                  (SetFieldInIssue (Key issue) file content) w)
    /\ (~ hasByte nl (trimRightNL content) ->
        removeAll nl content = trimRightNL content).
Proof.
  intros issueNo project issue content w. repeat split.
  - intros file H1 H2. unfold normalWalk_onClose.
    rewrite !eqb_false_of_ne by (intros ->; solve [apply H1; list_in | apply H2; list_in]).
    reflexivity.
  - intros file Hin. unfold normalWalk_onClose.
    repeat (apply elem_of_cons in Hin as [->|Hin]; [reflexivity|]).
    inversion Hin.
  - apply removeAll_trim.
Qed.

(** *** Removing entries of the root *)

Lemma reserved_eqb file :
  file ∈ reservedNames ->
  String.eqb file "ctl" || String.eqb file "projects" || String.eqb file "issues"
  || String.eqb file "structure" || String.eqb file "help" = true.
Proof.
  unfold reservedNames. intros Hin.
  repeat (apply elem_of_cons in Hin as [->|Hin]; [reflexivity|]). inversion Hin.
Qed.

Lemma not_reserved_eqb file :
  file ∉ reservedNames ->
  String.eqb file "ctl" = false /\ String.eqb file "projects" = false
  /\ String.eqb file "issues" = false /\ String.eqb file "structure" = false
  /\ String.eqb file "help" = false.
Proof.
  unfold reservedNames. intros Hin.
  repeat split; apply eqb_false_of_ne; intros ->; apply Hin; list_in.
Qed.

Lemma JiraView_Walk_state file jw (w : World R) :
  snd (JiraView_Walk file (jw, w)) = ({| jw_searches := Some (searches_of jw) |}, w).
Proof.
  unfold JiraView_Walk. st_unfold. simpl.
  repeat match goal with |- context [String.eqb ?a ?b] => destruct (String.eqb a b) end;
    try reflexivity.
  destruct (searches_of jw !! file); reflexivity.
Qed.

Lemma JiraView_Remove_searches file name jw (w : World R) :
  searches_of jw !! name = None ->
  searches_of (fst (snd (JiraView_Remove file (jw, w)))) !! name = None.
Proof.
  intros Hn. unfold JiraView_Remove. st_unfold. simpl.
  repeat match goal with
         | |- context [String.eqb file ?b] => destruct (String.eqb file b)
         end; simpl; try exact Hn.
  destruct (searches_of jw !! file); simpl; [|exact Hn].
  unfold searches_of at 1; simpl.
  destruct (decide (file = name)) as [->|Hne].
  - apply lookup_delete_eq.
  - now rewrite lookup_delete_ne.
Qed.

Lemma root_steps_keep_absent name ops (s : JiraView * World R) :
  searches_of (fst s) !! name = None ->
  searches_of (fst (foldl (fun s op => root_step op s) s ops)) !! name = None.
Proof.
  revert s. induction ops as [|op ops IH]; intros [jw w] Hn; simpl; [exact Hn|].
  apply IH. destruct op as [file|file]; simpl.
  - rewrite JiraView_Walk_state. exact Hn.
  - now apply JiraView_Remove_searches.
Qed.

Lemma JiraView_Walk_absent file (s : JiraView * World R) :
  file ∉ reservedNames -> searches_of (fst s) !! file = None ->
  fst (JiraView_Walk file s) = Ok None.
Proof.
  destruct s as [jw w]. intros Hr Hn. simpl in Hn.
  destruct (not_reserved_eqb file Hr) as (E1 & E2 & E3 & E4 & E5).
  unfold JiraView_Walk. st_unfold. rewrite E1, E2, E3, E4, E5. simpl.
  rewrite Hn. reflexivity.
Qed.

(** C6. On the root view, removing ctl, projects, issues, help or
    structure fails with permission-denied and changes nothing.  Removing
    any other name that is a named search succeeds, takes exactly that
    search out of the table, touches nothing else, and from then on,
    through any further walks and removals on the root, a walk to that name
    finds nothing.  Removing any other name fails with no-such-file. *)
Theorem root_remove :
  (forall file (s : JiraView * World R),
      file ∈ reservedNames -> JiraView_Remove file s = (Err ErrPermissionDenied, s))
  /\ (forall file jw (w : World R),
         file ∉ reservedNames -> is_Some (searches_of jw !! file) ->
         JiraView_Remove file (jw, w)
         = (Ok tt, ({| jw_searches := Some (delete file (searches_of jw)) |}, w))
         /\ forall ops,
             fst (JiraView_Walk file
                    (foldl (fun s op => root_step op s)
                           (snd (JiraView_Remove file (jw, w))) ops))
             = Ok None)
  /\ (forall file jw (w : World R),
         file ∉ reservedNames -> searches_of jw !! file = None ->
         JiraView_Remove file (jw, w)
         = (Err ErrNoSuchFile, ({| jw_searches := Some (searches_of jw) |}, w))).
Proof.
  split; [|split].
  - intros file s Hr. unfold JiraView_Remove. rewrite (reserved_eqb file Hr).
    reflexivity.
  - intros file jw w Hr [sv Hsv].
    destruct (not_reserved_eqb file Hr) as (E1 & E2 & E3 & E4 & E5).
    assert (Hrm : JiraView_Remove file (jw, w)
                  = (Ok tt, ({| jw_searches := Some (delete file (searches_of jw)) |}, w))).
    { unfold JiraView_Remove. st_unfold. rewrite E1, E2, E3, E4, E5. simpl.
      rewrite Hsv. reflexivity. }
    split; [exact Hrm|]. intros ops. rewrite Hrm. simpl.
    apply JiraView_Walk_absent; [exact Hr|].
    apply root_steps_keep_absent. simpl. apply lookup_delete_eq.
  - intros file jw w Hr Hn.
    destruct (not_reserved_eqb file Hr) as (E1 & E2 & E3 & E4 & E5).
    unfold JiraView_Remove. st_unfold. rewrite E1, E2, E3, E4, E5. simpl.
    rewrite Hn. reflexivity.
Qed.

(** *** Committing a new issue *)

Lemma commit_when_committed args iw (w : World R) :
  iw_newIssue iw = false ->
  newWalk_commit args (iw, w) = (Err (ErrorString "issue already committed"), (iw, w)).
Proof.
  intros Hn. unfold newWalk_commit. st_unfold. simpl.
  destruct (commit_request iw) as [[[ty su] de] pr]. rewrite Hn. reflexivity.
Qed.

Lemma normal_mode_kept op iw (w : World R) :
  iw_newIssue iw = false ->
  let iw' := fst (issue_step op (iw, w)) in
  iw_newIssue iw' = false /\ iw_issueNo iw' = iw_issueNo iw
  /\ iw_project iw' = iw_project iw.
Proof.
  intros Hn. destruct op as [file|args|file content]; simpl.
  - unfold IssueView_Walk. st_unfold. simpl. rewrite Hn.
    destruct (normalWalk iw file w) as [x w']. simpl. auto.
  - rewrite commit_when_committed by exact Hn. simpl. auto.
  - unfold newWalk_onClose. st_unfold. simpl.
    destruct (iw_values iw); simpl; auto.
Qed.

Lemma normal_mode_forever ops iw (w : World R) :
  iw_newIssue iw = false ->
  let iw' := fst (foldl (fun s op => issue_step op s) (iw, w) ops) in
  iw_newIssue iw' = false /\ iw_issueNo iw' = iw_issueNo iw
  /\ iw_project iw' = iw_project iw.
Proof.
  revert iw w. induction ops as [|op ops IH]; intros iw w Hn; simpl; [auto|].
  destruct (normal_mode_kept op iw w Hn) as (H1 & H2 & H3).
  destruct (issue_step op (iw, w)) as [iw1 w1]. simpl in *.
  destruct (IH iw1 w1 H1) as (H4 & H5 & H6). repeat split; congruence.
Qed.

(** C4. The "commit" handler of a view in new mode asks the tracker to
    create the issue described by the draft.  When the tracker answers with
    a key, the handler returns nil and the view holds that key and is out
    of new mode; when the tracker fails, the error is returned and the view
    is exactly as before, still in new mode.  On a view out of new mode the
    handler fails with "issue already committed" without contacting the
    tracker and without changing the view, and no sequence of walks,
    commits and draft-file closes brings the view back to new mode or
    changes its key. *)
Theorem commit_is_one_way :
  forall args iw (w : World R) issuetype summary description project,
    commit_request iw = (issuetype, summary, description, project) ->
    let c := CCreateIssue issuetype project summary description in
    (forall key r,
        iw_newIssue iw = true ->
        CreateIssue issuetype project summary description (remote w) = (Ok key, r) ->
        let committed := {| iw_project := project; iw_issueNo := key;
                            iw_newIssue := false; iw_values := iw_values iw |} in
        newWalk_commit args (iw, w) = (Ok tt, (committed, after w r [c]))
        /\ forall ops args' s',
            s' = foldl (fun s op => issue_step op s) (committed, after w r [c]) ops ->
            iw_newIssue (fst s') = false /\ iw_issueNo (fst s') = key
            /\ newWalk_commit args' s'
               = (Err (ErrorString "issue already committed"), s'))
    /\ (forall e r,
           iw_newIssue iw = true ->
           CreateIssue issuetype project summary description (remote w) = (Err e, r) ->
           newWalk_commit args (iw, w) = (Err e, (iw, after w r [c])))
    /\ (iw_newIssue iw = false ->
        newWalk_commit args (iw, w)
        = (Err (ErrorString "issue already committed"), (iw, w))).
Proof.
  intros args iw w ty su de pr Hreq c. split; [|split].
  - intros key r Hn Hc.
    split.
    + unfold newWalk_commit. st_unfold. simpl. rewrite Hreq, Hn. simpl.
      rewrite Hc. reflexivity.
    + intros ops args' s' ->.
      match goal with |- context [foldl ?f (?v, ?x) ops] =>
        pose proof (normal_mode_forever ops v x eq_refl) as (H1 & H2 & _) end.
      destruct (foldl _ _ ops) as [iw' w']. simpl in *.
      repeat split; try assumption. now apply commit_when_committed.
  - intros e r Hn Hc. unfold newWalk_commit. st_unfold. simpl.
    rewrite Hreq, Hn. simpl. rewrite Hc. reflexivity.
  - apply commit_when_committed.
Qed.

(** *** Search views *)

Lemma StringExistsInSets_one file keys :
  StringExistsInSets file [keys] = bool_decide (file ∈ keys).
Proof. unfold StringExistsInSets. simpl. apply orb_false_r. Qed.

(** C5. Listing a search view sends the stored query to the tracker and
    puts the keys it answers in place of the previous result list, whatever
    that list was, so that a second listing shows the keys the tracker
    answers then.  Walking never sends the query and never changes the
    result list: a name outside the list is refused with no-such-file
    without any call, a name in the list costs one GetIssue and, when the
    issue comes back with its fields, yields the issue directory. *)
Theorem search_view_lists_afresh :
  (forall sw (w : World R) keys r,
      GetKeysForSearch (sw_query sw) (jc_maxlisting w) (remote w) = (Ok keys, r) ->
      SearchView_List (sw, w)
      = (Ok (StringsToStats keys (mode_or perm_ro DMDIR) "jira" "jira"),
         ({| sw_query := sw_query sw; sw_results := keys |},
          after w r [CGetKeysForSearch (sw_query sw) (jc_maxlisting w)])))
  /\ (forall sw (w w2 : World R) keys r keys2 r2,
         GetKeysForSearch (sw_query sw) (jc_maxlisting w) (remote w) = (Ok keys, r) ->
         GetKeysForSearch (sw_query sw) (jc_maxlisting w2) (remote w2) = (Ok keys2, r2) ->
         fst (SearchView_List (fst (snd (SearchView_List (sw, w))), w2))
         = Ok (StringsToStats keys2 (mode_or perm_ro DMDIR) "jira" "jira"))
  /\ (forall sw (w : World R) file,
         fst (snd (SearchView_Walk file (sw, w))) = sw
         /\ forall q l,
             CGetKeysForSearch q l ∈ calls (snd (snd (SearchView_Walk file (sw, w)))) ->
             CGetKeysForSearch q l ∈ calls w)
  /\ (forall sw (w : World R) file,
         file ∉ sw_results sw ->
         SearchView_Walk file (sw, w) = (Err ErrNoSuchFile, (sw, w)))
  /\ (forall sw (w : World R) file issue fields r,
         file ∈ sw_results sw ->
         GetIssue file (remote w) = (Ok issue, r) -> Fields issue = Some fields ->
         SearchView_Walk file (sw, w)
         = (Ok (Some (FJiraDir file (mode_or perm_ro DMDIR) "jira" "jira"
                        (VIssue {| iw_project := Project_Key fields;
                                   iw_issueNo := Key issue; iw_newIssue := false;
                                   iw_values := None |}))),
            (sw, after w r [CGetIssue file]))).
Proof.
  assert (HList : forall sw (w : World R) keys r,
      GetKeysForSearch (sw_query sw) (jc_maxlisting w) (remote w) = (Ok keys, r) ->
      SearchView_List (sw, w)
      = (Ok (StringsToStats keys (mode_or perm_ro DMDIR) "jira" "jira"),
         ({| sw_query := sw_query sw; sw_results := keys |},
          after w r [CGetKeysForSearch (sw_query sw) (jc_maxlisting w)]))).
  { intros sw w keys r Hq. unfold SearchView_List, SearchView_search. st_unfold.
    simpl. rewrite Hq. reflexivity. }
  split; [exact HList|]. split; [|split; [|split]].
  - intros sw w w2 keys r keys2 r2 H1 H2. rewrite (HList _ _ _ _ H1). simpl.
    rewrite (HList {| sw_query := sw_query sw; sw_results := keys |} w2 keys2 r2 H2).
    reflexivity.
  - intros sw w file. unfold SearchView_Walk. st_unfold. cbn [fst snd].
    destruct (StringExistsInSets file [sw_results sw]); simpl; [|auto].
    destruct (GetIssue file (remote w)) as [[issue|e] r]; simpl.
    + destruct (Fields issue); simpl; (split; [reflexivity|]); intros q l Hin;
        apply elem_of_app in Hin as [Hin|Hin]; try assumption;
        apply list_elem_of_singleton in Hin; discriminate.
    + split; [reflexivity|]. intros q l Hin.
      apply elem_of_app in Hin as [Hin|Hin]; try assumption.
      apply list_elem_of_singleton in Hin; discriminate.
  - intros sw w file Hnin. unfold SearchView_Walk. st_unfold. cbn [fst snd].
    rewrite StringExistsInSets_one, bool_decide_eq_false_2 by exact Hnin.
    reflexivity.
  - intros sw w file issue fields r Hin Hg Hf. unfold SearchView_Walk. st_unfold.
    cbn [fst snd]. rewrite StringExistsInSets_one, bool_decide_eq_true_2 by exact Hin.
    simpl. rewrite Hg, Hf. reflexivity.
Qed.

(** *** Writing the status file *)

Lemma transitions_run key r p r' :
  transitions_applied key r p r' ->
  forall w : World R, remote w = r ->
    forEach p (transition key) w = (Ok tt, after w r' (map (CTransitionIssue key) p)).
Proof.
  induction 1 as [r|r s r1 p r2 Hs _ IH]; intros w Hw; simpl.
  - subst r. unfold ret. now rewrite after_nil.
  - unfold bind, transition at 1, call. rewrite Hw, Hs.
    rewrite (IH (after w r1 [CTransitionIssue key s]) eq_refl).
    now rewrite after_after.
Qed.

Lemma transitions_stop key r done r' :
  transitions_applied key r done r' ->
  forall (w : World R) s rest e r'',
    remote w = r -> TransitionIssue key s r' = (Err e, r'') ->
    forEach (done ++ s :: rest) (transition key) w
    = (Err e, after w r'' (map (CTransitionIssue key) (done ++ [s]))).
Proof.
  induction 1 as [r|r t r1 p r2 Ht _ IH]; intros w s rest e r'' Hw Hs; simpl.
  - subst r. unfold bind, transition at 1, call. now rewrite Hs.
  - unfold bind, transition at 1, call. rewrite Hw, Ht.
    rewrite (IH (after w r1 [CTransitionIssue key t]) s rest e r'' eq_refl Hs).
    now rewrite after_after.
Qed.

(** C2. Committing a write to the status file fetches the issue, builds
    the workflow graph for its project and issue type, and asks the
    resolver for a path from the issue's current status to the written
    target with a bound of 500 steps.  The transitions of that path are
    then sent to the tracker in order.  When all are accepted the commit
    returns nil.  When one is refused the commit returns that error at
    once: the transitions before it have been applied and stay applied, the
    ones after it are never sent, and nothing is sent to undo anything. *)
Theorem status_write_walks_the_path :
  forall issueNo project walked content (w : World R) issue fields status r1 wg r2 p,
    GetIssue issueNo (remote w) = (Ok issue, r1) ->
    Fields issue = Some fields -> Status fields = Some status ->
    BuildWorkflow2 project (Type_ID fields) r1 = (Ok wg, r2) ->
    Path wg status (removeAll nl content) 500 = Ok p ->
    let prelude := [CGetIssue issueNo; CBuildWorkflow2 project (Type_ID fields)] in
    (forall r3,
        transitions_applied (Key issue) r2 p r3 ->
        normalWalk_onClose issueNo project walked "status" content w
        = (Ok tt, after w r3 (prelude ++ map (CTransitionIssue (Key issue)) p)))
    /\ (forall done s rest r3 e r4,
           p = done ++ s :: rest ->
           transitions_applied (Key issue) r2 done r3 ->
           TransitionIssue (Key issue) s r3 = (Err e, r4) ->
           normalWalk_onClose issueNo project walked "status" content w
           = (Err e,
              after w r4 (prelude ++ map (CTransitionIssue (Key issue)) (done ++ [s])))).
Proof.
  intros issueNo project walked content w issue fields status r1 wg r2 p
         Hg Hf Hs Hb Hp prelude.
  assert (Hrun : normalWalk_onClose issueNo project walked "status" content w
                 = forEach p (transition (Key issue))
                     (after w r2 prelude)).
  { change (normalWalk_onClose issueNo project walked "status" content w)
      with (status_resolve issueNo project (removeAll nl content) w).
    unfold status_resolve, bind, call. rewrite Hg, Hf, Hs. cbn [remote after].
    rewrite Hb, Hp. rewrite after_after. reflexivity. }
  split.
  - intros r3 Hta. rewrite Hrun.
    rewrite (transitions_run _ _ _ _ Hta (after w r2 prelude) eq_refl).
    now rewrite after_after.
  - intros done s rest r3 e r4 -> Hta Hfail. rewrite Hrun.
    rewrite (transitions_stop _ _ _ _ Hta (after w r2 prelude) s rest e r4 eq_refl Hfail).
    now rewrite after_after.
Qed.

(** *** Writing the links file *)

Lemma forEach_trace {A} (body : A -> ST (World R) unit) (f : A -> list Call) :
  (forall x w, exists r, body x w = (Ok tt, after w r (f x))) ->
  forall l w, exists r, forEach l body w = (Ok tt, after w r (flat_map f l)).
Proof.
  intros Hbody. induction l as [|x l IH]; intros w; simpl.
  - exists (remote w). unfold ret. now rewrite after_nil.
  - destruct (Hbody x w) as [r1 H1]. destruct (IH (after w r1 (f x))) as [r2 H2].
    exists r2. unfold bind. rewrite H1, H2. now rewrite after_after.
Qed.

Lemma links_cur_other issue links (m : gmap string string) k :
  k ∉ map (fun l => renderIssueLink l (Key issue)) links ->
  fold_left (fun cur l => <[renderIssueLink l (Key issue) := link_ID l]> cur) links m !! k
  = m !! k.
Proof.
  revert m. induction links as [|l links IH]; intros m Hk; simpl; [reflexivity|].
  simpl in Hk. apply not_elem_of_cons in Hk as [Hne Hk].
  rewrite IH by exact Hk. now apply lookup_insert_ne.
Qed.

Lemma links_cur_origin issue links (m : gmap string string) k id :
  fold_left (fun cur l => <[renderIssueLink l (Key issue) := link_ID l]> cur) links m !! k
  = Some id ->
  m !! k = Some id
  \/ exists l, l ∈ links /\ renderIssueLink l (Key issue) = k /\ link_ID l = id.
Proof.
  revert m. induction links as [|l links IH]; intros m H; simpl in *; [now left|].
  apply IH in H as [H|(l' & Hin & Hr & Hid)].
  - destruct (decide (renderIssueLink l (Key issue) = k)) as [E|E].
    + subst k. rewrite lookup_insert_eq in H. injection H as <-.
      right. exists l. split; [apply elem_of_cons; now left|auto].
    + rewrite lookup_insert_ne in H by exact E. now left.
  - right. exists l'. split; [apply elem_of_cons; now right|auto].
Qed.

Lemma links_cur_distinct issue links :
  NoDup (map (fun l => renderIssueLink l (Key issue)) links) ->
  forall l, l ∈ links ->
    links_cur issue links !! renderIssueLink l (Key issue) = Some (link_ID l).
Proof.
  unfold links_cur. generalize (∅ : gmap string string).
  induction links as [|l0 links IH]; intros m Hnd l Hin; [inversion Hin|].
  simpl in *. apply NoDup_cons in Hnd as [Hfresh Hnd].
  apply elem_of_cons in Hin as [->|Hin].
  - rewrite links_cur_other by exact Hfresh. apply lookup_insert_eq.
  - now apply IH.
Qed.

Lemma links_cur_none issue links s :
  (forall l, l ∈ links -> renderIssueLink l (Key issue) <> s) ->
  links_cur issue links !! s = None.
Proof.
  intros Hno. unfold links_cur. rewrite links_cur_other; [apply lookup_empty|].
  intros Hin. apply list_elem_of_fmap in Hin as (l & -> & Hl). now apply (Hno l).
Qed.

Lemma links_scan_spec input : forall cur new cur' new',
  fold_left scan_step input (cur, new) = (cur', new') ->
  (forall k v, cur' !! k = Some v <-> cur !! k = Some v /\ (k ∉ input \/ k = ""))
  /\ (forall s, s ∈ new' -> s ∈ new \/ (s ∈ input /\ s <> ""))
  /\ (forall s, s ∈ new -> s ∈ new')
  /\ (forall s, s ∈ input -> s <> "" -> cur !! s = None -> s ∈ new').
Proof.
  induction input as [|x input IH]; intros cur new cur' new' H; simpl in H.
  - injection H as <- <-. split; [|split; [|split]].
    + intros k v. split; [intros Hk; split; [exact Hk|left; apply not_elem_of_nil]|tauto].
    + tauto.
    + tauto.
    + intros s Hin. inversion Hin.
  - destruct (String.eqb_spec x "") as [->|Hx].
    + destruct (IH _ _ _ _ H) as (H1 & H2 & H3 & H4). split; [|split; [|split]].
      * intros k v. rewrite H1, not_elem_of_cons.
        destruct (decide (k = "")) as [->|Hne]; [tauto|]. intuition congruence.
      * intros s Hs. apply H2 in Hs. rewrite elem_of_cons. tauto.
      * exact H3.
      * intros s Hin Hne Hc. apply elem_of_cons in Hin as [->|Hin]; [congruence|].
        now apply H4.
    + destruct (cur !! x) as [vx|] eqn:Ex.
      * destruct (IH _ _ _ _ H) as (H1 & H2 & H3 & H4). split; [|split; [|split]].
        -- intros k v. rewrite H1, not_elem_of_cons.
           destruct (decide (x = k)) as [->|Hxk].
           ++ rewrite lookup_delete_eq. split; [intros [? _]; discriminate|].
              intros [_ [[? _]|?]]; congruence.
           ++ rewrite lookup_delete_ne by exact Hxk. intuition congruence.
        -- intros s Hs. apply H2 in Hs. rewrite elem_of_cons. tauto.
        -- exact H3.
        -- intros s Hin Hne Hc. apply elem_of_cons in Hin as [->|Hin]; [congruence|].
           apply H4; try assumption.
           destruct (decide (x = s)) as [->|Hxs]; [apply lookup_delete_eq|].
           now rewrite lookup_delete_ne.
      * destruct (IH _ _ _ _ H) as (H1 & H2 & H3 & H4). split; [|split; [|split]].
        -- intros k v. rewrite H1, not_elem_of_cons.
           destruct (decide (k = x)) as [->|Hxk]; [|tauto].
           rewrite Ex. split; [intros [? _]; discriminate|intros [? _]; discriminate].
        -- intros s Hs. apply H2 in Hs. rewrite elem_of_app, list_elem_of_singleton in Hs.
           rewrite elem_of_cons.
           destruct Hs as [[Hs| ->]|[Hs Hne]]; [now left|right|right]; tauto.
        -- intros s Hs. apply H3. apply elem_of_app. now left.
        -- intros s Hin Hne Hc. apply elem_of_cons in Hin as [->|Hin].
           ++ apply H3. apply elem_of_app. right. now apply list_elem_of_singleton.
           ++ now apply H4.
Qed.

Lemma links_parse_spec issue k a b c :
  links_parse issue k = Some (a, b, c)
  <-> Split k " "%char = [a; b; c] /\ (a = Key issue \/ b = Key issue).
Proof.
  unfold links_parse.
  destruct (Split k " "%char) as [|a0 [|a1 [|a2 [|]]]]; try (split; [discriminate|intros [? _]; discriminate]).
  destruct (String.eqb_spec a0 (Key issue)) as [E0|E0];
    destruct (String.eqb_spec a1 (Key issue)) as [E1|E1]; simpl;
    (split; [intros [= <- <- <-]|intros [[= <- <- <-] Hk]]); auto;
    destruct Hk; congruence.
Qed.

Lemma deletes_run (l : list (string * string)) (w : World R) :
  exists r,
    forEach l links_delete w = (Ok tt, after w r (map CDeleteIssueLink l.*2)).
Proof.
  destruct (forEach_trace links_delete
              (fun kv : string * string => [CDeleteIssueLink (snd kv)]))
    with (l := l) (w := w) as [r Hr].
  - intros [k v] w'. unfold links_delete, ignoreErr, call. simpl.
    destruct (DeleteIssueLink v (remote w')) as [x r']. exists r'. reflexivity.
  - exists r. rewrite Hr. do 2 f_equal. clear.
    induction l as [|[k v] l IH]; simpl; [reflexivity|now rewrite IH].
Qed.

Lemma creates_run issue (new : list string) (w : World R) :
  exists r,
    forEach new (links_create issue) w
    = (Ok tt, after w r (map link_call (omap (links_parse issue) new))).
Proof.
  destruct (forEach_trace (links_create issue)
              (fun k => match links_parse issue k with
                        | Some t => [link_call t]
                        | None => []
                        end)) with (l := new) (w := w) as [r Hr].
  - intros k w'. unfold links_create.
    destruct (links_parse issue k) as [[[a b] c]|].
    + unfold ignoreErr, call. simpl.
      destruct (LinkIssues a b c (remote w')) as [x r']. exists r'. reflexivity.
    + exists (remote w'). unfold ret. now rewrite after_nil.
  - exists r. rewrite Hr. do 2 f_equal. clear.
    induction new as [|k new IH]; simpl; [reflexivity|].
    rewrite IH. now destruct (links_parse issue k).
Qed.

Lemma unmatched_from_elem renders input : forall seen s,
  s ∈ unmatched_from renders seen input
  <-> s <> "" /\ exists i, input !! i = Some s
                          /\ (s ∉ renders \/ s ∈ seen \/ s ∈ take i input).
Proof.
  induction input as [|x input IH]; intros seen s; simpl.
  - split; [intros H; inversion H|intros (_ & i & H & _); now rewrite lookup_nil in H].
  - rewrite elem_of_app, IH. split.
    + intros [H|(Hne & i & Hi & Hcase)].
      * destruct (decide (x <> "" /\ (x ∉ renders \/ x ∈ seen))) as [[Hx Hc]|_];
          [|inversion H].
        apply list_elem_of_singleton in H as ->. split; [exact Hx|].
        exists 0. split; [reflexivity|]. tauto.
      * split; [exact Hne|]. exists (S i). split; [exact Hi|]. simpl.
        rewrite elem_of_cons in Hcase. rewrite elem_of_cons. tauto.
    + intros (Hne & [|i] & Hi & Hcase); simpl in Hi.
      * injection Hi as ->. left.
        rewrite decide_True; [apply list_elem_of_here|].
        split; [exact Hne|]. simpl in Hcase.
        destruct Hcase as [H|[H|H]]; [tauto|tauto|inversion H].
      * right. split; [exact Hne|]. exists i. split; [exact Hi|]. simpl in Hcase.
        rewrite elem_of_cons in Hcase. rewrite elem_of_cons. tauto.
Qed.

Lemma unmatched_elem renders input s :
  s ∈ unmatched renders input
  <-> s <> "" /\ exists i, input !! i = Some s /\ (s ∉ renders \/ s ∈ take i input).
Proof.
  unfold unmatched. rewrite unmatched_from_elem. split.
  - intros (Hne & i & Hi & [H|[H|H]]); [eauto|inversion H|eauto].
  - intros (Hne & i & Hi & [H|H]); eauto 7.
Qed.

Lemma scan_unmatched renders input : forall seen cur new,
  (forall s, s <> "" -> cur !! s = None <-> s ∉ renders \/ s ∈ seen) ->
  snd (fold_left scan_step input (cur, new)) = new ++ unmatched_from renders seen input.
Proof.
  induction input as [|x input IH]; intros seen cur new Hinv; simpl.
  - now rewrite app_nil_r.
  - destruct (String.eqb_spec x "") as [->|Hx].
    + rewrite decide_False by tauto. simpl. apply IH.
      intros s Hs. rewrite Hinv by exact Hs. rewrite elem_of_cons.
      split; [tauto|]. intros [H|[H|H]]; [tauto|congruence|tauto].
    + destruct (cur !! x) as [v|] eqn:Ex.
      * rewrite decide_False.
        2:{ intros [_ H]. apply Hinv in H; [congruence|exact Hx]. }
        simpl. apply IH. intros s Hs. rewrite elem_of_cons.
        destruct (decide (s = x)) as [->|Hsx].
        -- rewrite lookup_delete_eq. tauto.
        -- rewrite lookup_delete_ne by congruence. rewrite Hinv by exact Hs. tauto.
      * rewrite decide_True.
        2:{ split; [exact Hx|]. now apply Hinv. }
        rewrite (IH (x :: seen) cur (new ++ [x])).
        -- now rewrite <- app_assoc.
        -- intros s Hs. rewrite elem_of_cons.
           destruct (decide (s = x)) as [->|Hsx]; [tauto|].
           rewrite Hinv by exact Hs. tauto.
Qed.

Lemma links_cur_some issue links k : forall m : gmap string string,
  k ∈ map (fun l => renderIssueLink l (Key issue)) links ->
  is_Some (fold_left (fun cur l => <[renderIssueLink l (Key issue) := link_ID l]> cur)
                     links m !! k).
Proof.
  induction links as [|l0 links IH]; intros m Hin; [inversion Hin|]. simpl in *.
  destruct (decide (k ∈ map (fun l => renderIssueLink l (Key issue)) links)) as [Hk|Hk].
  - now apply IH.
  - apply elem_of_cons in Hin as [->|Hin]; [|contradiction].
    rewrite links_cur_other by exact Hk. rewrite lookup_insert_eq. eauto.
Qed.

Lemma links_cur_dom issue links s :
  links_cur issue links !! s = None
  <-> s ∉ map (fun l => renderIssueLink l (Key issue)) links.
Proof.
  split.
  - intros Hnone Hin. apply (links_cur_some issue links s ∅) in Hin.
    unfold links_cur in Hnone. rewrite Hnone in Hin. now destruct Hin.
  - intros Hout. apply links_cur_none. intros l Hl Hr. apply Hout.
    apply list_elem_of_fmap. eauto.
Qed.

Lemma Split_inj s1 s2 sep : Split s1 sep = Split s2 sep -> s1 = s2.
Proof.
  intros H. rewrite <- (Join_Split s1 sep), <- (Join_Split s2 sep). now rewrite H.
Qed.

(** C3 (as amended). For an issue fetched with its fields, committing a
    write to the links file compares the lines of the text with the issue's
    links rendered as "INWARD OUTWARD RELATION" and returns nil, whatever
    the tracker answers.  First links are deleted: every deleted id belongs
    to a link whose rendering is not a line of the text or is empty, and
    when the links render to pairwise different lines the deleted ids are
    exactly the ids of those links.  Then links are created, one per new
    line that cuts at each single space into exactly three pieces of which
    the first or the second is the issue's key; the new lines are, in the
    order of the text, the non-empty lines that are no link's rendering or
    that have stood in the text before.  So a line that is no
    link's rendering is created when it has that form, nothing is created
    from a line that has not, and a link's rendering written once creates
    nothing.  With the text "ABC-1 ABC-2 Blocks\nABC-1 ABC-3 Relates\n" and
    the single link ABC-1 ABC-2 Blocks the only call is the creation of
    ABC-1/ABC-3/Relates.  For an issue fetched without fields the commit
    panics before any call. *)
Theorem links_write_diffs_lines :
  (forall issueNo project issue fields content (w : World R),
      Fields issue = Some fields ->
      let render := fun l => renderIssueLink l (Key issue) in
      let links := IssueLinks fields in
      let input := Split content nl in
      exists dels creates r,
        normalWalk_onClose issueNo project issue "links" content w
        = (Ok tt, after w r (map CDeleteIssueLink dels ++ map link_call creates))
        /\ (forall id, id ∈ dels ->
              exists l, l ∈ links /\ link_ID l = id
                        /\ (render l ∉ input \/ render l = ""))
        /\ (NoDup (map render links) ->
            dels ≡ₚ map link_ID
                      (filter (fun l => render l ∉ input \/ render l = "") links))
        /\ creates = omap (links_parse issue) (unmatched (map render links) input)
        /\ (forall a b c, (a, b, c) ∈ creates ->
              (a = Key issue \/ b = Key issue)
              /\ exists s, s ∈ input /\ Split s " "%char = [a; b; c])
        /\ (forall s a b c,
              s ∈ input -> (forall l, l ∈ links -> render l <> s) ->
              Split s " "%char = [a; b; c] -> a = Key issue \/ b = Key issue ->
              (a, b, c) ∈ creates)
        /\ (forall l a b c,
              l ∈ links -> Split (render l) " "%char = [a; b; c] ->
              (forall i j, input !! i = Some (render l) ->
                           input !! j = Some (render l) -> i = j) ->
              (a, b, c) ∉ creates))
  /\ (forall issue k a b c,
         links_parse issue k = Some (a, b, c)
         <-> Split k " "%char = [a; b; c] /\ (a = Key issue \/ b = Key issue))
  /\ (forall renders input s,
         s ∈ unmatched renders input
         <-> s <> "" /\ exists i, input !! i = Some s
                                 /\ (s ∉ renders \/ s ∈ take i input))
  /\ (forall issueNo project issue content (w : World R),
         Fields issue = None ->
         normalWalk_onClose issueNo project issue "links" content w
         = (Err (ErrPanic "nil pointer dereference"), w))
  /\ (forall issueNo project fields id (w : World R),
         IssueLinks fields
         = [ {| link_ID := id; OutwardIssue := Some "ABC-2"; InwardIssue := None;
                link_TypeName := "Blocks" |} ] ->
         exists r,
           normalWalk_onClose issueNo project
             {| Key := "ABC-1"; Fields := Some fields |} "links"
             ("ABC-1 ABC-2 Blocks" +:+ NL +:+ "ABC-1 ABC-3 Relates" +:+ NL) w
           = (Ok tt, after w r [CLinkIssues "ABC-1" "ABC-3" "Relates"])).
Proof.
  split; [|split; [|split; [|split]]].
  - intros issueNo project issue fields content w Hf render links input.
    change (normalWalk_onClose issueNo project issue "links" content w)
      with (links_onClose issue content w).
    unfold links_onClose. rewrite Hf. fold links input.
    destruct (links_scan (links_cur issue links) input) as [cur new] eqn:Hscan.
    unfold links_scan in Hscan.
    destruct (links_scan_spec _ _ _ _ _ Hscan) as (H1 & H2 & H3 & H4).
    assert (Hnew : new = unmatched (map render links) input).
    { pose proof (scan_unmatched (map render links) input [] (links_cur issue links) []) as Hu.
      rewrite Hscan in Hu. simpl in Hu. apply Hu.
      intros s _. rewrite links_cur_dom. split; [tauto|].
      intros [H|H]; [exact H|inversion H]. }
    destruct (deletes_run (rangeOrder cur) w) as [r1 Hd].
    destruct (creates_run issue new (after w r1 (map CDeleteIssueLink (rangeOrder cur).*2)))
      as [r2 Hc].
    exists (rangeOrder cur).*2, (omap (links_parse issue) new), r2.
    split; [|split; [|split; [|split; [|split; [|split]]]]].
    + unfold bind, ret. rewrite Hd, Hc. now rewrite after_after.
    + intros id Hid. apply list_elem_of_fmap in Hid as ([k v] & -> & Hkv).
      rewrite rangeOrder_perm in Hkv. apply elem_of_map_to_list in Hkv.
      apply H1 in Hkv as [Hkv Hcase]. unfold links_cur in Hkv.
      apply links_cur_origin in Hkv as [Hkv|(l & Hl & Hr & Hid)];
        [now rewrite lookup_empty in Hkv|].
      exists l. simpl. subst k. auto.
    + intros Hnd.
      transitivity ((map (fun l => (render l, link_ID l))
                       (filter (fun l => render l ∉ input \/ render l = "") links)).*2).
      2:{ unfold fmap at 1. rewrite <- list_fmap_compose. reflexivity. }
      apply fmap_Permutation. rewrite rangeOrder_perm.
      apply NoDup_Permutation.
      * apply NoDup_map_to_list.
      * apply (NoDup_fmap_1 fst). rewrite <- list_fmap_compose.
        change (fst ∘ (fun l => (render l, link_ID l))) with render.
        assert (Hsub : forall ls, NoDup (map render ls) ->
                  NoDup (render <$> filter (fun l => render l ∉ input \/ render l = "") ls)).
        { induction ls as [|l0 ls IHl]; intros Hn; [constructor|].
          simpl in Hn. apply NoDup_cons in Hn as [Hfresh Hn].
          rewrite filter_cons. destruct (decide _); [|now apply IHl].
          simpl. apply NoDup_cons. split; [|now apply IHl].
          intros Hin. apply Hfresh. apply list_elem_of_fmap in Hin as (l' & Hr & Hl').
          apply list_elem_of_filter in Hl' as [_ Hl'].
          apply list_elem_of_fmap. eauto. }
        now apply Hsub.
      * intros [k v]. rewrite elem_of_map_to_list, H1, list_elem_of_fmap. split.
        -- intros [Hkv Hcase]. unfold links_cur in Hkv.
           apply links_cur_origin in Hkv as [Hkv|(l & Hl & Hr & Hid)];
             [now rewrite lookup_empty in Hkv|].
           exists l. subst k v. split; [reflexivity|].
           apply list_elem_of_filter. split; [exact Hcase|exact Hl].
        -- intros (l & [= -> ->] & Hl). apply list_elem_of_filter in Hl as [Hcase Hl].
           split; [now apply links_cur_distinct|exact Hcase].
    + now rewrite Hnew.
    + intros a b c Hin. apply list_elem_of_omap in Hin as (s & Hs & Hp).
      apply links_parse_spec in Hp as [Hsplit Hkey]. split; [exact Hkey|].
      exists s. split; [|exact Hsplit].
      apply H2 in Hs as [Hs|[Hs _]]; [inversion Hs|exact Hs].
    + intros s a b c Hs Hno Hsplit Hkey. apply list_elem_of_omap. exists s.
      split; [|apply links_parse_spec; auto].
      apply H4; [exact Hs| |now apply links_cur_none].
      intros ->. discriminate Hsplit.
    + intros l a b c Hl Hsplit Honce Hin.
      apply list_elem_of_omap in Hin as (s & Hs & Hp).
      apply links_parse_spec in Hp as [Hsplit' _].
      assert (s = render l) as -> by (apply (Split_inj _ _ " "%char); congruence).
      rewrite Hnew in Hs. apply unmatched_elem in Hs as (Hne & i & Hi & [Hout|Hbefore]).
      * apply Hout. apply list_elem_of_fmap. eauto.
      * apply list_elem_of_lookup in Hbefore as [j Hj].
        pose proof (lookup_lt_Some _ _ _ Hj) as Hlt. rewrite length_take in Hlt.
        rewrite lookup_take_lt in Hj by lia.
        specialize (Honce _ _ Hi Hj). lia.
  - intros issue k a b c. apply links_parse_spec.
  - intros renders input s. apply unmatched_elem.
  - intros issueNo project issue content w Hf.
    change (normalWalk_onClose issueNo project issue "links" content w)
      with (links_onClose issue content w).
    unfold links_onClose. now rewrite Hf.
  - intros issueNo project fields id w Hl.
    change (normalWalk_onClose issueNo project {| Key := "ABC-1"; Fields := Some fields |}
              "links" ("ABC-1 ABC-2 Blocks" +:+ NL +:+ "ABC-1 ABC-3 Relates" +:+ NL) w)
      with (links_onClose {| Key := "ABC-1"; Fields := Some fields |}
              ("ABC-1 ABC-2 Blocks" +:+ NL +:+ "ABC-1 ABC-3 Relates" +:+ NL) w).
    unfold links_onClose. cbn [Fields]. rewrite Hl.
    assert (Hscan : links_scan
              (links_cur {| Key := "ABC-1"; Fields := Some fields |}
                 [ {| link_ID := id; OutwardIssue := Some "ABC-2"; InwardIssue := None;
                      link_TypeName := "Blocks" |} ])
              (Split ("ABC-1 ABC-2 Blocks" +:+ NL +:+ "ABC-1 ABC-3 Relates" +:+ NL) nl)
            = (∅, ["ABC-1 ABC-3 Relates"])).
    { unfold links_cur, links_scan. cbn [fold_left renderIssueLink OutwardIssue Key
                                                   link_TypeName link_ID].
      change (Split _ nl) with ["ABC-1 ABC-2 Blocks"; "ABC-1 ABC-3 Relates"; ""].
      cbn [fold_left scan_step].
      change ("ABC-1" +:+ " " +:+ "ABC-2" +:+ " " +:+ "Blocks") with "ABC-1 ABC-2 Blocks".
      change (String.eqb "ABC-1 ABC-2 Blocks" "") with false.
      change (String.eqb "ABC-1 ABC-3 Relates" "") with false.
      change (String.eqb "" "") with true. cbv iota.
      rewrite lookup_insert_eq, delete_insert_eq, delete_empty.
      unfold scan_step.
      change (String.eqb "ABC-1 ABC-3 Relates" "") with false.
      change (String.eqb "" "") with true. cbv iota.
      rewrite lookup_empty. reflexivity. }
    rewrite Hscan.
    assert (Hempty : rangeOrder ∅ = []).
    { apply Permutation_nil_r. rewrite rangeOrder_perm. now rewrite map_to_list_empty. }
    rewrite Hempty.
    destruct (LinkIssues "ABC-1" "ABC-3" "Relates" (remote w)) as [x r] eqn:Hlink.
    exists r. unfold bind, ret. simpl. unfold links_create.
    change (links_parse {| Key := "ABC-1"; Fields := Some fields |} "ABC-1 ABC-3 Relates")
      with (Some ("ABC-1", "ABC-3", "Relates")).
    unfold ignoreErr, call, ret. rewrite Hlink. simpl.
    reflexivity.
Qed.

(** *** Flags and modes chosen per file *)

Ltac by_file H file :=
  repeat match type of H with
         | context [String.eqb file ?b] =>
             destruct (String.eqb_spec file b) as [->|?]
         end.

Lemma normalWalk_cases iw file (w w' : World R) f :
  normalWalk iw file w = (Ok (Some f), w') ->
  match f with
  | FCloseSaver sf ft _ =>
      ft = negb (bool_decide (file ∈ incrementalFields)) /\ sf_perm sf = perm_rw
      /\ file ∉ ["key"; "project"; "progress"; "comments"; "worklog"; "ctl"]
  | FSynthetic sf => sf_perm sf = perm_ro /\ file ∈ ["key"; "project"; "progress"]
  | FJiraDir _ perm _ _ _ =>
      perm = mode_or perm_ro DMDIR /\ file ∈ ["comments"; "worklog"]
  | FCommandFile _ perm _ _ _ => perm = perm_rw /\ file = "ctl"
  end
  /\ file_owner f = ("jira", "jira").
Proof.
  unfold normalWalk. cbn [normalFiles].
  destruct (StringExistsInSets file _) eqn:Hex; cbn [negb]; [|discriminate].
  unfold bind, call.
  destruct (GetIssue (iw_issueNo iw) (remote w)) as [[issue|e] r]; [|discriminate].
  unfold normalWalk_switch. intros H.
  by_file H file; unfold bind, call, ret, throw, NewJiraDir in H; cbn in H;
    try (destruct (GetTransitionsForIssue _ _) as [[trs|e] r2]; cbn in H;
         [|discriminate]);
    try (destruct (MarshalIndent issue) as [b|e]; cbn in H; [|discriminate]);
    try (injection H as <- <-; cbn; repeat split; try reflexivity;
         first [list_in | list_notin]).
  exfalso. unfold StringExistsInSets in Hex. cbn in Hex.
  rewrite !bool_decide_eq_false_2 in Hex by list_notin. discriminate.
Qed.

Lemma CommentView_Walk_cases issueNo comment file (w w' : World R) sf ft oc :
  CommentView_Walk issueNo comment file w = (Ok (Some (FCloseSaver sf ft oc)), w') ->
  file = "comment" /\ ft = false.
Proof.
  unfold CommentView_Walk.
  destruct (StringExistsInSets file _); cbn [negb]; [|discriminate].
  unfold bind, call.
  destruct (GetComment issueNo comment (remote w)) as [[cmt|e] r]; [|discriminate].
  intros H. by_file H file; cbn in H; try discriminate.
  injection H as <- <- <- <-. auto.
Qed.

(** C7 (as amended). The close-saver's forceTrunc flag is fixed by the
    file name.  For an issue it is false for summary, description,
    components, labels and links and true for every other writable file
    (assignee, reporter, creator, type, status, priority, resolution,
    transition, raw); for a comment only the comment file is writable and
    its flag is false.  Each of these files is indeed served as a
    close-saver with that flag once the issue, or the comment, has been
    fetched. *)
Theorem forceTrunc_by_file_name :
  (forall iw file (w w' : World R) sf ft oc,
      normalWalk iw file w = (Ok (Some (FCloseSaver sf ft oc)), w') ->
      ft = negb (bool_decide (file ∈ incrementalFields)))
  /\ (forall issueNo comment file (w w' : World R) sf ft oc,
         CommentView_Walk issueNo comment file w
         = (Ok (Some (FCloseSaver sf ft oc)), w') ->
         file = "comment" /\ ft = false)
  /\ (forall iw file (w : World R) issue r,
         file ∈ ["assignee"; "reporter"; "creator"; "type"; "status"; "priority";
                 "resolution"; "summary"; "description"; "components"; "labels";
                 "links"] ->
         GetIssue (iw_issueNo iw) (remote w) = (Ok issue, r) ->
         exists sf,
           normalWalk iw file w
           = (Ok (Some (FCloseSaver sf (negb (bool_decide (file ∈ incrementalFields)))
                          (NormalOnClose (iw_issueNo iw) (iw_project iw) issue file))),
              after w r [CGetIssue (iw_issueNo iw)]))
  /\ (forall issueNo comment (w : World R) cmt r,
         GetComment issueNo comment (remote w) = (Ok cmt, r) ->
         exists sf,
           CommentView_Walk issueNo comment "comment" w
           = (Ok (Some (FCloseSaver sf false (CommentOnClose issueNo comment "comment"))),
              after w r [CGetComment issueNo comment])).
Proof.
  split; [|split; [|split]].
  - intros iw file w w' sf ft oc H. apply normalWalk_cases in H as [[H _] _].
    exact H.
  - apply CommentView_Walk_cases.
  - intros iw file w issue r Hin Hg. unfold normalWalk. cbn [normalFiles].
    repeat (apply elem_of_cons in Hin as [->|Hin];
            [unfold StringExistsInSets; cbn [existsb];
             rewrite bool_decide_eq_true_2 by list_in;
             unfold bind, call; cbn; rewrite Hg; cbn; eexists; reflexivity|]).
    inversion Hin.
  - intros issueNo comment w cmt r Hg. unfold CommentView_Walk.
    unfold StringExistsInSets; cbn [existsb].
    rewrite bool_decide_eq_true_2 by list_in.
    unfold bind, call. cbn. rewrite Hg. cbn. eexists; reflexivity.
Qed.
End Claims.

(** C9 (the code departs from it). Every entry and file carries the owner
    and group "jira".  But the listing of an issue gives every file the
    read-write mode, also key, project and progress, which [Walk] serves
    read-only, and it lists comments and worklog read-write where [Walk]
    makes them read-only directories; and the listing of all issues gives
    help and structure the mode 055, which is neither of the two modes. *)
Theorem issue_listing_modes_differ_from_walk :
  forall R (tracker : Tracker R) (externals : Externals)
         project issueNo values (w : World R),
    let iw := {| iw_project := project; iw_issueNo := issueNo; iw_newIssue := false;
                 iw_values := values |} in
    Forall (fun st => st_UID st = "jira" /\ st_GID st = "jira") (IssueView_List iw)
    /\ Forall (fun name =>
                 {| st_Name := name; st_Mode := perm_rw; st_UID := "jira";
                    st_GID := "jira" |} ∈ IssueView_List iw
                 /\ match normalWalk iw name w with
                    | (Ok (Some f), _) =>
                        file_perm f = perm_ro /\ file_owner f = ("jira", "jira")
                    | _ => True
                    end)
              ["key"; "project"; "progress"]
    /\ Forall (fun name =>
                 {| st_Name := name; st_Mode := mode_or perm_rw DMDIR; st_UID := "jira";
                    st_GID := "jira" |} ∈ IssueView_List iw
                 /\ match normalWalk iw name w with
                    | (Ok (Some f), _) => file_perm f = mode_or perm_ro DMDIR
                    | _ => True
                    end)
              ["comments"; "worklog"]
    /\ match AllIssuesView_List w with
       | (Ok stats, _) =>
           {| st_Name := "help"; st_Mode := octal 0 5 5; st_UID := "jira";
              st_GID := "jira" |} ∈ stats
       | _ => True
       end
    /\ perm_ro <> perm_rw
    /\ mode_or perm_ro DMDIR <> mode_or perm_rw DMDIR
    /\ octal 0 5 5 <> perm_ro /\ octal 0 5 5 <> perm_rw.
Proof.
  intros R tracker externals project issueNo values w iw.
  assert (Hfile : forall name, name ∈ ["key"; "project"; "progress"] ->
            match normalWalk iw name w with
            | (Ok (Some f), _) => file_perm f = perm_ro /\ file_owner f = ("jira", "jira")
            | _ => True
            end).
  { intros name Hin. destruct (normalWalk iw name w) as [[[f|]|e] w'] eqn:Hw; try exact I.
    apply normalWalk_cases in Hw as [Hw Ho]. split; [|exact Ho].
    destruct f as [sf|sf ft oc|n p u g c|n p u g v]; simpl.
    - tauto.
    - destruct Hw as (_ & _ & Hn). exfalso. apply Hn.
      repeat (apply elem_of_cons in Hin as [->|Hin]; [list_in|]). inversion Hin.
    - destruct Hw as [_ ->].
      repeat (apply elem_of_cons in Hin as [Hin|Hin]; [discriminate|]). inversion Hin.
    - destruct Hw as [_ Hd]. exfalso.
      repeat (apply elem_of_cons in Hin as [->|Hin];
              [repeat (apply elem_of_cons in Hd as [Hd|Hd]; [discriminate|]);
               inversion Hd|]).
      inversion Hin. }
  assert (Hdir : forall name, name ∈ ["comments"; "worklog"] ->
            match normalWalk iw name w with
            | (Ok (Some f), _) => file_perm f = mode_or perm_ro DMDIR
            | _ => True
            end).
  { intros name Hin. destruct (normalWalk iw name w) as [[[f|]|e] w'] eqn:Hw; try exact I.
    apply normalWalk_cases in Hw as [Hw _].
    destruct f as [sf|sf ft oc|n p u g c|n p u g v]; simpl.
    - destruct Hw as [_ Hd]. exfalso.
      repeat (apply elem_of_cons in Hin as [->|Hin];
              [repeat (apply elem_of_cons in Hd as [Hd|Hd]; [discriminate|]);
               inversion Hd|]).
      inversion Hin.
    - destruct Hw as (_ & _ & Hn). exfalso. apply Hn.
      repeat (apply elem_of_cons in Hin as [->|Hin]; [list_in|]). inversion Hin.
    - destruct Hw as [_ ->].
      repeat (apply elem_of_cons in Hin as [Hin|Hin]; [discriminate|]). inversion Hin.
    - tauto. }
  split; [|split; [|split; [|split]]].
  - unfold IssueView_List. cbn. repeat constructor.
  - repeat (constructor; [split; [unfold IssueView_List; cbn; list_in
                                 |apply Hfile; list_in]|]).
    constructor.
  - repeat (constructor; [split; [unfold IssueView_List; cbn; list_in
                                 |apply Hdir; list_in]|]).
    constructor.
  - unfold AllIssuesView_List, bind, get, call, ret.
    destruct (GetKeysForSearch "" (jc_maxlisting w) (remote w)) as [[keys|e] r];
      [|exact I].
    apply elem_of_app. right. unfold StringsToStats. cbn. list_in.
  - repeat split; discriminate.
Qed.

(** ** The statements at concrete inputs *)

#[local] Existing Instance Toy.tracker.
#[local] Existing Instance Toy.externals.
#[local] Existing Instance Toy.unicode.

Lemma Path_breadth_first_witness :
  walk Toy.chain "Open" ["Start"; "Resolve"] "Closed"
  /\ (exists p, Path Toy.chain "Open" "Closed" 2 = Ok p)
  /\ Path Toy.chain "Open" "Closed" 1 = Err (ErrNoPathFound 1)
  /\ Path Toy.chain "Open" "InProgress" 1 = Ok ["Start"].
Proof.
  destruct Path_breadth_first as [H _].
  destruct (H Toy.chain "Open" "Closed" 500) as [H1 _].
  destruct (H1 ["Start"; "Resolve"]) as (Hw & Hl & Hmin); [vm_compute; reflexivity|].
  split; [exact Hw|]. split; [|split].
  - destruct (H Toy.chain "Open" "Closed" 2) as (_ & H2 & _). apply H2.
    exists ["Start"; "Resolve"]. split; [exact Hw|simpl; lia].
  - destruct (H Toy.chain "Open" "Closed" 1) as (_ & _ & H3 & _). apply H3.
    intros q Hq. apply Hmin in Hq. simpl in Hq. lia.
  - destruct (H Toy.chain "Open" "InProgress" 0) as (_ & _ & _ & _ & _ & H6).
    apply (H6 {| transitionName := "Start"; targetStatus := "InProgress" |});
      [discriminate|vm_compute; reflexivity].
Defined.

Lemma status_write_walks_the_path_witness :
  (exists r,
      normalWalk_onClose "ABC-1" "ABC" Toy.issue1 "status"
        ("Closed" +:+ NL) (Toy.world Toy.state0)
      = (Ok tt, after (Toy.world Toy.state0) r
                  [CGetIssue "ABC-1"; CBuildWorkflow2 "ABC" "10";
                   CTransitionIssue "ABC-1" "Start"; CTransitionIssue "ABC-1" "Resolve"]))
  /\ (exists r,
         normalWalk_onClose "ABC-1" "ABC" Toy.issue1 "status"
           ("Closed" +:+ NL) (Toy.world Toy.state_refusing)
         = (Err (ErrRemote "transition refused"),
            after (Toy.world Toy.state_refusing) r
              [CGetIssue "ABC-1"; CBuildWorkflow2 "ABC" "10";
               CTransitionIssue "ABC-1" "Start"; CTransitionIssue "ABC-1" "Resolve"])).
Proof.
  split.
  - destruct (status_write_walks_the_path
                "ABC-1" "ABC" Toy.issue1 ("Closed" +:+ NL) (Toy.world Toy.state0)
                Toy.issue1 Toy.fields0 "Open" Toy.state0 Toy.chain Toy.state0
                ["Start"; "Resolve"]) as [Hok _];
      [reflexivity|reflexivity|reflexivity|reflexivity|vm_compute; reflexivity|].
    eexists. eapply Hok.
    eapply ta_cons; [vm_compute; reflexivity|].
    eapply ta_cons; [vm_compute; reflexivity|]. apply ta_nil.
  - destruct (status_write_walks_the_path
                "ABC-1" "ABC" Toy.issue1 ("Closed" +:+ NL) (Toy.world Toy.state_refusing)
                Toy.issue1 Toy.fields0 "Open" Toy.state_refusing Toy.chain
                Toy.state_refusing ["Start"; "Resolve"]) as [_ Hstop];
      [reflexivity|reflexivity|reflexivity|reflexivity|vm_compute; reflexivity|].
    eexists. eapply (Hstop ["Start"] "Resolve" []).
    + reflexivity.
    + eapply ta_cons; [vm_compute; reflexivity|]. apply ta_nil.
    + vm_compute. reflexivity.
Defined.

Lemma links_write_diffs_lines_witness :
  exists dels creates r,
    normalWalk_onClose "ABC-1" "ABC" Toy.issue1 "links"
      ("ABC-1 ABC-4 Relates" +:+ NL +:+ "ABC-1 ABC-4" +:+ NL) (Toy.world Toy.state0)
    = (Ok tt, after (Toy.world Toy.state0) r
                (map CDeleteIssueLink dels ++ map link_call creates))
    /\ dels = ["7"] /\ creates = [("ABC-1", "ABC-4", "Relates")].
Proof.
  destruct (links_write_diffs_lines (R := Toy.State)) as [H _].
  destruct (H "ABC-1" "ABC" Toy.issue1 Toy.fields0
              ("ABC-1 ABC-4 Relates" +:+ NL +:+ "ABC-1 ABC-4" +:+ NL)
              (Toy.world Toy.state0) eq_refl)
    as (dels & creates & r & Hrun & _ & Hdel & Hnew & _).
  exists dels, creates, r. split; [exact Hrun|]. split.
  - apply Permutation_singleton_r. rewrite (Hdel (NoDup_singleton _)).
    vm_compute. reflexivity.
  - rewrite Hnew. vm_compute. reflexivity.
Defined.

Lemma commit_is_one_way_witness :
  (exists w,
      newWalk_commit [] (Toy.draft, Toy.world Toy.state0)
      = (Ok tt, ({| iw_project := "ABC"; iw_issueNo := "ABC-9"; iw_newIssue := false;
                    iw_values := iw_values Toy.draft |}, w))
      /\ newWalk_commit []
           ({| iw_project := "ABC"; iw_issueNo := "ABC-9"; iw_newIssue := false;
               iw_values := iw_values Toy.draft |}, w)
         = (Err (ErrorString "issue already committed"),
            ({| iw_project := "ABC"; iw_issueNo := "ABC-9"; iw_newIssue := false;
                iw_values := iw_values Toy.draft |}, w)))
  /\ (exists w,
         newWalk_commit []
           ({| iw_project := ""; iw_issueNo := ""; iw_newIssue := true;
               iw_values := None |}, Toy.world Toy.state0)
         = (Err (ErrRemote "project and issue type are required"),
            ({| iw_project := ""; iw_issueNo := ""; iw_newIssue := true;
                iw_values := None |}, w))).
Proof.
  split.
  - destruct (commit_is_one_way [] Toy.draft
                (Toy.world Toy.state0) "Bug" "Title" "" "ABC")
      as (Hok & _ & _); [vm_compute; reflexivity|].
    edestruct (Hok "ABC-9") as [Hrun Hlater]; [reflexivity|vm_compute; reflexivity|].
    eexists. split; [exact Hrun|].
    destruct (Hlater [] [] _ eq_refl) as (_ & _ & Hagain). exact Hagain.
  - destruct (commit_is_one_way []
                {| iw_project := ""; iw_issueNo := ""; iw_newIssue := true;
                   iw_values := None |}
                (Toy.world Toy.state0) "" "" "" "")
      as (_ & Hfail & _); [reflexivity|].
    eexists. apply Hfail; [reflexivity|vm_compute; reflexivity].
Defined.

Lemma search_view_lists_afresh_witness :
  (exists s,
      @SearchView_List _ Toy.tracker
        ({| sw_query := "project = ABC"; sw_results := ["OLD-1"] |}, Toy.world Toy.state0)
      = (Ok (StringsToStats ["ABC-1"] (mode_or perm_ro DMDIR) "jira" "jira"), s)
      /\ sw_results (fst s) = ["ABC-1"])
  /\ SearchView_Walk "ABC-1"
       ({| sw_query := "project = ABC"; sw_results := ["OLD-1"] |}, Toy.world Toy.state0)
     = (Err ErrNoSuchFile,
        ({| sw_query := "project = ABC"; sw_results := ["OLD-1"] |}, Toy.world Toy.state0))
  /\ exists f s,
      SearchView_Walk "ABC-1"
        ({| sw_query := "project = ABC"; sw_results := ["ABC-1"] |}, Toy.world Toy.state0)
      = (Ok (Some f), s).
Proof.
  destruct (search_view_lists_afresh (R := Toy.State))
    as (HList & _ & _ & Hout & Hin).
  split; [|split].
  - eexists. split.
    + apply (HList {| sw_query := "project = ABC"; sw_results := ["OLD-1"] |}
               (Toy.world Toy.state0) ["ABC-1"] Toy.state0).
      vm_compute. reflexivity.
    + reflexivity.
  - apply Hout. vm_compute. list_notin.
  - do 2 eexists.
    apply (Hin {| sw_query := "project = ABC"; sw_results := ["ABC-1"] |}
             (Toy.world Toy.state0) "ABC-1" Toy.issue1 Toy.fields0 Toy.state0);
      [apply list_elem_of_here|reflexivity|reflexivity].
Defined.

Lemma root_remove_witness :
  let jw := {| jw_searches :=
                 Some {[ "mine" := {| sw_query := "assignee = me"; sw_results := [] |} ]} |} in
  JiraView_Remove "ctl" (jw, Toy.world Toy.state0)
  = (Err ErrPermissionDenied, (jw, Toy.world Toy.state0))
  /\ fst (JiraView_Remove "mine" (jw, Toy.world Toy.state0)) = Ok tt
  /\ fst (JiraView_Walk "mine"
            (snd (JiraView_Remove "mine" (jw, Toy.world Toy.state0))))
     = Ok None
  /\ fst (JiraView_Remove "other" (jw, Toy.world Toy.state0))
     = Err ErrNoSuchFile.
Proof.
  intros jw.
  destruct (root_remove (R := Toy.State)) as (Hres & Hdel & Hno).
  split; [apply Hres; list_in|].
  destruct (Hdel "mine" jw (Toy.world Toy.state0)) as [Hrm Hwalk];
    [unfold reservedNames; list_notin|vm_compute; eauto|].
  split; [now rewrite Hrm|]. split; [exact (Hwalk [])|].
  rewrite Hno; [reflexivity|unfold reservedNames; list_notin|vm_compute; reflexivity].
Defined.

Lemma forceTrunc_by_file_name_witness :
  (exists sf,
      normalWalk Toy.view1 "summary" (Toy.world Toy.state0)
      = (Ok (Some (FCloseSaver sf false
                     (NormalOnClose "ABC-1" "ABC" Toy.issue1 "summary"))),
         after (Toy.world Toy.state0) Toy.state0 [CGetIssue "ABC-1"]))
  /\ (exists sf,
         normalWalk Toy.view1 "assignee" (Toy.world Toy.state0)
         = (Ok (Some (FCloseSaver sf true
                        (NormalOnClose "ABC-1" "ABC" Toy.issue1 "assignee"))),
            after (Toy.world Toy.state0) Toy.state0 [CGetIssue "ABC-1"])).
Proof.
  destruct (forceTrunc_by_file_name (R := Toy.State)) as (_ & _ & H & _).
  split.
  - apply (H Toy.view1 "summary" (Toy.world Toy.state0) Toy.issue1 Toy.state0);
      [list_in|reflexivity].
  - apply (H Toy.view1 "assignee" (Toy.world Toy.state0) Toy.issue1 Toy.state0);
      [list_in|reflexivity].
Defined.

Lemma commit_removes_line_breaks_witness :
  normalWalk_onClose "ABC-1" "ABC" Toy.issue1 "assignee"
    ("bob" +:+ NL) (Toy.world Toy.state0)
  = (Ok tt, after (Toy.world Toy.state0) Toy.state0
              [CSetFieldInIssue "ABC-1" "assignee" "bob"])
  /\ normalWalk_onClose "ABC-1" "ABC" Toy.issue1 "labels"
       ("ui" +:+ NL +:+ "cli" +:+ NL) (Toy.world Toy.state0)
     = (Ok tt, after (Toy.world Toy.state0) Toy.state0
                 [CSetFieldInIssue "ABC-1" "labels" ("ui" +:+ NL +:+ "cli" +:+ NL)])
  /\ removeAll nl ("Closed" +:+ NL +:+ NL) = trimRightNL ("Closed" +:+ NL +:+ NL).
Proof.
  split; [|split].
  - destruct (commit_removes_line_breaks "ABC-1" "ABC"
                Toy.issue1 ("bob" +:+ NL) (Toy.world Toy.state0)) as (_ & _ & H & _).
    rewrite H; [reflexivity|list_notin|list_notin].
  - destruct (commit_removes_line_breaks "ABC-1" "ABC"
                Toy.issue1 ("ui" +:+ NL +:+ "cli" +:+ NL) (Toy.world Toy.state0))
      as (_ & _ & _ & H & _).
    rewrite H; [reflexivity|list_in].
  - destruct (commit_removes_line_breaks "ABC-1" "ABC"
                Toy.issue1 ("Closed" +:+ NL +:+ NL) (Toy.world Toy.state0))
      as (_ & _ & _ & _ & H).
    apply H. vm_compute. list_notin.
Defined.

Lemma issue_names_checked_locally_witness :
  ProjectIssuesView_Walk "ABC" "12x" (Toy.world Toy.state0)
  = (Ok None, Toy.world Toy.state0)
  /\ ParseUint "1-2" = None
  /\ AllIssuesView_Walk "7" (Toy.world Toy.state0)
     = (Ok None, Toy.world Toy.state0).
Proof.
  destruct (issue_names_checked_locally (R := Toy.State)) as (H1 & H2 & H3).
  split; [|split].
  - apply H1; [discriminate|reflexivity].
  - apply H2. right. exists "-"%char. split; [vm_compute; list_in|reflexivity].
  - apply H3; [list_notin|].
    intros (prefix & number & Heq & _).
    destruct prefix as [|c [|d prefix]]; discriminate.
Defined.

(** ** Inputs that tell the code from a stricter reading *)

(** C3: a line with three whitespace-separated tokens, the first of them
    the issue's key, that is no link's rendering, is not created when two
    spaces stand between its tokens. *)
Lemma links_whitespace_counterexample :
  let line := "ABC-1  ABC-3 Relates" in
  whitespaceFields line = ["ABC-1"; "ABC-3"; "Relates"]
  /\ line <> renderIssueLink
               {| link_ID := "7"; OutwardIssue := Some "ABC-2"; InwardIssue := None;
                  link_TypeName := "Blocks" |} "ABC-1"
  /\ IssueLinks Toy.fields0
     = [ {| link_ID := "7"; OutwardIssue := Some "ABC-2"; InwardIssue := None;
            link_TypeName := "Blocks" |} ]
  /\ normalWalk_onClose "ABC-1" "ABC" Toy.issue1 "links"
       ("ABC-1 ABC-2 Blocks" +:+ NL +:+ line +:+ NL) (Toy.world Toy.state0)
     = (Ok tt, Toy.world Toy.state0).
Proof. vm_compute. repeat split. discriminate. Qed.

(** C7: summary is committed as a single line, yet its flag is false. *)
Lemma summary_forceTrunc_counterexample :
  singleLineField "summary"
  /\ exists sf oc w,
      normalWalk Toy.view1 "summary" (Toy.world Toy.state0)
      = (Ok (Some (FCloseSaver sf false oc)), w).
Proof.
  split.
  - intros issueNo project issue content w. reflexivity.
  - do 3 eexists. vm_compute. reflexivity.
Qed.

(** C8: a line break inside the buffer goes as well, so what is interpreted
    is not the buffer without its trailing line breaks. *)
Lemma inner_line_break_counterexample :
  let content := "In" +:+ NL +:+ "Progress" +:+ NL in
  trimRightNL content = "In" +:+ NL +:+ "Progress"
  /\ calls (snd (normalWalk_onClose "ABC-1" "ABC"
                   Toy.issue1 "transition" content (Toy.world Toy.state0)))
     = [CTransitionIssue "ABC-1" "InProgress"]
  /\ "InProgress" <> trimRightNL content.
Proof. vm_compute. repeat split. discriminate. Qed.

(** ** Further properties of the views *)

Ltac case_file H file :=
  repeat match type of H with
         | context [String.eqb file ?b] =>
             destruct (String.eqb_spec file b) as [->|?]
         end.

Lemma lines_acc l acc :
  fold_left (fun s x => s +:+ x +:+ NL) l acc
  = acc +:+ fold_left (fun s x => s +:+ x +:+ NL) l "".
Proof.
  revert acc. induction l as [|x l IH]; intros acc; simpl.
  - now rewrite append_nil_r.
  - rewrite IH. rewrite (IH ("" +:+ x +:+ NL)).
    now rewrite append_nil_l, !append_assoc.
Qed.

Lemma lines_cons x l : lines (x :: l) = x +:+ NL +:+ lines l.
Proof.
  unfold lines. simpl. rewrite lines_acc. now rewrite append_nil_l, append_assoc.
Qed.

Lemma Split_lines l :
  Forall (fun s => ~ hasByte nl s) l -> Split (lines l) nl = l ++ [""].
Proof.
  induction 1 as [|x l Hx _ IH]; [reflexivity|].
  rewrite lines_cons. change (x +:+ NL +:+ lines l) with (x +:+ String nl (lines l)).
  rewrite Split_app_sep by exact Hx. now rewrite IH.
Qed.

Lemma removeAll_app c a b : removeAll c (a +:+ b) = removeAll c a +:+ removeAll c b.
Proof.
  induction a as [|x a IH]; [reflexivity|]. rewrite append_cons. simpl.
  destruct (Ascii.eqb x c); rewrite ?append_cons; now rewrite IH.
Qed.

Lemma removeAll_free c a : ~ hasByte c a -> removeAll c a = a.
Proof.
  unfold hasByte. induction a as [|x a IH]; simpl; intros Ha; [reflexivity|].
  destruct (Ascii.eqb_spec x c) as [->|Hne].
  - exfalso. apply Ha. apply elem_of_cons. now left.
  - rewrite IH; [reflexivity|]. intros Hin. apply Ha. apply elem_of_cons. now right.
Qed.

Lemma removeAll_line v : ~ hasByte nl v -> removeAll nl (v +:+ NL) = v.
Proof.
  intros Hv. rewrite removeAll_app, removeAll_free by exact Hv.
  change (removeAll nl NL) with "". apply append_nil_r.
Qed.

Lemma scan_matching l : forall (cur : gmap string string) new,
  NoDup l -> (forall s, s ∈ l -> s <> "" /\ is_Some (cur !! s)) ->
  fold_left scan_step l (cur, new) = (fold_left (fun m s => delete s m) l cur, new).
Proof.
  induction l as [|x l IH]; intros cur new Hnd Hl; simpl; [reflexivity|].
  apply NoDup_cons in Hnd as [Hx Hnd].
  destruct (Hl x) as [Hne [v Hv]]; [apply elem_of_cons; now left|].
  rewrite (proj2 (String.eqb_neq x "") Hne), Hv. apply IH; [exact Hnd|].
  intros s Hs. destruct (Hl s) as [Hs1 Hs2]; [apply elem_of_cons; now right|].
  split; [exact Hs1|]. rewrite lookup_delete_ne; [exact Hs2|].
  intros ->. contradiction.
Qed.

Lemma lookup_delete_all l : forall (m : gmap string string) k,
  fold_left (fun m s => delete s m) l m !! k
  = if decide (k ∈ l) then None else m !! k.
Proof.
  induction l as [|x l IH]; intros m k; simpl.
  - destruct (decide (k ∈ [])) as [Hin|_]; [inversion Hin|reflexivity].
  - rewrite IH. destruct (decide (k ∈ l)) as [Hin|Hout].
    + rewrite decide_True; [reflexivity|apply elem_of_cons; now right].
    + destruct (decide (k = x)) as [->|Hne].
      * rewrite lookup_delete_eq. rewrite decide_True; [reflexivity|].
        apply elem_of_cons. now left.
      * rewrite lookup_delete_ne by congruence. rewrite decide_False; [reflexivity|].
        intros Hin. apply elem_of_cons in Hin as [?|?]; contradiction.
Qed.

Lemma scan_trailing_empty (acc : gmap string string * list string) :
  scan_step acc "" = acc.
Proof. now destruct acc. Qed.

Section Extras.
Context {R : Type} {tracker : Tracker R} {externals : Externals} {unicode : Unicode}
        {more_tracker : TrackerMore R} {runtime : Runtime}.

Lemma in_normalFiles file :
  file ∈ fst normalFiles ++ snd normalFiles ->
  StringExistsInSets file [fst normalFiles; snd normalFiles] = true.
Proof.
  intros Hin. unfold StringExistsInSets. cbn [existsb].
  apply elem_of_app in Hin as [Hin|Hin].
  - now rewrite bool_decide_eq_true_2.
  - rewrite (bool_decide_eq_true_2 _ Hin). now rewrite orb_true_r.
Qed.

Lemma normalWalk_fetched iw file (w : World R) issue r :
  file ∈ fst normalFiles ++ snd normalFiles ->
  GetIssue (iw_issueNo iw) (remote w) = (Ok issue, r) ->
  normalWalk iw file w
  = (let* prep := normalWalk_switch iw issue file in
     match prep with
     | Return f => ret f
     | Content cnt forceTrunc writable =>
         let perm := if writable then perm_rw else perm_ro in
         let sf := SetContent (NewSyntheticFile file perm "jira" "jira") cnt in
         if writable
         then ret (Some (FCloseSaver sf forceTrunc
                           (NormalOnClose (iw_issueNo iw) (iw_project iw) issue file)))
         else ret (Some (FSynthetic sf))
     end) (after w r [CGetIssue (iw_issueNo iw)]).
Proof.
  intros Hin Hg. unfold normalWalk.
  change normalFiles with (fst normalFiles, snd normalFiles). cbv iota beta.
  rewrite (in_normalFiles file Hin). cbn [negb].
  unfold bind at 1. unfold call. rewrite Hg. reflexivity.
Qed.

(** X1. Reading the links file and writing the same text back is quiet:
    when the links render to pairwise different, non-empty lines without
    line breaks, the commit of the text that [Walk] serves returns nil
    without a single call to the tracker. *)
Theorem links_written_back_unchanged :
  forall iw (w w1 : World R) sf ft issueNo project issue file fields,
    normalWalk iw "links" w
    = (Ok (Some (FCloseSaver sf ft (NormalOnClose issueNo project issue file))), w1) ->
    Fields issue = Some fields ->
    let renders := map (fun l => renderIssueLink l (Key issue)) (IssueLinks fields) in
    NoDup renders ->
    Forall (fun s => s <> "" /\ ~ hasByte nl s) renders ->
    forall w2 : World R,
      normalWalk_onClose issueNo project issue file (sf_Content sf) w2 = (Ok tt, w2).
Proof.
  intros iw w w1 sf ft issueNo project issue file fields Hw Hf renders Hnd Hall w2.
  unfold normalWalk in Hw. cbn [normalFiles] in Hw.
  destruct (StringExistsInSets "links" _); cbn [negb] in Hw; [|discriminate].
  unfold bind, call in Hw.
  destruct (GetIssue (iw_issueNo iw) (remote w)) as [[issue'|e] r]; [|discriminate].
  cbn in Hw. injection Hw as Hsf _ Hi Hp Hiss Hfile _. subst sf issueNo project issue' file.
  cbn [sf_Content SetContent]. rewrite Hf.
  change (links_onClose issue (lines renders) w2 = (Ok tt, w2)).
  unfold links_onClose. rewrite Hf.
  rewrite Split_lines
    by (eapply Forall_impl; [exact Hall|]; intros s [_ Hs]; exact Hs).
  unfold links_scan. rewrite fold_left_app.
  rewrite (scan_matching renders _ [] Hnd).
  2:{ intros s Hs. split.
      - rewrite Forall_forall in Hall. now apply Hall.
      - apply list_elem_of_fmap in Hs as (l & -> & Hl).
        rewrite (links_cur_distinct issue _ Hnd l Hl). eauto. }
  cbn [fold_left]. rewrite scan_trailing_empty.
  assert (Hcur : fold_left (fun m s => delete s m) renders
                   (links_cur issue (IssueLinks fields)) = ∅).
  { apply map_eq. intros k. rewrite lookup_delete_all, lookup_empty.
    destruct (decide (k ∈ renders)) as [Hin|Hout]; [reflexivity|].
    apply links_cur_none. intros l Hl Hk. apply Hout.
    apply list_elem_of_fmap. exists l. auto. }
  rewrite Hcur.
  assert (Hempty : rangeOrder ∅ = []).
  { apply Permutation_nil_r. rewrite rangeOrder_perm. now rewrite map_to_list_empty. }
  rewrite Hempty. reflexivity.
Qed.
(** X2. Reading a single-line file of an issue and writing the text back
    sends the tracker's own value: for assignee, reporter, creator, summary,
    type, priority and resolution, when the value is present and has no line
    break, [Walk] serves the value followed by one line break and the commit
    of that text calls SetFieldInIssue with exactly the value. *)
Theorem scalar_written_back_unchanged :
  forall iw (w : World R) issue r fields file v,
    GetIssue (iw_issueNo iw) (remote w) = (Ok issue, r) ->
    Fields issue = Some fields ->
    scalar_of fields file = Some v ->
    ~ hasByte nl v ->
    exists sf ft,
      normalWalk iw file w
      = (Ok (Some (FCloseSaver sf ft
                     (NormalOnClose (iw_issueNo iw) (iw_project iw) issue file))),
         after w r [CGetIssue (iw_issueNo iw)])
      /\ sf_Content sf = v +:+ NL
      /\ forall w2 : World R,
          normalWalk_onClose (iw_issueNo iw) (iw_project iw) issue file (sf_Content sf) w2
          = call (CSetFieldInIssue (Key issue) file v)
                 (SetFieldInIssue (Key issue) file v) w2.
Proof.
  intros iw w issue r fields file v Hg Hf Hv Hnl.
  unfold scalar_of in Hv.
  case_file Hv file; cbn in Hv; try discriminate;
    (rewrite (normalWalk_fetched iw _ w issue r) by (try exact Hg; cbn; list_in);
     unfold normalWalk_switch; cbn; rewrite Hf; cbn;
     try rewrite Hv; try (injection Hv as <-);
     do 2 eexists; split; [reflexivity|]; split; [reflexivity|];
     intros w2; cbn; unfold normalWalk_onClose; cbn;
     rewrite (removeAll_line _ Hnl); reflexivity).
Qed.

(** X3. Reading the description and writing the text back does not send
    the tracker's value: [Walk] serves the description followed by a line
    break, and the commit sends the served text as it is, so the value
    grows by one line break. *)
Theorem description_written_back_grows :
  forall iw (w : World R) issue r fields,
    GetIssue (iw_issueNo iw) (remote w) = (Ok issue, r) ->
    Fields issue = Some fields ->
    exists sf,
      normalWalk iw "description" w
      = (Ok (Some (FCloseSaver sf false
                     (NormalOnClose (iw_issueNo iw) (iw_project iw) issue "description"))),
         after w r [CGetIssue (iw_issueNo iw)])
      /\ sf_Content sf = Description fields +:+ NL
      /\ forall w2 : World R,
          normalWalk_onClose (iw_issueNo iw) (iw_project iw) issue "description"
            (sf_Content sf) w2
          = call (CSetFieldInIssue (Key issue) "description" (Description fields +:+ NL))
                 (SetFieldInIssue (Key issue) "description" (Description fields +:+ NL))
                 w2.
Proof.
  intros iw w issue r fields Hg Hf.
  rewrite (normalWalk_fetched iw _ w issue r) by (try exact Hg; cbn; list_in).
  unfold normalWalk_switch; cbn. rewrite Hf. cbn.
  eexists. split; [reflexivity|]. split; reflexivity.
Qed.
(** *** Drafts of a new issue *)

Lemma newWalk_draft file iw (w : World R) :
  file ∈ ["description"; "type"; "summary"; "project"] ->
  newWalk file (iw, w)
  = (Ok (Some (FCloseSaver
                 {| sf_name := file; sf_perm := perm_rw; sf_user := "jira";
                    sf_group := "jira";
                    sf_Content := match iw_values iw with
                                  | Some m => m !!! file
                                  | None => ""
                                  end |}
                 NewCloseSaver_forceTrunc (NewOnClose file))),
     (set_values iw (Some (match iw_values iw with Some m => m | None => ∅ end)), w)).
Proof.
  intros Hin. unfold newWalk. cbn [newFiles].
  unfold StringExistsInSets. cbn [existsb].
  rewrite (bool_decide_eq_true_2 (file ∈ ["ctl"; "description"; "type"; "summary";
                                          "project"]))
    by (repeat (apply elem_of_cons in Hin as [->|Hin]; [list_in|]); inversion Hin).
  cbn [orb negb].
  repeat (apply elem_of_cons in Hin as [->|Hin];
          [cbn; unfold bind, getV, putV, ret, NewCloseSaver, SetContent; cbn;
           destruct (iw_values iw); reflexivity|]).
  inversion Hin.
Qed.

(** X4. A draft file gives back what was last written to it: after a walk
    to one of description, type, summary, project and a close with some
    text, a new walk to that file serves exactly that text, the other
    drafts are as they were, and the tracker is not contacted. *)
Theorem draft_read_after_write :
  forall iw (w : World R) file content,
    file ∈ ["description"; "type"; "summary"; "project"] ->
    let s1 := snd (newWalk file (iw, w)) in
    let s2 := snd (newWalk_onClose file content s1) in
    fst (newWalk_onClose file content s1) = Ok tt
    /\ (exists sf ft oc,
           newWalk file s2 = (Ok (Some (FCloseSaver sf ft oc)), s2)
           /\ sf_Content sf = content)
    /\ snd s2 = w
    /\ forall other m1 m2,
        other <> file -> iw_values (fst s1) = Some m1 -> iw_values (fst s2) = Some m2 ->
        m2 !! other = m1 !! other.
Proof.
  intros iw w file content Hin s1 s2. subst s1 s2.
  rewrite (newWalk_draft file iw w Hin). cbn [snd].
  unfold newWalk_onClose, bind, getV, putV. cbn [fst snd iw_values set_values].
  split; [reflexivity|]. split; [|split; [reflexivity|]].
  - rewrite (newWalk_draft file _ w Hin). cbn [fst snd iw_values set_values].
    do 3 eexists. split.
    + unfold set_values. cbn [iw_project iw_issueNo iw_newIssue iw_values].
      reflexivity.
    + apply lookup_total_insert_eq.
  - intros other m1 m2 Hne [= <-] [= <-]. now rewrite lookup_insert_ne.
Qed.

(** X5. Commit sends what was last written to the drafts: once type,
    summary, description and project have been closed with some texts, the
    request is the type, summary and project without their line breaks and
    the description as written, whatever the drafts held before; a project
    draft that is blank gives way to the project of the containing view. *)
Theorem commit_sends_the_drafts :
  forall iw m (w : World R) ty su de pr,
    iw_values iw = Some m ->
    let s := drafted (iw, w) ty su de pr in
    commit_request (fst s)
    = (removeAll nl ty, removeAll nl su, de,
       if String.eqb (removeAll nl pr) "" && negb (String.eqb (iw_project iw) "")
       then iw_project iw else removeAll nl pr)
    /\ snd s = w
    /\ (iw_newIssue iw = true ->
        forall key r,
          CreateIssue (removeAll nl ty)
            (if String.eqb (removeAll nl pr) "" && negb (String.eqb (iw_project iw) "")
             then iw_project iw else removeAll nl pr)
            (removeAll nl su) de (remote w) = (Ok key, r) ->
          fst (newWalk_commit [] s) = Ok tt
          /\ iw_issueNo (fst (snd (newWalk_commit [] s))) = key).
Proof.
  intros iw m w ty su de pr Hm s.
  assert (Hs : s = ({| iw_project := iw_project iw; iw_issueNo := iw_issueNo iw;
                       iw_newIssue := iw_newIssue iw;
                       iw_values := Some (<["project" := pr]>
                                            (<["description" := de]>
                                               (<["summary" := su]>
                                                  (<["type" := ty]> m)))) |}, w)).
  { subst s. unfold drafted, newWalk_onClose, bind, getV, putV, set_values. cbn.
    rewrite Hm. reflexivity. }
  assert (Hreq : commit_request (fst s)
                 = (removeAll nl ty, removeAll nl su, de,
                    if String.eqb (removeAll nl pr) ""
                       && negb (String.eqb (iw_project iw) "")
                    then iw_project iw else removeAll nl pr)).
  { rewrite Hs. unfold commit_request. cbn [fst iw_values iw_project].
    unfold lookup_total, map_lookup_total.
    rewrite lookup_insert_eq.
    rewrite (lookup_insert_ne _ "project" "description") by discriminate.
    rewrite lookup_insert_eq.
    rewrite (lookup_insert_ne _ "project" "summary") by discriminate.
    rewrite (lookup_insert_ne _ "description" "summary") by discriminate.
    rewrite lookup_insert_eq.
    rewrite (lookup_insert_ne _ "project" "type") by discriminate.
    rewrite (lookup_insert_ne _ "description" "type") by discriminate.
    rewrite (lookup_insert_ne _ "summary" "type") by discriminate.
    rewrite lookup_insert_eq. reflexivity. }
  split; [exact Hreq|]. split; [now rewrite Hs|].
  intros Hnew key r Hc.
  destruct s as [iw' w']. injection Hs as -> ->. cbn [fst] in Hreq.
  unfold newWalk_commit, bind, getV, putV, liftW, call, throw. cbn [fst snd].
  rewrite Hreq. cbn [iw_newIssue]. rewrite Hnew. cbn [negb]. rewrite Hc. cbn.
  split; reflexivity.
Qed.

(** *** Names that are not served *)

(** X6. An issue view answers a name it does not serve without contacting
    the tracker, in both modes and leaving every state as it is; a name it
    does serve in normal mode costs a GetIssue first, and when that fails
    the error is all the walk returns. *)
Theorem unknown_names_cost_nothing :
  (forall iw (w : World R) file,
      file ∉ fst normalFiles ++ snd normalFiles ->
      normalWalk iw file w = (Ok None, w))
  /\ (forall iw (w : World R) file,
         file ∉ fst newFiles ->
         newWalk file (iw, w) = (Ok None, (iw, w)))
  /\ (forall iw (w : World R) file e r,
         file ∈ fst normalFiles ++ snd normalFiles ->
         GetIssue (iw_issueNo iw) (remote w) = (Err e, r) ->
         normalWalk iw file w = (Err e, after w r [CGetIssue (iw_issueNo iw)])).
Proof.
  split; [|split].
  - intros iw w file Hout. unfold normalWalk. cbn [normalFiles].
    unfold StringExistsInSets. cbn [existsb].
    rewrite !bool_decide_eq_false_2; [reflexivity| |];
      intros Hin; apply Hout; apply elem_of_app; [now right|now left].
  - intros iw w file Hout. unfold newWalk. cbn [newFiles].
    unfold StringExistsInSets. cbn [existsb].
    rewrite !bool_decide_eq_false_2; [reflexivity|apply not_elem_of_nil|exact Hout].
  - intros iw w file e r Hin Hg. unfold normalWalk.
    change normalFiles with (fst normalFiles, snd normalFiles). cbv iota beta.
    rewrite (in_normalFiles file Hin). cbn [negb].
    unfold bind at 1. unfold call. now rewrite Hg.
Qed.

(** X7. In new mode the listing and the walk agree: every entry the view
    lists can be walked, the file has the listed mode and owner, and the
    walk contacts nothing. *)
Theorem new_mode_listing_matches_walk :
  forall iw (w : World R),
    iw_newIssue iw = true ->
    Forall (fun st =>
              exists f s,
                IssueView_Walk (st_Name st) (iw, w) = (Ok (Some f), s)
                /\ file_perm f = st_Mode st
                /\ file_owner f = (st_UID st, st_GID st)
                /\ snd s = w)
           (IssueView_List iw).
Proof.
  intros iw w Hnew. unfold IssueView_List. rewrite Hnew.
  unfold StringsToStats. cbn [newFiles map app].
  assert (Hwalk : forall file, IssueView_Walk file (iw, w) = newWalk file (iw, w)).
  { intros file. unfold IssueView_Walk, bind, getV. cbn. now rewrite Hnew. }
  assert (Hctl : newWalk "ctl" (iw, w)
                 = (Ok (Some (NewCommandFile "ctl" perm_rw "jira" "jira" ["commit"])),
                    (iw, w))).
  { unfold newWalk. cbn [newFiles]. unfold StringExistsInSets. cbn [existsb].
    rewrite bool_decide_eq_true_2 by list_in. reflexivity. }
  constructor.
  { do 2 eexists. cbn [st_Name st_Mode st_UID st_GID]. rewrite Hwalk, Hctl.
    repeat split. }
  repeat (constructor;
          [do 2 eexists; cbn [st_Name st_Mode st_UID st_GID];
           rewrite Hwalk, newWalk_draft by list_in; repeat split|]).
  constructor.
Qed.
(** *** Searches *)

(** X8. A listing whose query fails returns the error and keeps the
    result list of the last successful listing: a later walk resolves every
    name exactly as it did before the failed listing. *)
Theorem failed_listing_keeps_results :
  forall sw (w : World R) e r,
    GetKeysForSearch (sw_query sw) (jc_maxlisting w) (remote w) = (Err e, r) ->
    SearchView_List (sw, w)
    = (Err e, (sw, after w r [CGetKeysForSearch (sw_query sw) (jc_maxlisting w)]))
    /\ forall file (w2 : World R),
        SearchView_Walk file (fst (snd (SearchView_List (sw, w))), w2)
        = SearchView_Walk file (sw, w2).
Proof.
  intros sw w e r Hq.
  assert (HL : SearchView_List (sw, w)
               = (Err e, (sw, after w r [CGetKeysForSearch (sw_query sw)
                                           (jc_maxlisting w)]))).
  { unfold SearchView_List, SearchView_search, bind, getV, getW, liftW, call.
    cbn [fst snd]. now rewrite Hq. }
  split; [exact HL|]. intros file w2. now rewrite HL.
Qed.

Lemma search_stored name q qs (jw : JiraView) (w : World R) keys r :
  GetKeysForSearch (Join (q :: qs) " ") (jc_maxlisting w) (remote w) = (Ok keys, r) ->
  JiraView_search (name :: q :: qs) (jw, w)
  = (Ok tt,
     ({| jw_searches :=
           Some (<[name := {| sw_query := Join (q :: qs) " "; sw_results := keys |}]>
                   (searches_of jw)) |},
      after w r [CGetKeysForSearch (Join (q :: qs) " ") (jc_maxlisting w)])).
Proof.
  intros Hq. unfold JiraView_search, SearchView_search, bind, getV, getW, putV, liftW,
    call. cbn [fst snd sw_query]. now rewrite Hq.
Qed.

(** X9. The search command and the walk fit together: a search given a
    name and a query of one or more words runs the words joined by single
    spaces at once, and when the tracker answers, a walk to that name (if it
    is none of the five fixed names) returns the directory of a search with
    that query and those results, whatever was stored under the name before.
    Without a query, or when the tracker fails, nothing is stored. *)
Theorem search_then_walk :
  (forall name q qs (jw : JiraView) (w : World R) keys r,
      name ∉ reservedNames ->
      GetKeysForSearch (Join (q :: qs) " ") (jc_maxlisting w) (remote w) = (Ok keys, r) ->
      fst (JiraView_search (name :: q :: qs) (jw, w)) = Ok tt
      /\ fst (JiraView_Walk name (snd (JiraView_search (name :: q :: qs) (jw, w))))
         = Ok (Some (FJiraDir name (mode_or perm_ro DMDIR) "jira" "jira"
                       (VSearch {| sw_query := Join (q :: qs) " ";
                                   sw_results := keys |}))))
  /\ (forall args (s : JiraView * World R),
         length args < 2 ->
         JiraView_search args s = (Err (ErrorString "query missing"), s))
  /\ (forall name q qs (jw : JiraView) (w : World R) e r,
         GetKeysForSearch (Join (q :: qs) " ") (jc_maxlisting w) (remote w) = (Err e, r) ->
         fst (JiraView_search (name :: q :: qs) (jw, w)) = Err e
         /\ fst (snd (JiraView_search (name :: q :: qs) (jw, w))) = jw).
Proof.
  split; [|split].
  - intros name q qs jw w keys r Hres Hq.
    rewrite (search_stored name q qs jw w keys r Hq). split; [reflexivity|].
    cbn [snd fst].
    destruct (not_reserved_eqb name Hres) as (E1 & E2 & E3 & E4 & E5).
    unfold JiraView_Walk. st_unfold. rewrite E1, E2, E3, E4, E5. cbn.
    unfold searches_of at 1. cbn. rewrite lookup_insert_eq. reflexivity.
  - intros args s Hlen. destruct args as [|a [|b args]]; try reflexivity.
    simpl in Hlen. lia.
  - intros name q qs jw w e r Hq.
    unfold JiraView_search, SearchView_search, bind, getV, getW, putV, liftW, call.
    cbn [fst snd sw_query]. rewrite Hq. split; reflexivity.
Qed.

Lemma reserved_walk_not_search file (s : JiraView * World R) f :
  file ∈ reservedNames ->
  fst (JiraView_Walk file s) = Ok (Some f) -> ~ is_search_dir f.
Proof.
  intros Hin. destruct s as [jw w]. unfold reservedNames in Hin.
  repeat (apply elem_of_cons in Hin as [->|Hin];
          [unfold JiraView_Walk; st_unfold; cbn; intros [= <-]; cbn; tauto|]).
  inversion Hin.
Qed.

Lemma root_step_keeps_reserved name op (s : JiraView * World R) sw :
  name ∈ reservedNames ->
  searches_of (fst s) !! name = Some sw ->
  searches_of (fst (root_step op s)) !! name = Some sw.
Proof.
  intros Hres Hs. destruct s as [jw w]. destruct op as [file|file]; simpl.
  - rewrite JiraView_Walk_state. exact Hs.
  - destruct (decide (file ∈ reservedNames)) as [Hin|Hout].
    + unfold JiraView_Remove. rewrite (reserved_eqb file Hin). exact Hs.
    + destruct (not_reserved_eqb file Hout) as (E1 & E2 & E3 & E4 & E5).
      unfold JiraView_Remove. st_unfold. rewrite E1, E2, E3, E4, E5. cbn.
      destruct (searches_of jw !! file); cbn; [|exact Hs].
      unfold searches_of at 1. cbn. rewrite lookup_delete_ne; [exact Hs|].
      intros ->. contradiction.
Qed.

Lemma root_steps_keep_reserved name ops sw : forall s : JiraView * World R,
  name ∈ reservedNames ->
  searches_of (fst s) !! name = Some sw ->
  searches_of (fst (foldl (fun s op => root_step op s) s ops)) !! name = Some sw.
Proof.
  induction ops as [|op ops IH]; intros s Hres Hs; simpl; [exact Hs|].
  apply IH; [exact Hres|]. now apply root_step_keeps_reserved.
Qed.

(** X10. A search stored under one of the five fixed names is out of
    reach: it stays in the table through every walk and removal on the root,
    a walk to the name keeps returning the fixed entry and never the search,
    and its removal is refused. *)
Theorem reserved_search_is_shadowed :
  forall name q qs (jw : JiraView) (w : World R) keys r ops,
    name ∈ reservedNames ->
    GetKeysForSearch (Join (q :: qs) " ") (jc_maxlisting w) (remote w) = (Ok keys, r) ->
    let s := foldl (fun s op => root_step op s)
                   (snd (JiraView_search (name :: q :: qs) (jw, w))) ops in
    searches_of (fst s) !! name
    = Some {| sw_query := Join (q :: qs) " "; sw_results := keys |}
    /\ (forall f, fst (JiraView_Walk name s) = Ok (Some f) -> ~ is_search_dir f)
    /\ JiraView_Remove name s = (Err ErrPermissionDenied, s).
Proof.
  intros name q qs jw w keys r ops Hres Hq s. subst s.
  rewrite (search_stored name q qs jw w keys r Hq). cbn [snd].
  split; [|split].
  - apply root_steps_keep_reserved; [exact Hres|].
    unfold searches_of. cbn. apply lookup_insert_eq.
  - intros f. now apply reserved_walk_not_search.
  - unfold JiraView_Remove. now rewrite (reserved_eqb name Hres).
Qed.

(** *** From one view into the next *)

(** X11. After a successful commit the view serves the new issue: a walk
    to key asks the tracker for the issue under the key that the commit
    assigned and serves that issue's key followed by a line break,
    read-only. *)
Theorem committed_view_serves_the_key :
  forall args iw (w : World R) issuetype summary description project key r issue r2,
    iw_newIssue iw = true ->
    commit_request iw = (issuetype, summary, description, project) ->
    CreateIssue issuetype project summary description (remote w) = (Ok key, r) ->
    GetIssue key r = (Ok issue, r2) ->
    let s := snd (newWalk_commit args (iw, w)) in
    IssueView_Walk "key" s
    = (Ok (Some (FSynthetic {| sf_name := "key"; sf_perm := perm_ro; sf_user := "jira";
                               sf_group := "jira"; sf_Content := Key issue +:+ NL |})),
       (fst s,
        after w r2 [CCreateIssue issuetype project summary description; CGetIssue key])).
Proof.
  intros args iw w ty su de pr key r issue r2 Hnew Hreq Hc Hg s. subst s.
  unfold newWalk_commit, bind, getV, putV, liftW, call, throw. cbn [fst snd].
  rewrite Hreq, Hnew. cbn [negb]. rewrite Hc. cbn [fst snd].
  unfold IssueView_Walk, bind, getV, liftW. cbn [fst snd iw_newIssue].
  rewrite (normalWalk_fetched _ "key" _ issue r2) by (try exact Hg; cbn; list_in).
  unfold normalWalk_switch. cbn. now rewrite after_after.
Qed.

(** X12. What passes the check of the list of all issues goes to the
    tracker as typed: for a name PREFIX-NUMBER, in any letter case, the walk
    calls GetIssue once with the name as it was given, returns the
    tracker's error if there is one, fails with "no fields" for an issue
    without fields, and otherwise returns a directory for the name whose
    view takes its project from the issue. *)
Theorem well_formed_key_reaches_tracker :
  forall issueKey (w : World R),
    isIssueKeyForm issueKey ->
    AllIssuesView_Walk issueKey w
    = match GetIssue issueKey (remote w) with
      | (Ok issue, r) =>
          match Fields issue with
          | Some fields =>
              (Ok (Some (FJiraDir issueKey (mode_or perm_ro DMDIR) "jira" "jira"
                           (VIssue {| iw_project := Project_Key fields;
                                      iw_issueNo := issueKey; iw_newIssue := false;
                                      iw_values := None |}))),
               after w r [CGetIssue issueKey])
          | None => (Err (ErrorString "no fields"), after w r [CGetIssue issueKey])
          end
      | (Err e, r) => (Err e, after w r [CGetIssue issueKey])
      end.
Proof.
  intros issueKey w (prefix & number & -> & Hp & Hn & [v Hv]).
  assert (Hsplit : Split (ToUpper (prefix +:+ "-" +:+ number)) "-"%char
                   = [ToUpper prefix; ToUpper number]).
  { rewrite Split_ToUpper.
    change (prefix +:+ "-" +:+ number) with (prefix +:+ String "-"%char number).
    rewrite Split_app_sep by exact Hp. now rewrite Split_plain by exact Hn. }
  assert (Hne : forall name, ~ hasByte "-"%char name ->
                             String.eqb (prefix +:+ "-" +:+ number) name = false).
  { intros name Hfree. apply String.eqb_neq. intros Heq. apply Hfree.
    rewrite <- Heq. unfold hasByte. clear.
    induction prefix as [|c p IH]; [apply list_elem_of_here|].
    rewrite append_cons. simpl. now apply list_elem_of_further. }
  unfold AllIssuesView_Walk.
  rewrite !Hne by (unfold hasByte; vm_compute; list_notin).
  rewrite Hsplit, ParseUint_ToUpper, Hv.
  unfold bind, call, throw, NewJiraDir, ret.
  destruct (GetIssue (prefix +:+ "-" +:+ number) (remote w)) as [[issue|e] r];
    [|reflexivity].
  destruct (Fields issue); reflexivity.
Qed.

(** X13. The new entry of a project's issue list opens a draft that belongs
    to the project: the walk contacts nothing and returns a view in new
    mode, and as long as the project draft of that view is blank a commit
    asks for the issue in the containing project.  A name that [ParseUint]
    accepts is looked up as PROJECT-NAME, digits as typed. *)
Theorem project_issue_walk :
  (forall project (w : World R),
      exists iw,
        ProjectIssuesView_Walk project "new" w
        = (Ok (Some (FJiraDir "new" (mode_or perm_ro DMDIR) "jira" "jira" (VIssue iw))), w)
        /\ iw_newIssue iw = true
        /\ forall m, project <> "" -> removeAll nl (m !!! "project") = "" ->
                     snd (commit_request (set_values iw (Some m))) = project)
  /\ (forall project issueNo (w : World R) n,
         issueNo <> "new" -> ParseUint issueNo = Some n ->
         ProjectIssuesView_Walk project issueNo w
         = match GetIssue (project +:+ "-" +:+ issueNo) (remote w) with
           | (Ok _, r) =>
               (Ok (Some (FJiraDir issueNo (mode_or perm_ro DMDIR) "jira" "jira"
                            (VIssue {| iw_project := project;
                                       iw_issueNo := project +:+ "-" +:+ issueNo;
                                       iw_newIssue := false; iw_values := None |}))),
                after w r [CGetIssue (project +:+ "-" +:+ issueNo)])
           | (Err e, r) => (Err e, after w r [CGetIssue (project +:+ "-" +:+ issueNo)])
           end).
Proof.
  split.
  - intros project w. eexists. split; [reflexivity|]. split; [reflexivity|].
    intros m Hp Hblank. unfold commit_request. cbn [set_values iw_values iw_project].
    rewrite Hblank. cbn [String.eqb]. rewrite (proj2 (String.eqb_neq project "") Hp).
    reflexivity.
  - intros project issueNo w n Hne Hn. unfold ProjectIssuesView_Walk.
    rewrite (proj2 (String.eqb_neq issueNo "new") Hne), Hn.
    unfold bind, call, NewJiraDir, ret.
    now destruct (GetIssue (project +:+ "-" +:+ issueNo) (remote w)) as [[issue|e] r].
Qed.

(** *** Comments *)

(** X14. A comment's own file round-trips: the walk serves the body as
    the tracker has it, with no line break added, and the commit of that
    text calls SetComment with the same body.  The other three files are
    plain read-only files, and a name that is none of the four is answered
    before the comment is fetched. *)
Theorem comment_written_back_unchanged :
  (forall issueNo comment (w : World R) cmt r,
      GetComment issueNo comment (remote w) = (Ok cmt, r) ->
      exists sf,
        CommentView_Walk issueNo comment "comment" w
        = (Ok (Some (FCloseSaver sf false (CommentOnClose issueNo comment "comment"))),
           after w r [CGetComment issueNo comment])
        /\ sf_Content sf = cmt_Body cmt
        /\ forall w2 : World R,
            CommentView_onClose issueNo comment "comment" (sf_Content sf) w2
            = call (CSetComment issueNo comment (cmt_Body cmt))
                   (SetComment issueNo comment (cmt_Body cmt)) w2)
  /\ (forall issueNo comment file (w : World R) cmt r,
         file ∈ ["author"; "updated"; "created"] ->
         GetComment issueNo comment (remote w) = (Ok cmt, r) ->
         exists sf,
           CommentView_Walk issueNo comment file w
           = (Ok (Some (FSynthetic sf)), after w r [CGetComment issueNo comment])
           /\ sf_perm sf = perm_ro)
  /\ (forall issueNo comment file (w : World R),
         file ∉ ["author"; "comment"; "updated"; "created"] ->
         CommentView_Walk issueNo comment file w = (Ok None, w)).
Proof.
  split; [|split].
  - intros issueNo comment w cmt r Hg. unfold CommentView_Walk.
    unfold StringExistsInSets; cbn [existsb].
    rewrite bool_decide_eq_true_2 by list_in.
    unfold bind, call. cbn. rewrite Hg. cbn.
    eexists. split; [reflexivity|]. split; reflexivity.
  - intros issueNo comment file w cmt r Hin Hg. unfold CommentView_Walk.
    unfold StringExistsInSets; cbn [existsb].
    repeat (apply elem_of_cons in Hin as [->|Hin];
            [rewrite bool_decide_eq_true_2 by list_in;
             unfold bind, call; cbn; rewrite Hg; cbn;
             eexists; split; reflexivity|]).
    inversion Hin.
  - intros issueNo comment file w Hout. unfold CommentView_Walk.
    unfold StringExistsInSets; cbn [existsb].
    now rewrite bool_decide_eq_false_2 by exact Hout.
Qed.

(** *** Status writes that do not get as far as a transition *)

(** X15. No transition is sent unless a path was found: when the issue
    cannot be fetched, has no fields or no status, when the workflow cannot
    be built, or when the resolver finds no path, the commit of a status
    write returns that error and the tracker has only been asked to read. *)
Theorem status_write_stops_before_transitions :
  forall issueNo project content (w : World R),
    (forall e r,
        GetIssue issueNo (remote w) = (Err e, r) ->
        status_onClose issueNo project content w = (Err e, after w r [CGetIssue issueNo]))
    /\ (forall issue r,
           GetIssue issueNo (remote w) = (Ok issue, r) -> Fields issue = None ->
           status_onClose issueNo project content w
           = (Err (ErrorString "oops"), after w r [CGetIssue issueNo]))
    /\ (forall issue r fields,
           GetIssue issueNo (remote w) = (Ok issue, r) -> Fields issue = Some fields ->
           Status fields = None ->
           status_onClose issueNo project content w
           = (Err (ErrorString "oops2"), after w r [CGetIssue issueNo]))
    /\ (forall issue r fields status e r2,
           GetIssue issueNo (remote w) = (Ok issue, r) -> Fields issue = Some fields ->
           Status fields = Some status ->
           BuildWorkflow2 project (Type_ID fields) r = (Err e, r2) ->
           status_onClose issueNo project content w
           = (Err e, after w r2 [CGetIssue issueNo;
                                 CBuildWorkflow2 project (Type_ID fields)]))
    /\ (forall issue r fields status wg r2 e,
           GetIssue issueNo (remote w) = (Ok issue, r) -> Fields issue = Some fields ->
           Status fields = Some status ->
           BuildWorkflow2 project (Type_ID fields) r = (Ok wg, r2) ->
           Path wg status (removeAll nl content) 500 = Err e ->
           status_onClose issueNo project content w
           = (Err e, after w r2 [CGetIssue issueNo;
                                 CBuildWorkflow2 project (Type_ID fields)])).
Proof.
  intros issueNo project content w.
  unfold status_onClose, status_resolve, bind, call, throw.
  split; [|split; [|split; [|split]]].
  - intros e r Hg. now rewrite Hg.
  - intros issue r Hg Hf. now rewrite Hg, Hf.
  - intros issue r fields Hg Hf Hs. now rewrite Hg, Hf, Hs.
  - intros issue r fields status e r2 Hg Hf Hs Hb. rewrite Hg, Hf, Hs.
    cbn [remote after]. rewrite Hb. now rewrite after_after.
  - intros issue r fields status wg r2 e Hg Hf Hs Hb Hp. rewrite Hg, Hf, Hs.
    cbn [remote after]. rewrite Hb, Hp. now rewrite after_after.
Qed.
(** *** The comment list of an issue *)

(** X16. The listing and the walk of an issue's comment list agree: the
    listing is the comment ids as directories followed by the comment file,
    and, when no id is "comment", a walk to a listed name never answers
    not-found; unless the tracker fails it returns a file with the listed
    mode. *)
Theorem comment_list_matches_walk :
  forall issueNo (s : Session R) ids r,
    GetCommentsForIssue issueNo (remote (world s)) = (Ok ids, r) ->
    "comment" ∉ ids ->
    exists stats s1,
      IssueCommentView_List issueNo s = (Ok stats, s1)
      /\ map st_Name stats = ids ++ ["comment"]
      /\ Forall (fun st =>
                   forall s2 : Session R,
                     match IssueCommentView_Walk issueNo (st_Name st) s2 with
                     | (Ok (Some f), _) => more_perm f = st_Mode st
                     | (Ok None, _) => False
                     | (Err _, _) => True
                     end) stats.
Proof.
  intros issueNo s ids r Hg Hno.
  unfold IssueCommentView_List, bind, callMore, ret. rewrite Hg.
  do 2 eexists. split; [reflexivity|]. split.
  - unfold StringsToStats. rewrite map_app, map_map. cbn. now rewrite map_id.
  - apply Forall_app. split.
    + unfold StringsToStats. apply Forall_forall. intros st Hst.
      apply list_elem_of_fmap in Hst as (id & -> & Hid). intros s2. cbn [st_Name st_Mode].
      unfold IssueCommentView_Walk.
      rewrite (proj2 (String.eqb_neq id "comment")) by (intros ->; contradiction).
      unfold bind, inWorld, call, ret.
      now destruct (GetComment issueNo id (remote (world s2))) as [[c|e] r2].
    + constructor; [|constructor]. intros s2. reflexivity.
Qed.

(** *** Worklogs *)

Lemma existsb_eqb_elem {A} (f : A -> string) (l : list A) name :
  existsb (fun x => String.eqb (f x) name) l = bool_decide (name ∈ map f l).
Proof.
  induction l as [|x l IH]; cbn [existsb map].
  - symmetry. apply bool_decide_eq_false_2. apply not_elem_of_nil.
  - rewrite IH. destruct (String.eqb_spec (f x) name) as [<-|Hne]; cbn [orb].
    + symmetry. apply bool_decide_eq_true_2. apply list_elem_of_here.
    + apply bool_decide_ext. rewrite elem_of_cons. intuition congruence.
Qed.

(** X17. The worklog list of an issue serves exactly what it lists: for
    one answer of the tracker, the listing names the worklog ids, a walk to
    one of them returns a read-only directory for that worklog with the
    listed mode, and a walk to any other name answers not-found. *)
Theorem worklog_list_matches_walk :
  forall issueNo (s s2 : Session R) wls r r2,
    GetWorklogForIssue issueNo (remote (world s)) = (Ok wls, r) ->
    GetWorklogForIssue issueNo (remote (world s2)) = (Ok wls, r2) ->
    exists stats s1,
      IssueWorklogView_List issueNo s = (Ok stats, s1)
      /\ map st_Name stats = map wl_ID wls
      /\ Forall (fun st =>
                   fst (IssueWorklogView_Walk issueNo (st_Name st) s2)
                   = Ok (Some (FJiraDir (st_Name st) (st_Mode st) (st_UID st) (st_GID st)
                                 (VWorklog issueNo (st_Name st))))) stats
      /\ forall file,
          file ∉ map wl_ID wls ->
          fst (IssueWorklogView_Walk issueNo file s2) = Ok None.
Proof.
  intros issueNo s s2 wls r r2 Hg Hg2.
  unfold IssueWorklogView_List, bind, callMore, ret. rewrite Hg.
  do 2 eexists. split; [reflexivity|]. split; [|split].
  - unfold StringsToStats. rewrite map_map. cbn. apply map_id.
  - unfold StringsToStats. apply Forall_forall. intros st Hst.
    apply list_elem_of_fmap in Hst as (id & -> & Hid). cbn [st_Name st_Mode st_UID st_GID].
    unfold IssueWorklogView_Walk, bind, callMore. rewrite Hg2.
    rewrite existsb_eqb_elem, bool_decide_eq_true_2 by exact Hid. reflexivity.
  - intros file Hout. unfold IssueWorklogView_Walk, bind, callMore. rewrite Hg2.
    rewrite existsb_eqb_elem, bool_decide_eq_false_2 by exact Hout. reflexivity.
Qed.

(** X18. A worklog fetches before it looks at the name: every walk costs
    one GetSpecificWorklogForIssue, a failure of the tracker is the answer
    for every name, and a name that is not served is answered not-found
    only after the fetch.  When the worklog has an author and a start time,
    each of the four listed names is served as a read-only file with the
    listed mode whose text ends in a line break. *)
Theorem worklog_walk_fetches_first :
  forall issueNo worklog (s : Session R),
    let after_fetch :=
      {| world := with_remote (world s)
                    (snd (GetSpecificWorklogForIssue issueNo worklog (remote (world s))));
         more := more s ++ [MGetSpecificWorklogForIssue issueNo worklog] |} in
    (forall file, snd (WorklogView_Walk issueNo worklog file s) = after_fetch)
    /\ (forall e file,
           fst (GetSpecificWorklogForIssue issueNo worklog (remote (world s))) = Err e ->
           fst (WorklogView_Walk issueNo worklog file s) = Err e)
    /\ (forall wl file,
           fst (GetSpecificWorklogForIssue issueNo worklog (remote (world s))) = Ok wl ->
           file ∉ ["comment"; "author"; "time"; "started"] ->
           fst (WorklogView_Walk issueNo worklog file s) = Ok None)
    /\ (forall wl a t,
           fst (GetSpecificWorklogForIssue issueNo worklog (remote (world s))) = Ok wl ->
           wl_Author wl = Some a -> wl_Started wl = Some t ->
           Forall (fun st =>
                     exists sf text,
                       fst (WorklogView_Walk issueNo worklog (st_Name st) s)
                       = Ok (Some (FSynthetic sf))
                       /\ sf_perm sf = st_Mode st
                       /\ sf_Content sf = text +:+ NL) WorklogView_List).
Proof.
  intros issueNo worklog s after_fetch. subst after_fetch.
  unfold WorklogView_Walk, bind, callMore.
  destruct (GetSpecificWorklogForIssue issueNo worklog (remote (world s)))
    as [[wl|e] r] eqn:Hg; cbn [fst snd].
  - split; [|split; [|split]].
    + intros file.
      repeat match goal with
             | |- context [String.eqb file ?b] => destruct (String.eqb file b)
             end; try reflexivity.
      * destruct (wl_Author wl); reflexivity.
      * destruct (wl_Started wl); reflexivity.
    + intros e file [=].
    + intros wl' file [= <-] Hout.
      rewrite !(proj2 (String.eqb_neq file _))
        by (intros ->; apply Hout; list_in).
      reflexivity.
    + intros wl' a t [= <-] Ha Ht. unfold WorklogView_List, StringsToStats. cbn [map].
      repeat constructor; cbn; rewrite ?Ha, ?Ht; do 2 eexists; repeat split.
  - split; [|split; [|split]].
    + reflexivity.
    + intros e' file [= <-]. reflexivity.
    + intros wl file [=].
    + intros wl a t [=].
Qed.

(** *** Projects *)

Lemma upper_idem c : upper (upper c) = upper c.
Proof. destruct c as [[] [] [] [] [] [] [] []]; reflexivity. Qed.

Lemma upper_ascii c : (N_of_ascii c < 128)%N -> (N_of_ascii (upper c) < 128)%N.
Proof.
  intros Hc. unfold upper. cbv zeta.
  destruct ((97 <=? N_of_ascii c)%N && (N_of_ascii c <=? 122)%N) eqn:Hlow; [|exact Hc].
  apply andb_true_iff in Hlow as [H1 H2]. apply N.leb_le in H1, H2.
  rewrite N_ascii_embedding by lia. lia.
Qed.

Lemma ToUpper_idem s :
  Forall (fun c => (N_of_ascii c < 128)%N) (list_ascii_of_string s) ->
  ToUpper (ToUpper s) = ToUpper s.
Proof.
  induction s as [|c s IH]; intros H; [reflexivity|]. simpl in H.
  apply Forall_cons in H as [Hc Hs].
  rewrite (ToUpper_ascii c s Hc).
  rewrite (ToUpper_ascii (upper c)) by now apply upper_ascii.
  now rewrite upper_idem, IH.
Qed.

(** X19. Project names are looked up in upper case, as [strings.ToUpper]
    gives it: two names with the same upper-case form get the same answer,
    and so do a name of ASCII bytes and its upper-case form; when the
    tracker answers with the project list, the walk finds the project
    exactly when the upper-cased name is one of the keys, and the directory
    and its view then carry the upper-cased name. *)
Theorem project_walk_ignores_case :
  (forall n1 n2 (s : Session R),
      ToUpper n1 = ToUpper n2 ->
      AllProjectsView_Walk n1 s = AllProjectsView_Walk n2 s)
  /\ (forall name (s : Session R),
         Forall (fun c => (N_of_ascii c < 128)%N) (list_ascii_of_string name) ->
         AllProjectsView_Walk (ToUpper name) s = AllProjectsView_Walk name s)
  /\ (forall name (s : Session R) projects r,
         GetProjects (remote (world s)) = (Ok projects, r) ->
         fst (AllProjectsView_Walk name s)
         = if bool_decide (ToUpper name ∈ map prj_Key projects)
           then Ok (Some (FJiraDir (ToUpper name) (mode_or perm_ro DMDIR) "jira" "jira"
                            (VProject (ToUpper name))))
           else Ok None).
Proof.
  split; [|split].
  - intros n1 n2 s Hn. unfold AllProjectsView_Walk. now rewrite Hn.
  - intros name s Hname. unfold AllProjectsView_Walk. now rewrite ToUpper_idem.
  - intros name s projects r Hg. unfold AllProjectsView_Walk, bind, callMore.
    rewrite Hg. rewrite existsb_eqb_elem.
    now destruct (bool_decide (ToUpper name ∈ map prj_Key projects)).
Qed.

(** X20. A project fetches only for the files that need it: issues and
    every name that is not served are answered without a call; components
    and issuetypes cost one GetProject and serve one name per line,
    read-only. *)
Theorem project_walk_fetches_on_demand :
  forall project (s : Session R),
    ProjectView_Walk project "issues" s
    = (Ok (Some (FJiraDir "issues" (mode_or perm_ro DMDIR) "jira" "jira"
                   (VProjectIssues project))), s)
    /\ (forall file,
           file ∉ ["issues"; "issuetypes"; "components"; "raw"] ->
           ProjectView_Walk project file s = (Ok None, s))
    /\ (forall p r,
           GetProject project (remote (world s)) = (Ok p, r) ->
           let s1 := {| world := with_remote (world s) r;
                        more := more s ++ [MGetProject project] |} in
           ProjectView_Walk project "components" s
           = (Ok (Some (FSynthetic
                          {| sf_name := "components"; sf_perm := perm_ro;
                             sf_user := "jira"; sf_group := "jira";
                             sf_Content := lines (prj_Components p) |})), s1)
           /\ ProjectView_Walk project "issuetypes" s
              = (Ok (Some (FSynthetic
                             {| sf_name := "issuetypes"; sf_perm := perm_ro;
                                sf_user := "jira"; sf_group := "jira";
                                sf_Content := lines (prj_IssueTypes p) |})), s1)
           /\ (Forall (fun c => ~ hasByte nl c) (prj_Components p) ->
               Split (lines (prj_Components p)) nl = prj_Components p ++ [""])).
Proof.
  intros project s. split; [reflexivity|]. split.
  - intros file Hout. unfold ProjectView_Walk.
    rewrite !(proj2 (String.eqb_neq file _)) by (intros ->; apply Hout; list_in).
    reflexivity.
  - intros p r Hg s1. subst s1. unfold ProjectView_Walk, bind, callMore. cbn.
    rewrite Hg. split; [reflexivity|]. split; [reflexivity|]. apply Split_lines.
Qed.
(** *** The root's listing and the set command *)

Lemma ParseInt_range v n :
  ParseInt v = Some n -> (- 9223372036854775808 <= n <= 9223372036854775807)%Z.
Proof.
  unfold ParseInt. destruct v as [|c rest]; [discriminate|].
  destruct (ParseUint _) as [un|]; [|discriminate]. unfold cutoffInt64.
  destruct (Ascii.eqb c "-"%char); cbn [negb andb].
  - destruct (N.ltb_spec 9223372036854775808 un); [discriminate|].
    intros [= <-]. lia.
  - destruct (N.leb_spec 9223372036854775808 un); [discriminate|].
    intros [= <-]. lia.
Qed.

(** X21. The set command changes the listing limit and nothing else, and
    the listings use it: when [ParseInt] accepts the value, max-listing
    becomes that number, a signed 64-bit integer that may be zero or
    negative, and from then on the search view, the list of all issues and a
    project's issue list pass it to the tracker as the limit.  With another
    number of arguments, another variable, or a value [ParseInt] rejects, the
    command fails and the client is as before. *)
Theorem set_max_listing :
  (forall v n (w : World R),
      ParseInt v = Some n ->
      JiraView_set ["max-listing"; v] w = (Ok tt, set_maxlisting w n)
      /\ (- 9223372036854775808 <= n <= 9223372036854775807)%Z
      /\ (forall sw,
             calls (snd (snd (SearchView_List (sw, set_maxlisting w n))))
             = calls w ++ [CGetKeysForSearch (sw_query sw) n])
      /\ calls (snd (AllIssuesView_List (set_maxlisting w n)))
         = calls w ++ [CGetKeysForSearch "" n]
      /\ (forall project log,
             more (snd (ProjectIssuesView_List project
                          {| world := set_maxlisting w n; more := log |}))
             = log ++ [MGetKeysForNIssuesInProject project n]))
  /\ (forall args (w : World R),
         length args <> 2 ->
         JiraView_set args w = (Err (ErrorString "invalid arguments"), w))
  /\ (forall name v (w : World R),
         name <> "max-listing" ->
         JiraView_set [name; v] w = (Err (ErrorString "unknown variable"), w))
  /\ (forall v (w : World R),
         ParseInt v = None ->
         exists e, JiraView_set ["max-listing"; v] w = (Err e, w)).
Proof.
  split; [|split; [|split]].
  - intros v n w Hv. split; [|split; [|split; [|split]]].
    + unfold JiraView_set. cbn. now rewrite Hv.
    + now apply (ParseInt_range v).
    + intros sw. unfold SearchView_List, SearchView_search, bind, getV, getW, putV,
        liftW, call, ret. cbn [fst snd set_maxlisting jc_maxlisting remote].
      now destruct (GetKeysForSearch (sw_query sw) n (remote w)) as [[keys|e] r].
    + unfold AllIssuesView_List, bind, get, call, ret.
      cbn [set_maxlisting jc_maxlisting remote].
      now destruct (GetKeysForSearch "" n (remote w)) as [[keys|e] r].
    + intros project log. unfold ProjectIssuesView_List, bind, get, callMore, ret.
      cbn [world set_maxlisting jc_maxlisting remote more].
      now destruct (GetKeysForNIssuesInProject project n (remote w)) as [[keys|e] r].
  - intros args w Hlen. destruct args as [|a [|b [|c args]]]; try reflexivity.
    now contradiction Hlen.
  - intros name v w Hne. unfold JiraView_set.
    now rewrite (proj2 (String.eqb_neq name "max-listing") Hne).
  - intros v w Hv. eexists. unfold JiraView_set. cbn. now rewrite Hv.
Qed.

(** X22. Whatever the root lists can be walked.  The listing contacts
    nothing; it is projects and issues as read-only directories, ctl with
    mode 0777, help and structure with mode 0555, in this order, followed
    by one directory with mode 0777 per stored search, in the order in
    which the map is ranged over, all owned by jira.  A walk to any listed
    name finds a file, and for a stored search whose name is none of the
    five it finds the directory of that search. *)
Theorem root_listing_can_be_walked :
  forall (jw : JiraView) (w : World R),
    let fixed := [entry "projects" (mode_or perm_ro DMDIR);
                  entry "issues" (mode_or perm_ro DMDIR);
                  entry "ctl" perm_rw; entry "help" perm_ro; entry "structure" perm_ro] in
    exists dirs,
      JiraView_List (jw, w)
      = (Ok (fixed ++ dirs), ({| jw_searches := Some (searches_of jw) |}, w))
      /\ dirs ≡ₚ map (fun name => entry name (mode_or perm_rw DMDIR))
                     (map fst (map_to_list (searches_of jw)))
      /\ Forall (fun st => exists f, fst (JiraView_Walk (st_Name st) (jw, w)) = Ok (Some f))
                (fixed ++ dirs)
      /\ (forall name sw,
             searches_of jw !! name = Some sw -> name ∉ reservedNames ->
             JiraView_Walk name (jw, w)
             = (Ok (Some (FJiraDir name (mode_or perm_ro DMDIR) "jira" "jira" (VSearch sw))),
                ({| jw_searches := Some (searches_of jw) |}, w))).
Proof.
  intros jw w fixed.
  exists (map (fun name => entry name (mode_or perm_rw DMDIR)) (rangeSearches (searches_of jw))).
  assert (Hkeys : forall name, name ∈ rangeSearches (searches_of jw)
                               <-> is_Some (searches_of jw !! name)).
  { intros name. rewrite rangeSearches_perm. rewrite list_elem_of_fmap. split.
    - intros ([k v] & -> & Hkv). apply elem_of_map_to_list in Hkv. eauto.
    - intros [v Hv]. exists (name, v). split; [reflexivity|].
      now apply elem_of_map_to_list. }
  assert (Hwalk : forall name, is_Some (searches_of jw !! name) ->
                               exists f, fst (JiraView_Walk name (jw, w)) = Ok (Some f)).
  { intros name [sw Hsw]. unfold JiraView_Walk. st_unfold. cbn [fst snd].
    repeat match goal with
           | |- context [String.eqb name ?b] => destruct (String.eqb name b)
           end; cbn; eauto.
    rewrite Hsw. cbn. eauto. }
  split; [|split; [|split]].
  - reflexivity.
  - apply Permutation_map. apply rangeSearches_perm.
  - apply Forall_app. split.
    + repeat (constructor; [eexists; unfold JiraView_Walk; st_unfold; cbn; reflexivity|]).
      constructor.
    + apply Forall_forall. intros st Hst.
      apply list_elem_of_fmap in Hst as (name & -> & Hn). cbn [st_Name entry].
      apply Hwalk. now apply Hkeys.
  - intros name sw Hsw Hfree.
    destruct (not_reserved_eqb name Hfree) as (E1 & E2 & E3 & E4 & E5).
    unfold JiraView_Walk. st_unfold. cbn [fst snd].
    rewrite E1, E2, E3, E4, E5, Hsw. reflexivity.
Qed.
End Extras.

(** ** The further statements at concrete inputs *)

#[local] Existing Instance ToyMore.tracker.
#[local] Existing Instance ToyMore.runtime.

Lemma links_written_back_unchanged_witness :
  normalWalk_onClose "ABC-1" "ABC" Toy.issue1 "links" ("ABC-1 ABC-2 Blocks" +:+ NL)
    (Toy.world Toy.state0)
  = (Ok tt, Toy.world Toy.state0).
Proof.
  refine (links_written_back_unchanged Toy.view1 (Toy.world Toy.state0) _
            {| sf_name := "links"; sf_perm := perm_rw; sf_user := "jira";
               sf_group := "jira"; sf_Content := "ABC-1 ABC-2 Blocks" +:+ NL |}
            false "ABC-1" "ABC" Toy.issue1 "links" Toy.fields0 _ eq_refl _ _
            (Toy.world Toy.state0)).
  - vm_compute. reflexivity.
  - apply NoDup_singleton.
  - constructor; [|constructor]. split; [discriminate|]. vm_compute. list_notin.
Defined.

Lemma scalar_written_back_unchanged_witness :
  exists sf ft,
    normalWalk Toy.view1 "assignee" (Toy.world Toy.state0)
    = (Ok (Some (FCloseSaver sf ft (NormalOnClose "ABC-1" "ABC" Toy.issue1 "assignee"))),
       after (Toy.world Toy.state0) Toy.state0 [CGetIssue "ABC-1"])
    /\ sf_Content sf = "alice" +:+ NL
    /\ forall w2 : World Toy.State,
        normalWalk_onClose "ABC-1" "ABC" Toy.issue1 "assignee" (sf_Content sf) w2
        = call (CSetFieldInIssue "ABC-1" "assignee" "alice")
               (SetFieldInIssue "ABC-1" "assignee" "alice") w2.
Proof.
  apply (scalar_written_back_unchanged Toy.view1 (Toy.world Toy.state0) Toy.issue1
           Toy.state0 Toy.fields0 "assignee" "alice");
    [reflexivity|reflexivity|reflexivity|vm_compute; list_notin].
Defined.

Lemma description_written_back_grows_witness :
  exists sf,
    normalWalk Toy.view1 "description" (Toy.world Toy.state0)
    = (Ok (Some (FCloseSaver sf false
                   (NormalOnClose "ABC-1" "ABC" Toy.issue1 "description"))),
       after (Toy.world Toy.state0) Toy.state0 [CGetIssue "ABC-1"])
    /\ sf_Content sf = "It crashes." +:+ NL
    /\ forall w2 : World Toy.State,
        normalWalk_onClose "ABC-1" "ABC" Toy.issue1 "description" (sf_Content sf) w2
        = call (CSetFieldInIssue "ABC-1" "description" ("It crashes." +:+ NL))
               (SetFieldInIssue "ABC-1" "description" ("It crashes." +:+ NL)) w2.
Proof.
  apply (description_written_back_grows Toy.view1 (Toy.world Toy.state0) Toy.issue1
           Toy.state0 Toy.fields0); reflexivity.
Defined.

Lemma draft_read_after_write_witness :
  exists sf ft oc s,
    newWalk "summary"
      (snd (newWalk_onClose "summary" "New title"
              (snd (newWalk "summary" (Toy.draft, Toy.world Toy.state0)))))
    = (Ok (Some (FCloseSaver sf ft oc)), s)
    /\ sf_Content sf = "New title".
Proof.
  destruct (draft_read_after_write Toy.draft (Toy.world Toy.state0) "summary" "New title")
    as (_ & (sf & ft & oc & Hw & Hc) & _); [list_in|].
  exists sf, ft, oc. eexists. split; [exact Hw|exact Hc].
Defined.

Lemma commit_sends_the_drafts_witness :
  commit_request
    (fst (drafted (Toy.draft, Toy.world Toy.state0)
            ("Task" +:+ NL) ("Write docs" +:+ NL) ("Line 1" +:+ NL +:+ "Line 2") NL))
  = ("Task", "Write docs", "Line 1" +:+ NL +:+ "Line 2", "ABC").
Proof.
  destruct (commit_sends_the_drafts Toy.draft
              (<["type" := "Bug" +:+ NL]> (<["summary" := "Title" +:+ NL]> ∅))
              (Toy.world Toy.state0)
              ("Task" +:+ NL) ("Write docs" +:+ NL) ("Line 1" +:+ NL +:+ "Line 2") NL
              eq_refl) as (H & _).
  exact H.
Defined.

Lemma unknown_names_cost_nothing_witness :
  normalWalk Toy.view1 "attachments" (Toy.world Toy.state0)
  = (Ok None, Toy.world Toy.state0)
  /\ newWalk "assignee" (Toy.draft, Toy.world Toy.state0)
     = (Ok None, (Toy.draft, Toy.world Toy.state0))
  /\ normalWalk {| iw_project := "ABC"; iw_issueNo := "ABC-404"; iw_newIssue := false;
                   iw_values := None |} "summary" (Toy.world Toy.state0)
     = (Err (ErrRemote "issue does not exist"),
        after (Toy.world Toy.state0) Toy.state0 [CGetIssue "ABC-404"]).
Proof.
  destruct (unknown_names_cost_nothing (R := Toy.State)) as (H1 & H2 & H3).
  split; [|split].
  - apply H1. vm_compute. list_notin.
  - apply H2. vm_compute. list_notin.
  - apply H3; [vm_compute; list_in|reflexivity].
Defined.

Lemma new_mode_listing_matches_walk_witness :
  Forall (fun st =>
            exists f s,
              IssueView_Walk (st_Name st) (Toy.draft, Toy.world Toy.state0)
              = (Ok (Some f), s)
              /\ file_perm f = st_Mode st
              /\ file_owner f = (st_UID st, st_GID st)
              /\ snd s = Toy.world Toy.state0)
         (IssueView_List Toy.draft).
Proof.
  apply (new_mode_listing_matches_walk Toy.draft (Toy.world Toy.state0)). reflexivity.
Defined.

Lemma failed_listing_keeps_results_witness :
  let failing : Tracker unit :=
    {| GetIssue := fun _ r => (Err (ErrRemote "down"), r);
       CreateIssue := fun _ _ _ _ r => (Err (ErrRemote "down"), r);
       DeleteIssue := fun _ r => (Err (ErrRemote "down"), r);
       SetFieldInIssue := fun _ _ _ r => (Err (ErrRemote "down"), r);
       SetIssueRaw := fun _ _ r => (Err (ErrRemote "down"), r);
       GetTransitionsForIssue := fun _ r => (Err (ErrRemote "down"), r);
       TransitionIssue := fun _ _ r => (Err (ErrRemote "down"), r);
       LinkIssues := fun _ _ _ r => (Err (ErrRemote "down"), r);
       DeleteIssueLink := fun _ r => (Err (ErrRemote "down"), r);
       GetComment := fun _ _ r => (Err (ErrRemote "down"), r);
       SetComment := fun _ _ _ r => (Err (ErrRemote "down"), r);
       GetKeysForSearch := fun _ _ r => (Err (ErrRemote "down"), r);
       BuildWorkflow2 := fun _ _ r => (Err (ErrRemote "down"), r) |} in
  let w := {| remote := tt; calls := []; jc_user := ""; jc_pass := "";
              jc_maxlisting := 50 |} in
  let sw := {| sw_query := "project = ABC"; sw_results := ["ABC-1"] |} in
  @SearchView_List unit failing (sw, w)
  = (Err (ErrRemote "down"), (sw, after w tt [CGetKeysForSearch "project = ABC" 50])).
Proof.
  intros failing w sw.
  destruct (@failed_listing_keeps_results unit failing sw w (ErrRemote "down") tt eq_refl)
    as [H _].
  exact H.
Defined.

Lemma search_then_walk_witness :
  let jw := {| jw_searches := None |} in
  fst (JiraView_Walk "mine"
         (snd (JiraView_search ["mine"; "assignee"; "="; "me"]
                 (jw, Toy.world Toy.state0))))
  = Ok (Some (FJiraDir "mine" (mode_or perm_ro DMDIR) "jira" "jira"
                (VSearch {| sw_query := "assignee = me"; sw_results := ["ABC-1"] |})))
  /\ JiraView_search ["mine"] (jw, Toy.world Toy.state0)
     = (Err (ErrorString "query missing"), (jw, Toy.world Toy.state0)).
Proof.
  intros jw. destruct (search_then_walk (R := Toy.State)) as (H1 & H2 & _). split.
  - destruct (H1 "mine" "assignee" ["="; "me"] jw (Toy.world Toy.state0) ["ABC-1"]
                Toy.state0) as [_ H]; [unfold reservedNames; list_notin
                                      |vm_compute; reflexivity|].
    exact H.
  - apply H2. simpl. lia.
Defined.

Lemma reserved_search_is_shadowed_witness :
  let s := snd (JiraView_search ["ctl"; "assignee"; "="; "me"]
                  ({| jw_searches := None |}, Toy.world Toy.state0)) in
  is_Some (searches_of (fst s) !! "ctl")
  /\ JiraView_Remove "ctl" s = (Err ErrPermissionDenied, s).
Proof.
  intros s.
  destruct (reserved_search_is_shadowed "ctl" "assignee" ["="; "me"]
              {| jw_searches := None |} (Toy.world Toy.state0) ["ABC-1"] Toy.state0 [])
    as (H1 & _ & H3); [list_in|vm_compute; reflexivity|].
  split; [eexists; exact H1|exact H3].
Defined.

Lemma committed_view_serves_the_key_witness :
  exists s,
    IssueView_Walk "key" (snd (newWalk_commit [] (Toy.draft, Toy.world Toy.state0)))
    = (Ok (Some (FSynthetic {| sf_name := "key"; sf_perm := perm_ro; sf_user := "jira";
                               sf_group := "jira"; sf_Content := "ABC-9" +:+ NL |})), s).
Proof.
  eexists.
  eapply (committed_view_serves_the_key [] Toy.draft (Toy.world Toy.state0)
            "Bug" "Title" "" "ABC" "ABC-9" _
            {| Key := "ABC-9"; Fields := _ |}).
  - reflexivity.
  - vm_compute. reflexivity.
  - vm_compute. reflexivity.
  - vm_compute. reflexivity.
Defined.

Lemma well_formed_key_reaches_tracker_witness :
  AllIssuesView_Walk "abc-1" (Toy.world Toy.state0)
  = (Err (ErrRemote "issue does not exist"),
     after (Toy.world Toy.state0) Toy.state0 [CGetIssue "abc-1"]).
Proof.
  rewrite (well_formed_key_reaches_tracker "abc-1" (Toy.world Toy.state0)).
  - reflexivity.
  - exists "abc", "1". split; [reflexivity|].
    split; [vm_compute; list_notin|]. split; [vm_compute; list_notin|].
    vm_compute. eauto.
Defined.

Lemma project_issue_walk_witness :
  ProjectIssuesView_Walk "ABC" "1" (Toy.world Toy.state0)
  = (Ok (Some (FJiraDir "1" (mode_or perm_ro DMDIR) "jira" "jira"
                 (VIssue Toy.view1))),
     after (Toy.world Toy.state0) Toy.state0 [CGetIssue "ABC-1"]).
Proof.
  destruct (project_issue_walk (R := Toy.State)) as [_ H].
  rewrite (H "ABC" "1" (Toy.world Toy.state0) 1%N); [reflexivity|discriminate|reflexivity].
Defined.

Lemma comment_written_back_unchanged_witness :
  exists sf,
    CommentView_Walk "ABC-1" "1" "comment" (Toy.world Toy.state0)
    = (Ok (Some (FCloseSaver sf false (CommentOnClose "ABC-1" "1" "comment"))),
       after (Toy.world Toy.state0) Toy.state0 [CGetComment "ABC-1" "1"])
    /\ sf_Content sf = "Seen it too."
  /\ CommentView_Walk "ABC-1" "1" "body" (Toy.world Toy.state0)
     = (Ok None, Toy.world Toy.state0).
Proof.
  destruct (comment_written_back_unchanged (R := Toy.State)) as (H1 & _ & H3).
  destruct (H1 "ABC-1" "1" (Toy.world Toy.state0) _ Toy.state0 eq_refl)
    as (sf & Hw & Hc & _).
  exists sf. split; [exact Hw|]. split; [exact Hc|].
  apply H3. list_notin.
Defined.

Lemma status_write_stops_before_transitions_witness :
  status_onClose "ABC-1" "ABC" ("Reopened" +:+ NL) (Toy.world Toy.state0)
  = (Err (ErrNoPathFound 500),
     after (Toy.world Toy.state0) Toy.state0
       [CGetIssue "ABC-1"; CBuildWorkflow2 "ABC" "10"])
  /\ status_onClose "ABC-404" "ABC" ("Closed" +:+ NL) (Toy.world Toy.state0)
     = (Err (ErrRemote "issue does not exist"),
        after (Toy.world Toy.state0) Toy.state0 [CGetIssue "ABC-404"]).
Proof.
  split.
  - destruct (status_write_stops_before_transitions "ABC-1" "ABC" ("Reopened" +:+ NL)
                (Toy.world Toy.state0)) as (_ & _ & _ & _ & H).
    apply (H Toy.issue1 Toy.state0 Toy.fields0 "Open" Toy.chain Toy.state0);
      [reflexivity|reflexivity|reflexivity|reflexivity|vm_compute; reflexivity].
  - destruct (status_write_stops_before_transitions "ABC-404" "ABC" ("Closed" +:+ NL)
                (Toy.world Toy.state0)) as (H & _).
    apply H. reflexivity.
Defined.

Lemma comment_list_matches_walk_witness :
  exists stats s1,
    IssueCommentView_List "ABC-1" (ToyMore.session Toy.state0) = (Ok stats, s1)
    /\ map st_Name stats = ["1"; "2"; "comment"].
Proof.
  destruct (comment_list_matches_walk "ABC-1" (ToyMore.session Toy.state0) ["1"; "2"]
              Toy.state0) as (stats & s1 & H1 & H2 & _); [reflexivity|list_notin|].
  exists stats, s1. split; [exact H1|exact H2].
Defined.

Lemma worklog_list_matches_walk_witness :
  exists stats s1,
    IssueWorklogView_List "ABC-1" (ToyMore.session Toy.state0) = (Ok stats, s1)
    /\ map st_Name stats = ["100"; "101"]
    /\ fst (IssueWorklogView_Walk "ABC-1" "102" (ToyMore.session Toy.state0)) = Ok None.
Proof.
  destruct (worklog_list_matches_walk "ABC-1" (ToyMore.session Toy.state0)
              (ToyMore.session Toy.state0) ToyMore.worklogs Toy.state0 Toy.state0)
    as (stats & s1 & H1 & H2 & _ & H4); [reflexivity|reflexivity|].
  exists stats, s1. split; [exact H1|]. split; [exact H2|].
  apply H4. vm_compute. list_notin.
Defined.

Lemma worklog_walk_fetches_first_witness :
  fst (WorklogView_Walk "ABC-1" "100" "spent" (ToyMore.session Toy.state0)) = Ok None
  /\ fst (WorklogView_Walk "ABC-1" "999" "spent" (ToyMore.session Toy.state0))
     = Err (ErrRemote "no such worklog")
  /\ more (snd (WorklogView_Walk "ABC-1" "100" "spent" (ToyMore.session Toy.state0)))
     = [MGetSpecificWorklogForIssue "ABC-1" "100"].
Proof.
  split; [|split].
  - destruct (worklog_walk_fetches_first "ABC-1" "100" (ToyMore.session Toy.state0))
      as (_ & _ & H & _).
    eapply H; [reflexivity|list_notin].
  - destruct (worklog_walk_fetches_first "ABC-1" "999" (ToyMore.session Toy.state0))
      as (_ & H & _).
    apply H. reflexivity.
  - destruct (worklog_walk_fetches_first "ABC-1" "100" (ToyMore.session Toy.state0))
      as (H & _).
    rewrite H. reflexivity.
Defined.

Lemma project_walk_ignores_case_witness :
  AllProjectsView_Walk "Abc" (ToyMore.session Toy.state0)
  = AllProjectsView_Walk "aBC" (ToyMore.session Toy.state0)
  /\ AllProjectsView_Walk "ABC" (ToyMore.session Toy.state0)
     = AllProjectsView_Walk "abc" (ToyMore.session Toy.state0)
  /\ fst (AllProjectsView_Walk "abc" (ToyMore.session Toy.state0))
     = Ok (Some (FJiraDir "ABC" (mode_or perm_ro DMDIR) "jira" "jira" (VProject "ABC")))
  /\ fst (AllProjectsView_Walk (String "197" (String "191" "")) (ToyMore.session Toy.state0))
     = Ok (Some (FJiraDir "S" (mode_or perm_ro DMDIR) "jira" "jira" (VProject "S")))
  /\ fst (AllProjectsView_Walk "xyz" (ToyMore.session Toy.state0)) = Ok None.
Proof.
  destruct (project_walk_ignores_case (R := Toy.State)) as (H1 & H2 & H).
  split; [|split; [|split; [|split]]].
  - apply (H1 "Abc" "aBC"). reflexivity.
  - apply (H2 "abc"). repeat constructor.
  - rewrite (H "abc" (ToyMore.session Toy.state0) ToyMore.projects Toy.state0);
      reflexivity.
  - rewrite (H (String "197" (String "191" "")) (ToyMore.session Toy.state0)
               ToyMore.projects Toy.state0); reflexivity.
  - rewrite (H "xyz" (ToyMore.session Toy.state0) ToyMore.projects Toy.state0);
      reflexivity.
Defined.

Lemma project_walk_fetches_on_demand_witness :
  ProjectView_Walk "ABC" "versions" (ToyMore.session Toy.state0)
  = (Ok None, ToyMore.session Toy.state0)
  /\ fst (ProjectView_Walk "ABC" "components" (ToyMore.session Toy.state0))
     = Ok (Some (FSynthetic
                   {| sf_name := "components"; sf_perm := perm_ro; sf_user := "jira";
                      sf_group := "jira";
                      sf_Content := "core" +:+ NL +:+ "ui" +:+ NL |})).
Proof.
  destruct (project_walk_fetches_on_demand "ABC" (ToyMore.session Toy.state0))
    as (_ & H2 & H3).
  split; [apply H2; list_notin|].
  destruct (H3 (hd {| prj_Key := ""; prj_Components := []; prj_IssueTypes := [] |}
                   ToyMore.projects) Toy.state0) as (H & _); [reflexivity|].
  rewrite H. reflexivity.
Defined.

Lemma set_max_listing_witness :
  JiraView_set ["max-listing"; "-1"] (Toy.world Toy.state0)
  = (Ok tt, set_maxlisting (Toy.world Toy.state0) (-1))
  /\ JiraView_set ["max-listing"] (Toy.world Toy.state0)
     = (Err (ErrorString "invalid arguments"), Toy.world Toy.state0)
  /\ JiraView_set ["colour"; "red"] (Toy.world Toy.state0)
     = (Err (ErrorString "unknown variable"), Toy.world Toy.state0)
  /\ exists e, JiraView_set ["max-listing"; "ten"] (Toy.world Toy.state0)
               = (Err e, Toy.world Toy.state0).
Proof.
  destruct (set_max_listing (R := Toy.State)) as (H1 & H2 & H3 & H4).
  split; [|split; [|split]].
  - destruct (H1 "-1" (-1)%Z (Toy.world Toy.state0) eq_refl) as [H _]. exact H.
  - apply H2. simpl. lia.
  - apply H3. discriminate.
  - apply H4. reflexivity.
Defined.

Lemma root_listing_can_be_walked_witness :
  let jw := {| jw_searches :=
                 Some {[ "mine" := {| sw_query := "assignee = me"; sw_results := ["ABC-1"] |} ]} |} in
  JiraView_List (jw, Toy.world Toy.state0)
  = (Ok [entry "projects" (mode_or perm_ro DMDIR); entry "issues" (mode_or perm_ro DMDIR);
         entry "ctl" perm_rw; entry "help" perm_ro; entry "structure" perm_ro;
         entry "mine" (mode_or perm_rw DMDIR)],
     (jw, Toy.world Toy.state0))
  /\ JiraView_Walk "mine" (jw, Toy.world Toy.state0)
     = (Ok (Some (FJiraDir "mine" (mode_or perm_ro DMDIR) "jira" "jira"
                    (VSearch {| sw_query := "assignee = me"; sw_results := ["ABC-1"] |}))),
        (jw, Toy.world Toy.state0)).
Proof.
  intros jw.
  destruct (root_listing_can_be_walked (R := Toy.State) jw (Toy.world Toy.state0))
    as (dirs & H1 & H2 & _ & H4).
  split.
  - rewrite H1. f_equal. f_equal. f_equal.
    unfold jw, searches_of in H2. cbn [jw_searches] in H2.
    rewrite map_to_list_singleton in H2. cbn in H2.
    apply Permutation_singleton_r in H2. now rewrite H2.
  - apply H4; [apply lookup_singleton_eq|]. unfold reservedNames. list_notin.
Defined.
